(** * Trigger detection, actor authorisation and CLI dispatch

    A shallow embedding of [src/github/validation/actor.ts] (the three
    validation modules: actor, permissions, trigger) and of the CLI
    dispatcher ([getCliToolConfig], [executeCliTool]), together with the
    JavaScript built-ins those functions rest on: strings as sequences of
    UTF-16 code units, regular expressions built from a pattern string,
    [JSON.parse], and exceptions. *)

From Stdlib Require Import NArith ZArith Ascii String List Bool DecimalString.
From stdpp Require Import base option list gmap.
Import ListNotations.

Local Open Scope N_scope.

(** ** JavaScript strings *)

Module JS.

(** A JavaScript string is a sequence of UTF-16 code units. *)
Definition jsstring : Type := list N.

(** The code units of an ASCII literal. *)
Definition js (s : string) : jsstring :=
  List.map N_of_ascii (list_ascii_of_string s).

Definition chr (a : ascii) : N := N_of_ascii a.

(** [is_chr c a]: the code unit [c] is the ASCII character [a]. *)
Definition is_chr (c : N) (a : ascii) : bool := N.eqb c (chr a).

Fixpoint str_eqb (a b : jsstring) : bool :=
  match a, b with
  | [], [] => true
  | x :: a', y :: b' => N.eqb x y && str_eqb a' b'
  | _, _ => false
  end.

(** Truthiness of a string: every string but the empty one. *)
Definition truthy (s : jsstring) : bool :=
  match s with [] => false | _ => true end.

(** [a || b] on strings. *)
Definition or_else (a b : jsstring) : jsstring :=
  if truthy a then a else b.

(** [o || d] where [o] may be [null] or [undefined]. *)
Definition opt_or (o : option jsstring) (d : jsstring) : jsstring :=
  match o with Some s => or_else s d | None => d end.

(** [Array.prototype.includes] on an array of strings (strict equality). *)
Fixpoint includes (l : list jsstring) (x : jsstring) : bool :=
  match l with
  | [] => false
  | y :: l' => str_eqb y x || includes l' x
  end.

(** [Array.prototype.join]. *)
Fixpoint join (sep : jsstring) (l : list jsstring) : jsstring :=
  match l with
  | [] => []
  | [x] => x
  | x :: l' => x ++ sep ++ join sep l'
  end.

(** [s] occurs in [t] as a contiguous run of code units. *)
Definition substring_of (s t : jsstring) : Prop :=
  exists pre post, t = pre ++ s ++ post.

Fixpoint starts_with (s t : jsstring) : bool :=
  match s, t with
  | [], _ => true
  | x :: s', y :: t' => N.eqb x y && starts_with s' t'
  | _ :: _, [] => false
  end.

(** WhiteSpace and LineTerminator code points: what [\s] matches. *)
Definition isWhiteSpace (c : N) : bool :=
  ((9 <=? c) && (c <=? 13)) || (c =? 32) || (c =? 160) || (c =? 5760)
  || ((8192 <=? c) && (c <=? 8202)) || (c =? 8232) || (c =? 8233)
  || (c =? 8239) || (c =? 8287) || (c =? 12288) || (c =? 65279).

Definition isLineTerminator (c : N) : bool :=
  (c =? 10) || (c =? 13) || (c =? 8232) || (c =? 8233).

Definition isDigit (c : N) : bool := (48 <=? c) && (c <=? 57).

Definition isAlpha (c : N) : bool :=
  ((65 <=? c) && (c <=? 90)) || ((97 <=? c) && (c <=? 122)).

(** What [\w] matches. *)
Definition isWordChar (c : N) : bool := isAlpha c || isDigit c || (c =? 95).

(** Thrown values: an error object with its [name] and [message]. *)
Record JsError : Type := mkJsError { err_name : jsstring; err_message : jsstring }.

(** [new Error(msg)]. *)
Definition Error (msg : jsstring) : JsError := mkJsError (js "Error") msg.
Definition TypeError (msg : jsstring) : JsError := mkJsError (js "TypeError") msg.
Definition SyntaxError (msg : jsstring) : JsError := mkJsError (js "SyntaxError") msg.

(** [Error.prototype.toString], what a template literal [`${error}`] prints. *)
Definition error_toString (e : JsError) : jsstring :=
  match err_name e, err_message e with
  | [], m => m
  | n, [] => n
  | n, m => n ++ js ": " ++ m
  end.

(** Outcome of a call that may throw. *)
Inductive Result (A : Type) : Type :=
| Ok (a : A)
| Throw (e : JsError).
Arguments Ok {A} a.
Arguments Throw {A} e.

End JS.
Import JS.

(** ** Regular expressions *)

Module Regex.

(** Items of a character class [[...]]. *)
Inductive class_item : Type :=
| CChar (c : N)
| CSpace | CNotSpace
| CDigit | CNotDigit
| CWord | CNotWord.

(** Patterns of the fragment the validation code uses: literals, [.],
    classes, the anchors, groups, alternation and the greedy quantifiers. *)
Inductive regex : Type :=
| REmpty
| RChar (c : N)
| RAny
| RClass (neg : bool) (items : list class_item)
| RBol
| REol
| RSeq (r1 r2 : regex)
| RAlt (r1 r2 : regex)
| RGroup (r : regex)
| RStar (r : regex)
| RPlus (r : regex)
| ROpt (r : regex).

Definition item_matches (i : class_item) (c : N) : bool :=
  match i with
  | CChar d => N.eqb c d
  | CSpace => isWhiteSpace c
  | CNotSpace => negb (isWhiteSpace c)
  | CDigit => isDigit c
  | CNotDigit => negb (isDigit c)
  | CWord => isWordChar c
  | CNotWord => negb (isWordChar c)
  end.

Definition class_matches (neg : bool) (items : list class_item) (c : N) : bool :=
  xorb neg (existsb (fun i => item_matches i c) items).

(** *** Matching

    A position in the subject string: the code units already passed (most
    recent first) and the ones still ahead. *)
Record pos : Type := Pos { before : jsstring; after : jsstring }.

(** Consume one code unit satisfying [p]. *)
Definition eat (p : N -> bool) (x : pos) : list pos :=
  match after x with
  | c :: rest => if p c then [Pos (c :: before x) rest] else []
  | [] => []
  end.

(** Zero or more iterations of [f]; an iteration that consumes nothing is
    rejected, as the language's RepeatMatcher does, so the number of
    iterations is bounded by the code units ahead. *)
Fixpoint iter_star (fuel : nat) (f : pos -> list pos) (x : pos) : list pos :=
  match fuel with
  | O => [x]
  | S n =>
      flat_map
        (fun y => if (length (after y) <? length (after x))%nat
                  then iter_star n f y else [])
        (f x) ++ [x]
  end.

(** [ends r x]: every position at which a match of [r] begun at [x] can end. *)
Fixpoint ends (r : regex) (x : pos) {struct r} : list pos :=
  match r with
  | REmpty => [x]
  | RChar c => eat (N.eqb c) x
  | RAny => eat (fun c => negb (isLineTerminator c)) x
  | RClass neg items => eat (class_matches neg items) x
  | RBol => match before x with [] => [x] | _ => [] end
  | REol => match after x with [] => [x] | _ => [] end
  | RSeq r1 r2 => flat_map (ends r2) (ends r1 x)
  | RAlt r1 r2 => ends r1 x ++ ends r2 x
  | RGroup r1 => ends r1 x
  | RStar r1 => iter_star (length (after x)) (ends r1) x
  | RPlus r1 =>
      flat_map (fun y => iter_star (length (after y)) (ends r1) y) (ends r1 x)
  | ROpt r1 => ends r1 x ++ [x]
  end.

Definition matches_at (r : regex) (x : pos) : bool :=
  match ends r x with [] => false | _ => true end.

(** Every position of a subject, from [x] to the end. *)
Fixpoint positions (bef aft : jsstring) : list pos :=
  Pos bef aft ::
  match aft with
  | [] => []
  | c :: aft' => positions (c :: bef) aft'
  end.

(** [RegExp.prototype.test] for a regex without the [g] and [y] flags: is
    there a match starting at some index of [t]. *)
Definition test (r : regex) (t : jsstring) : bool :=
  existsb (matches_at r) (positions [] t).

(** *** Building a regex from its pattern: [new RegExp(pattern)]

    The pattern is read left to right, one code unit at a time.  The
    reader keeps the alternatives and the atoms of the group being read
    (most recent first) and a stack of the enclosing groups.  Constructs
    outside the fragment above (ranges in a class, bounded repetition,
    back-references, look-around, hexadecimal and unicode escapes) and
    patterns the language rejects are not compiled: the result is [None]. *)

Record frame : Type := Frame { f_alts : list regex; f_cur : list regex }.

(** What stands just before the reading point: nothing a quantifier can
    apply to, an atom, or an atom that already has its quantifier. *)
Inductive last_kind : Type := LNone | LAtom | LQuant.

Inductive pmode : Type :=
| PNormal
| PEscape
| PClassOpen
| PClass (neg : bool) (items : list class_item)
| PClassEscape (neg : bool) (items : list class_item).

Record pstate : Type := PState {
  p_mode : pmode;
  p_stack : list frame;
  p_top : frame;
  p_last : last_kind
}.

Definition mk_seq (atoms : list regex) : regex := fold_right RSeq REmpty atoms.

Fixpoint mk_alt (alts : list regex) : regex :=
  match alts with
  | [] => REmpty
  | [r] => r
  | r :: alts' => RAlt r (mk_alt alts')
  end.

(** The disjunction read so far in a frame. *)
Definition close_frame (f : frame) : regex :=
  mk_alt (rev (mk_seq (rev (f_cur f)) :: f_alts f)).

Definition push_atom (a : regex) (k : last_kind) (st : pstate) : pstate :=
  PState PNormal (p_stack st)
         (Frame (f_alts (p_top st)) (a :: f_cur (p_top st))) k.

Definition quantify (q : regex -> regex) (st : pstate) : option pstate :=
  match p_last st, f_cur (p_top st) with
  | LAtom, a :: cur =>
      Some (PState PNormal (p_stack st) (Frame (f_alts (p_top st)) (q a :: cur)) LQuant)
  | _, _ => None
  end.

(** The fourteen syntax characters of a pattern. *)
Definition isSyntaxCharacter (c : N) : bool :=
  is_chr c "." || is_chr c "*" || is_chr c "+" || is_chr c "?"
  || is_chr c "^" || is_chr c "$" || is_chr c "{" || is_chr c "}"
  || is_chr c "(" || is_chr c ")" || is_chr c "|" || is_chr c "["
  || is_chr c "]" || is_chr c "\".

(** [\d \D \s \S \w \W]. *)
Definition class_escape (c : N) : option class_item :=
  if is_chr c "s" then Some CSpace else
  if is_chr c "S" then Some CNotSpace else
  if is_chr c "d" then Some CDigit else
  if is_chr c "D" then Some CNotDigit else
  if is_chr c "w" then Some CWord else
  if is_chr c "W" then Some CNotWord else None.

(** [\t \n \v \f \r], and the identity escape of a code unit that is
    neither a letter nor a digit. *)
Definition char_escape (c : N) : option N :=
  if is_chr c "t" then Some 9 else
  if is_chr c "n" then Some 10 else
  if is_chr c "v" then Some 11 else
  if is_chr c "f" then Some 12 else
  if is_chr c "r" then Some 13 else
  if isAlpha c || isDigit c then None else Some c.

Definition step_normal (st : pstate) (c : N) : option pstate :=
  if is_chr c "\" then
    Some (PState PEscape (p_stack st) (p_top st) (p_last st))
  else if is_chr c "(" then
    Some (PState PNormal (p_top st :: p_stack st) (Frame [] []) LNone)
  else if is_chr c ")" then
    match p_stack st with
    | [] => None
    | parent :: stack =>
        Some (PState PNormal stack
                (Frame (f_alts parent) (RGroup (close_frame (p_top st)) :: f_cur parent))
                LAtom)
    end
  else if is_chr c "|" then
    Some (PState PNormal (p_stack st)
            (Frame (mk_seq (rev (f_cur (p_top st))) :: f_alts (p_top st)) [])
            LNone)
  else if is_chr c "[" then
    Some (PState PClassOpen (p_stack st) (p_top st) (p_last st))
  else if is_chr c "^" then Some (push_atom RBol LNone st)
  else if is_chr c "$" then Some (push_atom REol LNone st)
  else if is_chr c "." then Some (push_atom RAny LAtom st)
  else if is_chr c "*" then quantify RStar st
  else if is_chr c "+" then quantify RPlus st
  else if is_chr c "?" then
    match p_last st with
    | LQuant => Some (PState PNormal (p_stack st) (p_top st) LNone)
    | _ => quantify ROpt st
    end
  else if is_chr c "{" || is_chr c "}" || is_chr c "]" then None
  else Some (push_atom (RChar c) LAtom st).

Definition step_escape (st : pstate) (c : N) : option pstate :=
  match class_escape c with
  | Some i => Some (push_atom (RClass false [i]) LAtom st)
  | None =>
      match char_escape c with
      | Some d => Some (push_atom (RChar d) LAtom st)
      | None => None
      end
  end.

Definition step_class (st : pstate) (neg : bool) (items : list class_item) (c : N)
  : option pstate :=
  if is_chr c "]" then Some (push_atom (RClass neg (rev items)) LAtom st)
  else if is_chr c "\" then
    Some (PState (PClassEscape neg items) (p_stack st) (p_top st) (p_last st))
  else if is_chr c "-" then None
  else Some (PState (PClass neg (CChar c :: items)) (p_stack st) (p_top st) (p_last st)).

Definition step_class_escape (st : pstate) (neg : bool) (items : list class_item) (c : N)
  : option pstate :=
  match class_escape c with
  | Some i => Some (PState (PClass neg (i :: items)) (p_stack st) (p_top st) (p_last st))
  | None =>
      match char_escape c with
      | Some d =>
          Some (PState (PClass neg (CChar d :: items)) (p_stack st) (p_top st) (p_last st))
      | None => None
      end
  end.

Definition step (st : pstate) (c : N) : option pstate :=
  match p_mode st with
  | PNormal => step_normal st c
  | PEscape => step_escape st c
  | PClassOpen =>
      if is_chr c "^"
      then Some (PState (PClass true []) (p_stack st) (p_top st) (p_last st))
      else step_class st false [] c
  | PClass neg items => step_class st neg items c
  | PClassEscape neg items => step_class_escape st neg items c
  end.

Definition step_opt (o : option pstate) (c : N) : option pstate :=
  match o with Some st => step st c | None => None end.

Definition start : pstate := PState PNormal [] (Frame [] []) LNone.

(** The pattern is complete when no escape, class or group is left open. *)
Definition finish (o : option pstate) : option regex :=
  match o with
  | Some (PState PNormal [] top _) => Some (close_frame top)
  | _ => None
  end.

(** The state after reading the characters of [s] as literals. *)
Definition push_literal (s : jsstring) (st : pstate) : pstate :=
  PState PNormal (p_stack st)
    (Frame (f_alts (p_top st)) (rev (List.map RChar s) ++ f_cur (p_top st)))
    (match s with [] => p_last st | _ => LAtom end).

(** [new RegExp(pattern)], without flags. *)
Definition RegExp (pattern : jsstring) : option regex :=
  finish (fold_left step_opt pattern (Some start)).

(** [new RegExp(pattern).test(t)]; [None] when the pattern does not compile. *)
Definition RegExp_test (pattern t : jsstring) : option bool :=
  match RegExp pattern with
  | Some r => Some (test r t)
  | None => None
  end.

End Regex.

Import Regex.

(** ** JSON values and [JSON.parse] *)

Module Json.

(** The code unit of the double quote. *)
Definition quote : N := 34.

#[local] Set Warnings "-register-all".
Inductive JsonValue : Type :=
| JNull
| JBool (b : bool)
| JNumber (literal : jsstring)
| JString (s : jsstring)
| JArray (elements : list JsonValue)
| JObject (members : list (jsstring * JsonValue)).

(** JSON white space: space, tab, line feed, carriage return. *)
Definition isJsonSpace (c : N) : bool :=
  (c =? 32) || (c =? 9) || (c =? 10) || (c =? 13).

Fixpoint skip_ws (s : jsstring) : jsstring :=
  match s with
  | c :: s' => if isJsonSpace c then skip_ws s' else s
  | [] => []
  end.

Definition hex_digit (c : N) : option N :=
  if isDigit c then Some (c - 48)
  else if (97 <=? c) && (c <=? 102) then Some (c - 87)
  else if (65 <=? c) && (c <=? 70) then Some (c - 55)
  else None.

(** The characters of a string literal after the opening quote, up to the
    closing one. *)
Fixpoint parse_chars (s : jsstring) (acc : jsstring) : option (jsstring * jsstring) :=
  match s with
  | [] => None
  | c :: s' =>
      if (c =? quote) then Some (rev acc, s')
      else if is_chr c "\" then
        match s' with
        | e :: s'' =>
            if (e =? quote) || is_chr e "\" || is_chr e "/"
            then parse_chars s'' (e :: acc)
            else if is_chr e "b" then parse_chars s'' (8 :: acc)
            else if is_chr e "f" then parse_chars s'' (12 :: acc)
            else if is_chr e "n" then parse_chars s'' (10 :: acc)
            else if is_chr e "r" then parse_chars s'' (13 :: acc)
            else if is_chr e "t" then parse_chars s'' (9 :: acc)
            else if is_chr e "u" then
              match s'' with
              | h1 :: ((h2 :: ((h3 :: ((h4 :: s4) as s3)) as s2)) as s1) =>
                  match hex_digit h1, hex_digit h2, hex_digit h3, hex_digit h4 with
                  | Some a, Some b, Some c', Some d =>
                      parse_chars s4 (((a * 16 + b) * 16 + c') * 16 + d :: acc)
                  | _, _, _, _ => None
                  end
              | _ => None
              end
            else None
        | [] => None
        end
      else if c <? 32 then None
      else parse_chars s' (c :: acc)
  end.

Fixpoint take_digits (s : jsstring) (acc : jsstring) : jsstring * jsstring :=
  match s with
  | c :: s' => if isDigit c then take_digits s' (c :: acc) else (rev acc, s)
  | [] => (rev acc, [])
  end.

(** A number literal: an optional minus sign; the integer part, [0] or a
    non-zero digit followed by digits; an optional fraction, a dot and at
    least one digit; an optional exponent, [e] or [E], an optional sign and
    at least one digit. *)
Definition parse_number (s : jsstring) : option (jsstring * jsstring) :=
  let (sign, s1) :=
    match s with
    | c :: s' => if is_chr c "-" then ([c], s') else ([], s)
    | [] => ([], s)
    end in
  let (int, s2) := take_digits s1 [] in
  match int with
  | [] => None
  | d :: ds =>
      if is_chr d "0" && truthy ds then None else
      let frac :=
        match s2 with
        | c :: s' =>
            if is_chr c "." then
              let (fd, s3) := take_digits s' [] in
              match fd with [] => None | _ => Some (c :: fd, s3) end
            else Some ([], s2)
        | [] => Some ([], s2)
        end in
      match frac with
      | None => None
      | Some (fr, s3) =>
          let expo :=
            match s3 with
            | c :: s' =>
                if is_chr c "e" || is_chr c "E" then
                  let (sg, s4) :=
                    match s' with
                    | g :: s'' =>
                        if is_chr g "+" || is_chr g "-" then ([g], s'') else ([], s')
                    | [] => ([], s')
                    end in
                  let (ed, s5) := take_digits s4 [] in
                  match ed with [] => None | _ => Some (c :: sg ++ ed, s5) end
                else Some ([], s3)
            | [] => Some ([], s3)
            end in
          match expo with
          | None => None
          | Some (ex, s5) => Some (sign ++ int ++ fr ++ ex, s5)
          end
      end
  end.

Definition expect (lit : jsstring) (v : JsonValue) (s : jsstring)
  : option (JsonValue * jsstring) :=
  if starts_with lit s then Some (v, drop (length lit) s) else None.

(** A value, then the elements of an array after its first one, then the
    members of an object after its first one; [fuel] bounds the nesting and
    the number of elements, and the length of the text is enough. *)
Fixpoint parse_value (fuel : nat) (s : jsstring) : option (JsonValue * jsstring) :=
  match fuel with
  | O => None
  | S n =>
      match skip_ws s with
      | [] => None
      | c :: s' =>
          if is_chr c "{" then
            match skip_ws s' with
            | d :: s'' =>
                if is_chr d "}" then Some (JObject [], s'')
                else
                  match parse_member n (skip_ws s') with
                  | Some (m, rest) =>
                      match parse_members n rest [m] with
                      | Some (ms, rest') => Some (JObject ms, rest')
                      | None => None
                      end
                  | None => None
                  end
            | [] => None
            end
          else if is_chr c "[" then
            match skip_ws s' with
            | d :: s'' =>
                if is_chr d "]" then Some (JArray [], s'')
                else
                  match parse_value n s' with
                  | Some (v, rest) =>
                      match parse_elements n rest [v] with
                      | Some (vs, rest') => Some (JArray vs, rest')
                      | None => None
                      end
                  | None => None
                  end
            | [] => None
            end
          else if (c =? quote) then
            match parse_chars s' [] with
            | Some (str, rest) => Some (JString str, rest)
            | None => None
            end
          else if is_chr c "t" then expect (js "true") (JBool true) (c :: s')
          else if is_chr c "f" then expect (js "false") (JBool false) (c :: s')
          else if is_chr c "n" then expect (js "null") JNull (c :: s')
          else
            match parse_number (c :: s') with
            | Some (lit, rest) => Some (JNumber lit, rest)
            | None => None
            end
      end
  end
with parse_elements (fuel : nat) (s : jsstring) (acc : list JsonValue)
  : option (list JsonValue * jsstring) :=
  match fuel with
  | O => None
  | S n =>
      match skip_ws s with
      | c :: s' =>
          if is_chr c "]" then Some (rev acc, s')
          else if is_chr c "," then
            match parse_value n s' with
            | Some (v, rest) => parse_elements n rest (v :: acc)
            | None => None
            end
          else None
      | [] => None
      end
  end
with parse_member (fuel : nat) (s : jsstring) : option ((jsstring * JsonValue) * jsstring) :=
  match fuel with
  | O => None
  | S n =>
      match s with
      | q :: s' =>
          if (q =? quote) then
            match parse_chars s' [] with
            | Some (key, rest) =>
                match skip_ws rest with
                | c :: rest' =>
                    if is_chr c ":" then
                      match parse_value n rest' with
                      | Some (v, rest'') => Some ((key, v), rest'')
                      | None => None
                      end
                    else None
                | [] => None
                end
            | None => None
            end
          else None
      | [] => None
      end
  end
with parse_members (fuel : nat) (s : jsstring) (acc : list (jsstring * JsonValue))
  : option (list (jsstring * JsonValue) * jsstring) :=
  match fuel with
  | O => None
  | S n =>
      match skip_ws s with
      | c :: s' =>
          if is_chr c "}" then Some (rev acc, s')
          else if is_chr c "," then
            match parse_member n (skip_ws s') with
            | Some (m, rest) => parse_members n rest (m :: acc)
            | None => None
            end
          else None
      | [] => None
      end
  end.

(** [JSON.parse(text)]: one value, white space around it, nothing else;
    throws a SyntaxError otherwise (its message depends on the engine and
    is left empty). *)
Definition JSON_parse (text : jsstring) : Result JsonValue :=
  match parse_value (S (length text)) text with
  | Some (v, rest) =>
      match skip_ws rest with
      | [] => Ok v
      | _ => Throw (SyntaxError [])
      end
  | None => Throw (SyntaxError [])
  end.

End Json.
Import Json.

(** ** Effects: the log, the GitHub API, thrown errors *)

Module Eff.

(** What a run does to the outside world, in order. *)
Inductive Event : Type :=
| ConsoleLog (msg : jsstring)
| CoreInfo (msg : jsstring)
| CoreWarning (msg : jsstring)
| CoreError (msg : jsstring)
| CoreSetOutput (name value : jsstring)
| GetByUsername (username : jsstring)
| GetCollaboratorPermissionLevel (owner repo username : jsstring)
| SpawnSync (command : jsstring) (args : list jsstring)
            (env : gmap jsstring JsonValue) (cwd : jsstring)
| WriteFileSync (path : jsstring) (data : JsonValue).

Definition is_api_call (e : Event) : bool :=
  match e with
  | GetByUsername _ | GetCollaboratorPermissionLevel _ _ _ => true
  | _ => false
  end.

(** A computation: the events it performed and how it ended. *)
Record M (A : Type) : Type := mkM { trace : list Event; outcome : Result A }.
Arguments mkM {A} trace outcome.
Arguments trace {A} m.
Arguments outcome {A} m.

Definition ret {A} (a : A) : M A := mkM [] (Ok a).
Definition throw {A} (e : JsError) : M A := mkM [] (Throw e).
Definition emit (e : Event) : M unit := mkM [e] (Ok tt).

Definition bind {A B} (f : A -> M B) (m : M A) : M B :=
  match outcome m with
  | Ok a => mkM (trace m ++ trace (f a)) (outcome (f a))
  | Throw e => mkM (trace m) (Throw e)
  end.

#[export] Instance M_ret : MRet M := @ret.
#[export] Instance M_bind : MBind M := @bind.

(** [try { m } catch (error) { h error }]. *)
Definition try_catch {A} (m : M A) (h : JsError -> M A) : M A :=
  match outcome m with
  | Ok a => m
  | Throw e => mkM (trace m ++ trace (h e)) (outcome (h e))
  end.

(** An awaited API request: it is recorded, and resolves or rejects. *)
Definition request {A} (e : Event) (r : Result A) : M A := mkM [e] r.

Definition console_log (msg : jsstring) : M unit := emit (ConsoleLog msg).
Definition core_info (msg : jsstring) : M unit := emit (CoreInfo msg).
Definition core_warning (msg : jsstring) : M unit := emit (CoreWarning msg).
Definition core_error (msg : jsstring) : M unit := emit (CoreError msg).
Definition core_setOutput (name value : jsstring) : M unit :=
  emit (CoreSetOutput name value).

Definition api_calls {A} (m : M A) : list Event := List.filter is_api_call (trace m).

End Eff.
Import Eff.

(** ** The event context *)

Module Context.

Record Inputs : Type := {
  triggerPhrase : jsstring;
  assigneeTrigger : jsstring;
  directPrompt : jsstring;
  allowedBotNames : list jsstring;
  allowedTools : list jsstring;
  disallowedTools : list jsstring;
  customInstructions : jsstring
}.

Record Repository : Type := {
  full_name : jsstring;
  owner : jsstring;
  repo : jsstring
}.

(** The parts of a webhook payload the validation code reads.  A [body]
    or [title] may be [null]; a member the event does not carry is
    absent. *)
Record Text : Type := { body : option jsstring; title : option jsstring }.
Record Comment : Type := { comment_body : jsstring }.
Record User : Type := { login : jsstring }.

Record Payload : Type := {
  issue : option Text;
  pull_request : option Text;
  review : option Text;
  comment : option Comment;
  assignee : option User
}.

Record ParsedGitHubContext : Type := {
  runId : jsstring;
  eventName : jsstring;
  eventAction : option jsstring;
  repository : Repository;
  actor : jsstring;
  payload : Payload;
  entityNumber : Z;
  isPR : bool;
  inputs : Inputs
}.

(** [a === s] for an optional string [a]. *)
Definition opt_is (a : option jsstring) (s : jsstring) : bool :=
  match a with Some x => str_eqb x s | None => false end.

(** Modelled from the spec: the event guards of [../context], which is not
    among the sources.  The spec names the events ("issue-assignment",
    "issue-opened", "pull-request", "pull-request-review", "issue-comment",
    "pull-request-review-comment") and the tests give the event names. *)
Definition isIssuesEvent (c : ParsedGitHubContext) : bool :=
  str_eqb (eventName c) (js "issues").

(** Modelled from the spec: see [isIssuesEvent]. *)
Definition isIssuesAssignedEvent (c : ParsedGitHubContext) : bool :=
  isIssuesEvent c && opt_is (eventAction c) (js "assigned").

(** Modelled from the spec: see [isIssuesEvent]. *)
Definition isIssueCommentEvent (c : ParsedGitHubContext) : bool :=
  str_eqb (eventName c) (js "issue_comment").

(** Modelled from the spec: see [isIssuesEvent]. *)
Definition isPullRequestEvent (c : ParsedGitHubContext) : bool :=
  str_eqb (eventName c) (js "pull_request").

(** Modelled from the spec: see [isIssuesEvent]. *)
Definition isPullRequestReviewEvent (c : ParsedGitHubContext) : bool :=
  str_eqb (eventName c) (js "pull_request_review").

(** Modelled from the spec: see [isIssuesEvent]. *)
Definition isPullRequestReviewCommentEvent (c : ParsedGitHubContext) : bool :=
  str_eqb (eventName c) (js "pull_request_review_comment").

(** Reading a member of [context.payload] that is [undefined] and then a
    property of it raises a TypeError (its message depends on the engine
    and is left empty). *)
Definition member {A} (o : option A) : M A :=
  match o with
  | Some a => mret a
  | None => throw (TypeError [])
  end.

(** The payload carries the members its event name and action promise. *)
Definition payload_fits (c : ParsedGitHubContext) : bool :=
  (negb (isIssuesEvent c && opt_is (eventAction c) (js "opened"))
   || bool_decide (is_Some (issue (payload c))))
  && (negb (isPullRequestEvent c)
      || bool_decide (is_Some (pull_request (payload c))))
  && (negb (isPullRequestReviewEvent c
            && (opt_is (eventAction c) (js "submitted")
                || opt_is (eventAction c) (js "edited")))
      || bool_decide (is_Some (review (payload c))))
  && (negb (isIssueCommentEvent c || isPullRequestReviewCommentEvent c)
      || bool_decide (is_Some (comment (payload c)))).

End Context.
Import Context.

(** ** Trigger detection *)

Module Trigger.

Inductive AIProvider : Type := claude | augment.

Record TriggerResult : Type := {
  containsTrigger : bool;
  aiProvider : option AIProvider
}.

(** A regex literal: compiled once, when the module is loaded. *)
Definition regex_literal (pattern : jsstring) : regex :=
  match RegExp pattern with
  | Some r => r
  | None => REmpty
  end.

Definition augmentRegex : regex := regex_literal (js "(^|\s)@augment([\s.,!?;:]|$)").
Definition claudeRegex : regex := regex_literal (js "(^|\s)@claude([\s.,!?;:]|$)").

Definition detectAIProvider (text : jsstring) : option AIProvider :=
  (* Check for @augment first (more specific) *)
  if test augmentRegex text then Some augment
  (* Check for @claude *)
  else if test claudeRegex text then Some claude
  else None.

(** The class of [escapeRegExp]: the characters it puts a backslash before. *)
Definition escapeClass : regex := regex_literal (js "[.*+?^${}()|[\]\\]").

(** [string.replace(/[.*+?^${}()|[\]\\]/g, "\\$&")]: every code unit the
    class matches is replaced by a backslash and itself. *)
Definition escapeRegExp (s : jsstring) : jsstring :=
  flat_map (fun c => if matches_at escapeClass (Pos [] [c])
                     then js "\" ++ [c] else [c]) s.

(** [new RegExp(pattern)]: throws a SyntaxError when the pattern does not
    compile. *)
Definition new_RegExp (pattern : jsstring) : M regex :=
  match RegExp pattern with
  | Some r => mret r
  | None => throw (SyntaxError [])
  end.

(** [new RegExp(`(^|\\s)${escapeRegExp(triggerPhrase)}([\\s.,!?;:]|$)`)]. *)
Definition triggerPattern (triggerPhrase : jsstring) : jsstring :=
  js "(^|\s)" ++ escapeRegExp triggerPhrase ++ js "([\s.,!?;:]|$)".

(** [assigneeTrigger.replace(/^@/, "")]: one leading [@] is dropped. *)
Definition strip_at (s : jsstring) : jsstring :=
  match s with
  | c :: s' => if is_chr c "@" then s' else s
  | [] => []
  end.

Definition provider_name (p : AIProvider) : jsstring :=
  match p with claude => js "claude" | augment => js "augment" end.

Definition triggered (p : AIProvider) : TriggerResult :=
  {| containsTrigger := true; aiProvider := Some p |}.

(** [a || b] on provider results ([null] is falsy). *)
Definition first_provider (a b : option AIProvider) : option AIProvider :=
  match a with Some p => Some p | None => b end.

(** Each block of [checkContainsTrigger] either returns a result or falls
    through to the next one ([None]). *)
Definition assigneeBlock (context : ParsedGitHubContext) : M (option TriggerResult) :=
  if isIssuesAssignedEvent context then
    let triggerUser := strip_at (assigneeTrigger (inputs context)) in
    let assigneeUsername :=
      opt_or (option_map login (assignee (payload context))) [] in
    if truthy triggerUser && str_eqb assigneeUsername triggerUser then
      console_log (js "Issue assigned to trigger user '" ++ triggerUser ++ js "'");;
      mret (Some (triggered claude))
    else mret None
  else mret None.

(** The body-then-title scan shared by the issue and pull request blocks. *)
Definition scanBodyTitle (What : jsstring) (triggerPhrase : jsstring)
    (t : Text) : M (option TriggerResult) :=
  let theBody := opt_or (body t) [] in
  let theTitle := opt_or (title t) [] in
  match first_provider (detectAIProvider theBody) (detectAIProvider theTitle) with
  | Some p =>
      console_log (What ++ js " contains " ++ provider_name p ++ js " trigger");;
      mret (Some (triggered p))
  | None =>
      regex ← new_RegExp (triggerPattern triggerPhrase);
      if test regex theBody then
        console_log (What ++ js " body contains exact trigger phrase '"
                       ++ triggerPhrase ++ js "'");;
        mret (Some (triggered claude))
      else if test regex theTitle then
        console_log (What ++ js " title contains exact trigger phrase '"
                       ++ triggerPhrase ++ js "'");;
        mret (Some (triggered claude))
      else mret None
  end.

(** The single-text scan shared by the review and comment blocks. *)
Definition scanText (What : jsstring) (triggerPhrase : jsstring)
    (text : jsstring) : M (option TriggerResult) :=
  match detectAIProvider text with
  | Some p =>
      console_log (What ++ js " contains " ++ provider_name p ++ js " trigger");;
      mret (Some (triggered p))
  | None =>
      regex ← new_RegExp (triggerPattern triggerPhrase);
      if test regex text then
        console_log (What ++ js " contains exact trigger phrase '"
                       ++ triggerPhrase ++ js "'");;
        mret (Some (triggered claude))
      else mret None
  end.

Definition issueBlock (context : ParsedGitHubContext) : M (option TriggerResult) :=
  if isIssuesEvent context && opt_is (eventAction context) (js "opened") then
    i ← member (issue (payload context));
    scanBodyTitle (js "Issue") (triggerPhrase (inputs context)) i
  else mret None.

Definition pullRequestBlock (context : ParsedGitHubContext) : M (option TriggerResult) :=
  if isPullRequestEvent context then
    pr ← member (pull_request (payload context));
    scanBodyTitle (js "Pull request") (triggerPhrase (inputs context)) pr
  else mret None.

Definition reviewBlock (context : ParsedGitHubContext) : M (option TriggerResult) :=
  if isPullRequestReviewEvent context
     && (opt_is (eventAction context) (js "submitted")
         || opt_is (eventAction context) (js "edited")) then
    r ← member (review (payload context));
    scanText (js "Pull request review") (triggerPhrase (inputs context))
             (opt_or (body r) [])
  else mret None.

Definition commentBlock (context : ParsedGitHubContext) : M (option TriggerResult) :=
  if isIssueCommentEvent context || isPullRequestReviewCommentEvent context then
    c ← member (comment (payload context));
    scanText (js "Comment") (triggerPhrase (inputs context)) (comment_body c)
  else mret None.

(** Run the blocks in order; the first that returns decides. *)
Fixpoint first_return (blocks : list (M (option TriggerResult)))
    (otherwise : M TriggerResult) : M TriggerResult :=
  match blocks with
  | [] => otherwise
  | b :: blocks' =>
      r ← b;
      match r with
      | Some res => mret res
      | None => first_return blocks' otherwise
      end
  end.

Definition checkContainsTrigger (context : ParsedGitHubContext) : M TriggerResult :=
  (* If direct prompt is provided, always trigger with claude as default *)
  if truthy (directPrompt (inputs context)) then
    console_log (js "Direct prompt provided, triggering action with Claude");;
    mret (triggered claude)
  else
    first_return
      [ assigneeBlock context; issueBlock context; pullRequestBlock context;
        reviewBlock context; commentBlock context ]
      (console_log (js "No trigger was met for " ++ triggerPhrase (inputs context));;
       mret {| containsTrigger := false; aiProvider := None |}).

Definition bool_toString (b : bool) : jsstring :=
  if b then js "true" else js "false".

Definition checkTriggerAction (context : ParsedGitHubContext) : M bool :=
  result ← checkContainsTrigger context;
  core_setOutput (js "contains_trigger") (bool_toString (containsTrigger result));;
  match aiProvider result with
  | Some p => core_setOutput (js "ai_provider") (provider_name p)
  | None => mret tt
  end;;
  mret (containsTrigger result).

(** The regex both kinds of pattern compile to: the opening group
    [(^|\s)], the literal, the closing group [([\s.,!?;:]|$)]. *)
Definition wordStart : regex :=
  RGroup (RAlt (RSeq RBol REmpty) (RSeq (RClass false [CSpace]) REmpty)).

Definition wordEnd : regex :=
  RGroup (RAlt (RSeq (RClass false [CSpace; CChar 46; CChar 44; CChar 33;
                                    CChar 63; CChar 59; CChar 58]) REmpty)
               (RSeq REol REmpty)).

Definition boundary_regex (literal : jsstring) : regex :=
  mk_seq (wordStart :: List.map RChar literal ++ [wordEnd]).

(** *** The boundary rule, in the words of the specification

    What may follow a token: white space or one of [. , ! ? ; :]. *)
Definition isFollow (c : N) : bool :=
  isWhiteSpace c || is_chr c "." || is_chr c "," || is_chr c "!"
  || is_chr c "?" || is_chr c ";" || is_chr c ":".

(** The narrower reading, with the space character alone. *)
Definition isFollowSpace (c : N) : bool :=
  is_chr c " " || is_chr c "." || is_chr c "," || is_chr c "!"
  || is_chr c "?" || is_chr c ";" || is_chr c ":".

Definition boundary_before (pre : jsstring) : Prop :=
  pre = [] \/ exists pre' c, pre = pre' ++ [c] /\ isWhiteSpace c = true.

Definition boundary_after (follow : N -> bool) (post : jsstring) : Prop :=
  post = [] \/ exists c post', post = c :: post' /\ follow c = true.

(** [tok] stands in [t] as a token of its own: preceded by the start of
    the text or white space, followed by its end or a [follow] character. *)
Definition standalone_with (follow : N -> bool) (tok t : jsstring) : Prop :=
  exists pre post,
    t = pre ++ tok ++ post /\ boundary_before pre /\ boundary_after follow post.

Definition standalone : jsstring -> jsstring -> Prop := standalone_with isFollow.

(** Every occurrence of [tok] in [t] is glued to a neighbour that is not a
    boundary: the token is part of a larger word wherever it occurs. *)
Definition embedded_only (tok t : jsstring) : Prop :=
  forall pre post, t = pre ++ tok ++ post ->
    (exists pre' c, pre = pre' ++ [c] /\ isWhiteSpace c = false)
    \/ (exists c post', post = c :: post' /\ isFollow c = false).

(** Whatever a block returns is a triggered result with its provider. *)
Definition returns_triggered (b : M (option TriggerResult)) : Prop :=
  forall r, outcome b = Ok (Some r) -> exists p, r = triggered p.

Definition does_not_throw {A} (m : M A) : Prop :=
  exists a, outcome m = Ok a.

(** The invariant of a result: a provider is present exactly when the
    trigger is. *)
Definition provider_iff_trigger (r : TriggerResult) : Prop :=
  containsTrigger r = true <-> exists p, aiProvider r = Some p.

End Trigger.
Import Trigger.

(** ** Actor authorisation *)

Module Actor.

Record UserData : Type := { user_type : jsstring; user_login : jsstring }.

(** The two REST endpoints the checks call; each resolves or rejects. *)
Record Octokit : Type := {
  users_getByUsername : jsstring -> Result UserData;
  repos_getCollaboratorPermissionLevel :
    jsstring -> jsstring -> jsstring -> Result jsstring
}.

Definition unauthorized_message (actor actorType : jsstring)
    (allowedBotNames : list jsstring) : jsstring :=
  js "Workflow initiated by unauthorized actor: " ++ actor
  ++ js " (type: " ++ actorType ++ js "). "
  ++ js "Only human users and whitelisted bots are allowed."
  ++ (if (0 <? length allowedBotNames)%nat
      then js " Allowed bots: " ++ join (js ", ") allowedBotNames
      else []).

Definition checkAllowedActor (octokit : Octokit)
    (githubContext : ParsedGitHubContext) : M unit :=
  (* Fetch user information from GitHub API *)
  userData ← request (GetByUsername (actor githubContext))
                     (users_getByUsername octokit (actor githubContext));
  let actorType := user_type userData in
  let actor := actor githubContext in
  console_log (js "Actor: " ++ actor ++ js ", type: " ++ actorType);;
  (* Allow human users *)
  if str_eqb actorType (js "User") then
    console_log (js "Verified human actor: " ++ actor)
  else
    (* Check if the bot is in the allowed bot names list *)
    let allowedBotNames := allowedBotNames (inputs githubContext) in
    if str_eqb actorType (js "Bot")
       && ((0 <? length allowedBotNames)%nat && includes allowedBotNames actor)
    then console_log (js "Verified allowed bot actor: " ++ actor)
    else
      (* If not a human and not in the allowed bot list, reject *)
      throw (Error (unauthorized_message actor actorType allowedBotNames)).

Definition checkWritePermissions (octokit : Octokit)
    (context : ParsedGitHubContext) : M bool :=
  let repository := repository context in
  let actor := actor context in
  let inputs := inputs context in
  try_catch
    (core_info (js "Checking permissions for actor: " ++ actor);;
     (* First check if this is an allowed bot *)
     if includes (allowedBotNames inputs) actor then
       core_info (js "Actor is an allowed bot: " ++ actor);;
       mret true
     else
       (* Check permissions directly using the permission endpoint *)
       permissionLevel ←
         request (GetCollaboratorPermissionLevel (owner repository) (repo repository) actor)
                 (repos_getCollaboratorPermissionLevel octokit
                    (owner repository) (repo repository) actor);
       core_info (js "Permission level retrieved: " ++ permissionLevel);;
       if str_eqb permissionLevel (js "admin") || str_eqb permissionLevel (js "write")
       then
         core_info (js "Actor has write access: " ++ permissionLevel);;
         mret true
       else
         core_warning (js "Actor has insufficient permissions: " ++ permissionLevel);;
         mret false)
    (fun error =>
       core_error (js "Failed to check permissions: " ++ error_toString error);;
       throw (Error (js "Failed to check permissions for " ++ actor ++ js ": "
                       ++ error_toString error))).

End Actor.
Import Actor.

(** ** The CLI dispatcher *)

Module Cli.

Record CliToolConfig : Type := {
  command : jsstring;
  installCommand : option (list jsstring);
  args : list jsstring;
  envSetup : option (gmap jsstring JsonValue)
}.

(** The decimal digits of an array index. *)
Definition index_key (i : nat) : jsstring :=
  js (NilZero.string_of_uint (Nat.to_uint i)).

(** The own enumerable properties an object spread [...v] copies. *)
Definition spread_entries (v : JsonValue) : list (jsstring * JsonValue) :=
  match v with
  | JObject members => members
  | JArray elements => imap (fun i e => (index_key i, e)) elements
  | JString s => imap (fun i c => (index_key i, JString [c])) s
  | JNull | JBool _ | JNumber _ => []
  end.

(** Properties are set in order, a later one replacing an earlier one. *)
Definition assign (m : gmap jsstring JsonValue) (entries : list (jsstring * JsonValue))
  : gmap jsstring JsonValue :=
  fold_left (fun acc kv => <[kv.1 := kv.2]> acc) entries m.

Definition supported_tools : list jsstring :=
  [js "claude-cli"; js "gemini-cli"; js "codex-cli"; js "augment-cli"].

Definition unsupported_message (cliTool : jsstring) : jsstring :=
  js "Unsupported CLI tool: " ++ cliTool
  ++ js ". Supported tools: claude-cli, gemini-cli, codex-cli, augment-cli".

Section Process.

(** [process.env]. *)
Variable process_env : gmap jsstring jsstring.

(** [process.env.NAME || d]. *)
Definition env_or (name : string) (d : jsstring) : jsstring :=
  opt_or (process_env !! js name) d.

Definition flag_set (name : string) : bool :=
  opt_is (process_env !! js name) (js "true").

(** [{ KEY: apiKey, MODEL: model, ...(aiEnv ? JSON.parse(aiEnv) : {}) }]. *)
Definition env_overlay (keyName modelName : string) (apiKey model aiEnv : jsstring)
  : Result (gmap jsstring JsonValue) :=
  let base := <[js modelName := JString model]> (<[js keyName := JString apiKey]> ∅) in
  if truthy aiEnv then
    match JSON_parse aiEnv with
    | Ok v => Ok (assign base (spread_entries v))
    | Throw e => Throw e
    end
  else Ok base.

Definition with_env (command : jsstring) (install args : list jsstring)
    (overlay : Result (gmap jsstring JsonValue)) : Result CliToolConfig :=
  match overlay with
  | Ok m => Ok {| command := command; installCommand := Some install;
                  args := args; envSetup := Some m |}
  | Throw e => Throw e
  end.

Definition getCliToolConfig (cliTool : jsstring) : Result CliToolConfig :=
  let promptFile := env_or "PROMPT_FILE" [] in
  let allowedTools := env_or "ALLOWED_TOOLS" [] in
  let disallowedTools := env_or "DISALLOWED_TOOLS" [] in
  let timeoutMinutes := env_or "TIMEOUT_MINUTES" (js "30") in
  let maxTurns := env_or "MAX_TURNS" [] in
  let model := env_or "MODEL" [] in
  let mcpConfig := env_or "MCP_CONFIG" [] in
  let apiKey := env_or "API_KEY" [] in
  let aiEnv := env_or "AI_ENV" [] in
  if str_eqb cliTool (js "claude-cli") then
    with_env (js "npx")
      [js "npm"; js "install"; js "-g"; js "@anthropic-ai/claude-code"]
      ([js "@anthropic-ai/claude-code";
        js "--prompt-file"; promptFile;
        js "--allowed-tools"; allowedTools;
        js "--disallowed-tools"; disallowedTools;
        js "--timeout-minutes"; timeoutMinutes]
       ++ (if truthy maxTurns then [js "--max-turns"; maxTurns] else [])
       ++ (if truthy model then [js "--model"; model] else [])
       ++ (if truthy mcpConfig then [js "--mcp-config"; mcpConfig] else [])
       ++ (if flag_set "USE_BEDROCK" then [js "--use-bedrock"] else [])
       ++ (if flag_set "USE_VERTEX" then [js "--use-vertex"] else []))
      (env_overlay "ANTHROPIC_API_KEY" "ANTHROPIC_MODEL" apiKey model aiEnv)
  else if str_eqb cliTool (js "gemini-cli") then
    with_env (js "npx")
      [js "npm"; js "install"; js "-g"; js "@google-ai/generativelanguage"]
      [js "@google-ai/generativelanguage";
       js "--input-file"; promptFile;
       js "--model"; or_else model (js "gemini-pro");
       js "--max-tokens"; js "2048";
       js "--timeout"; timeoutMinutes]
      (env_overlay "GOOGLE_API_KEY" "GOOGLE_AI_MODEL" apiKey model aiEnv)
  else if str_eqb cliTool (js "codex-cli") then
    with_env (js "npx")
      [js "npm"; js "install"; js "-g"; js "@openai/codex"]
      [js "@openai/codex"; js "exec"; js "--full-auto";
       js "Read and execute: " ++ promptFile]
      (env_overlay "OPENAI_API_KEY" "OPENAI_MODEL" apiKey model aiEnv)
  else if str_eqb cliTool (js "augment-cli") then
    with_env (js "npx")
      [js "npm"; js "install"; js "-g"; js "openai"]
      [js "openai"; js "api"; js "completions.create";
       js "-m"; or_else model (js "gpt-4");
       js "--prompt"; js "$(cat " ++ promptFile ++ js ")";
       js "--max-tokens"; js "2048"]
      (env_overlay "OPENAI_API_KEY" "OPENAI_MODEL" apiKey model aiEnv)
  else
    Throw (Error (unsupported_message cliTool)).

(** What the dispatcher asks of the system: whether [spawnSync] accepts
    its arguments (it throws, before any process starts, on a command, an
    argument or an environment entry it refuses, such as a string that
    holds a NUL), the exit status of a spawned process ([None] is [null], a
    process ended by a signal or never started), whether a file exists,
    what [writeFileSync] answers (it throws when the file cannot be
    written, for one in a directory that does not exist), the clock, the
    working directory and [path.join].  The install step passes the
    environment of the process itself and the install command of a
    configuration, which the spawn call accepts. *)
Record Sys : Type := {
  spawnSync_check : jsstring -> list jsstring -> gmap jsstring JsonValue -> jsstring
                    -> Result unit;
  spawn_status : jsstring -> list jsstring -> gmap jsstring JsonValue -> jsstring
                 -> option Z;
  existsSync : jsstring -> bool;
  writeFileSync : jsstring -> JsonValue -> Result unit;
  now_ISOString : jsstring;
  process_cwd : jsstring;
  path_join : jsstring -> jsstring -> jsstring
}.

Record Execution : Type := { outputFile : jsstring; conclusion : jsstring }.

Definition Z_toString (z : Z) : jsstring :=
  js (NilZero.string_of_int (Z.to_int z)).

Definition status_json (status : option Z) : JsonValue :=
  match status with
  | Some z => JNumber (Z_toString z)
  | None => JNull
  end.

(** [{ ...process.env, ...config.envSetup }]. *)
Definition spawn_env (config : CliToolConfig) : gmap jsstring JsonValue :=
  default ∅ (envSetup config) ∪ (JString <$> process_env).

(** [spawnSync(command, args, { stdio: "inherit", env, cwd })] with the
    environment built from [envSetup]: the call throws when it refuses its
    arguments, and no process starts then; otherwise the process runs to
    its end and its status is returned. *)
Definition spawnSync (sys : Sys) (file : jsstring) (arguments : list jsstring)
    (env : gmap jsstring JsonValue) (cwd : jsstring) : M (option Z) :=
  match spawnSync_check sys file arguments env cwd with
  | Ok _ => request (SpawnSync file arguments env cwd)
                    (Ok (spawn_status sys file arguments env cwd))
  | Throw e => throw e
  end.

(** The [outputData] of [executeCliTool]. *)
Definition result_record (sys : Sys) (conclusion commandLine : jsstring)
    (status : option Z) : JsonValue :=
  JArray [JObject [(js "type", JString (js "result"));
                   (js "status", JString conclusion);
                   (js "exit_code", status_json status);
                   (js "command", JString commandLine);
                   (js "timestamp", JString (now_ISOString sys))]].

Definition executeCliTool (sys : Sys) (config : CliToolConfig) : M Execution :=
  (* Set up environment variables *)
  let env := spawn_env config in
  let commandLine := command config ++ js " " ++ join (js " ") (args config) in
  console_log (js "Executing: " ++ commandLine);;
  (* Create output file path *)
  let outputDir := env_or "RUNNER_TEMP" (js "/tmp") in
  let outputFile := path_join sys outputDir (js "ai-execution-output.json") in
  status ← spawnSync sys (command config) (args config) env (process_cwd sys);
  (* Determine conclusion based on exit code *)
  let conclusion :=
    match status with
    | Some 0%Z => js "success"
    | _ => js "failure"
    end in
  (* Create a simple output file *)
  (if negb (existsSync sys outputFile) then
     let outputData := result_record sys conclusion commandLine status in
     request (WriteFileSync outputFile outputData)
             (writeFileSync sys outputFile outputData)
   else mret tt);;
  mret {| outputFile := outputFile; conclusion := conclusion |}.

End Process.

End Cli.
Import Cli.

(** ** Process-level effects

    The entry points also write to the error console, mark the action as
    failed, call further REST endpoints and end the process.  Their runs
    are recorded over the events below; a run ends by returning, by an
    uncaught error, or by [process.exit]. *)

Module Proc.

(** An argument of [console.error]: a string or a caught error. *)
Inductive LogArg : Type :=
| LogStr (s : jsstring)
| LogErr (e : JsError).

Inductive SysEvent : Type :=
| Base (e : Event)
| ConsoleError (args : list LogArg)
| CoreSetFailed (msg : jsstring)
| CompareCommits (owner repo basehead : jsstring)
| DeleteRef (owner repo ref : jsstring)
| UpdateComment (owner repo commentIdText body : jsstring).

Inductive Ending (A : Type) : Type :=
| Returned (a : A)
| Threw (e : JsError)
| Exited (code : Z).
Arguments Returned {A} a.
Arguments Threw {A} e.
Arguments Exited {A} code.

Record P (A : Type) : Type := mkP { events : list SysEvent; ending : Ending A }.
Arguments mkP {A} events ending.
Arguments events {A} p.
Arguments ending {A} p.

Definition pret {A} (a : A) : P A := mkP [] (Returned a).
Definition pthrow {A} (e : JsError) : P A := mkP [] (Threw e).
Definition pemit (e : SysEvent) : P unit := mkP [e] (Returned tt).

(** [process.exit(code)]: nothing after it runs, and no [catch] sees it. *)
Definition pexit {A} (code : Z) : P A := mkP [] (Exited code).

Definition pbind {A B} (f : A -> P B) (p : P A) : P B :=
  match ending p with
  | Returned a => mkP (events p ++ events (f a)) (ending (f a))
  | Threw e => mkP (events p) (Threw e)
  | Exited code => mkP (events p) (Exited code)
  end.

#[export] Instance P_ret : MRet P := @pret.
#[export] Instance P_bind : MBind P := @pbind.

(** [try { p } catch (error) { h error }]. *)
Definition ptry {A} (p : P A) (h : JsError -> P A) : P A :=
  match ending p with
  | Threw e => mkP (events p ++ events (h e)) (ending (h e))
  | _ => p
  end.

(** A computation of the validation layer, run inside an entry point. *)
Definition lift {A} (m : M A) : P A :=
  mkP (List.map Base (trace m))
      (match outcome m with Ok a => Returned a | Throw e => Threw e end).

(** A call that returns or throws without any effect. *)
Definition lift_result {A} (r : Result A) : P A :=
  mkP [] (match r with Ok a => Returned a | Throw e => Threw e end).

(** An awaited request of this layer. *)
Definition prequest {A} (e : SysEvent) (r : Result A) : P A :=
  mkP [e] (match r with Ok a => Returned a | Throw e => Threw e end).

Definition console_error (args : list LogArg) : P unit := pemit (ConsoleError args).
Definition core_setFailed (msg : jsstring) : P unit := pemit (CoreSetFailed msg).

Definition is_spawn (e : SysEvent) : bool :=
  match e with
  | Base (SpawnSync _ _ _ _) => true
  | _ => false
  end.

(** The processes a run spawned, in order. *)
Definition spawned {A} (p : P A) : list SysEvent := List.filter is_spawn (events p).

End Proc.
Import Proc.

(** ** The CLI entry point *)

Module Dispatch.

Section Process.

Variable process_env : gmap jsstring jsstring.
Variable sys : Sys.

(** The environment of the install step: [{ ...process.env }]. *)
Definition install_env : gmap jsstring JsonValue := JString <$> process_env.

(** The exit status of the install step of [config]. *)
Definition install_status (program : jsstring) (arguments : list jsstring) : option Z :=
  spawn_status sys program arguments install_env (process_cwd sys).

Definition installCliTool (config : CliToolConfig) : M unit :=
  match installCommand config with
  | None => mret tt
  | Some installCommand =>
      console_log (js "Installing " ++ join (js " ") installCommand ++ js "...");;
      installResult ←
        match installCommand with
        | program :: arguments =>
            request (SpawnSync program arguments install_env (process_cwd sys))
                    (Ok (install_status program arguments))
        | [] =>
            (* [installCommand[0]] is [undefined]: the spawn call rejects it *)
            throw (TypeError [])
        end;
      match installResult with
      | Some 0%Z => mret tt
      | _ =>
          throw (Error (js "Failed to install CLI tool: "
                          ++ join (js " ") installCommand))
      end
  end.

Definition failure_record (errorMessage : jsstring) : JsonValue :=
  JArray [JObject [(js "type", JString (js "error"));
                   (js "error", JString errorMessage);
                   (js "timestamp", JString (now_ISOString sys))]].

Definition run : P unit :=
  ptry
    (let cliTool := env_or process_env "CLI_TOOL" (js "claude-cli") in
     lift (console_log (js "Using CLI tool: " ++ cliTool));;
     (* Validate that required environment variables are set *)
     if negb (truthy (env_or process_env "PROMPT_FILE" [])) then
       pthrow (Error (js "PROMPT_FILE environment variable is required"))
     else if negb (existsSync sys (env_or process_env "PROMPT_FILE" [])) then
       pthrow (Error (js "Prompt file not found: "
                        ++ env_or process_env "PROMPT_FILE" []))
     else
       (* Get CLI tool configuration *)
       config ← lift_result (getCliToolConfig process_env cliTool);
       (* Install CLI tool if needed *)
       lift (installCliTool config);;
       (* Execute the CLI tool *)
       execution ← lift (executeCliTool process_env sys config);
       (* Set outputs for the GitHub Action *)
       lift (core_setOutput (js "execution_file") (outputFile execution));;
       lift (core_setOutput (js "conclusion") (conclusion execution));;
       if negb (str_eqb (conclusion execution) (js "success")) then
         core_setFailed (js "CLI tool execution failed with exit code: "
                           ++ conclusion execution)
       else mret tt)
    (fun error =>
       let errorMessage := err_message error in
       console_error [LogStr (js "Execute CLI failed: " ++ errorMessage)];;
       core_setFailed (js "Execute CLI failed: " ++ errorMessage);;
       (* Create a failure output file *)
       let outputDir := env_or process_env "RUNNER_TEMP" (js "/tmp") in
       let outputFile := path_join sys outputDir (js "ai-execution-output.json") in
       lift (request (WriteFileSync outputFile (failure_record errorMessage))
                     (writeFileSync sys outputFile (failure_record errorMessage)));;
       lift (core_setOutput (js "execution_file") outputFile);;
       lift (core_setOutput (js "conclusion") (js "failure"));;
       pexit 1%Z).

End Process.

End Dispatch.
Import Dispatch.

(** ** Branch cleanup *)

Module Branch.

(** The two endpoints the cleanup calls: the comparison resolves with its
    [total_commits], the deletion with nothing. *)
Record Octokits : Type := {
  compareCommitsWithBasehead : jsstring -> jsstring -> jsstring -> Result Z;
  deleteRef : jsstring -> jsstring -> jsstring -> Result unit
}.

Record Cleanup : Type := { shouldDeleteBranch : bool; branchLink : jsstring }.

Section Config.

(** [GITHUB_SERVER_URL] of [../api/config], which is not among the sources. *)
Variable GITHUB_SERVER_URL : jsstring.

Variable process_env : gmap jsstring jsstring.

(** [`\n[View branch](${branchUrl})`]; the first code unit is a line feed. *)
Definition view_branch_link (owner repo branch : jsstring) : jsstring :=
  [10] ++ js "[View branch](" ++
  (GITHUB_SERVER_URL ++ js "/" ++ owner ++ js "/" ++ repo ++ js "/tree/" ++ branch)
  ++ js ")".

Definition is_truthy_opt (o : option jsstring) : bool :=
  match o with Some s => truthy s | None => false end.

(** The first half: look at the branch and decide. *)
Definition inspectBranch (octokit : Octokits) (owner repo : jsstring)
    (claudeBranch : option jsstring) (baseBranch : jsstring) : P Cleanup :=
  match claudeBranch with
  | Some branch =>
      if truthy branch then
        ptry
          ((* Check if Claude made any commits to the branch *)
           total_commits ←
             prequest (CompareCommits owner repo (baseBranch ++ js "..." ++ branch))
                      (compareCommitsWithBasehead octokit owner repo
                         (baseBranch ++ js "..." ++ branch));
           if (total_commits =? 0)%Z then
             (* Check if AUGMENT_API_KEY is set (indicates Augment run) *)
             let isAugmentRun :=
               is_truthy_opt (process_env !! js "AUGMENT_API_KEY") in
             if isAugmentRun then
               lift (console_log
                       (js "Branch " ++ branch
                        ++ js " has no commits but showing link for Augment analysis"));;
               mret {| shouldDeleteBranch := false;
                       branchLink := view_branch_link owner repo branch |}
             else
               lift (console_log
                       (js "Branch " ++ branch
                        ++ js " has no commits from Claude, will delete it"));;
               mret {| shouldDeleteBranch := true; branchLink := [] |}
           else
             (* Branch has commits, always add branch link *)
             mret {| shouldDeleteBranch := false;
                     branchLink := view_branch_link owner repo branch |})
          (fun error =>
             console_error [LogStr (js "Error checking for commits on Claude branch:");
                            LogErr error];;
             (* If we can't check, assume the branch has commits to be safe *)
             mret {| shouldDeleteBranch := false;
                     branchLink := view_branch_link owner repo branch |})
      else mret {| shouldDeleteBranch := false; branchLink := [] |}
  | None => mret {| shouldDeleteBranch := false; branchLink := [] |}
  end.

(** The three code units the source has before [Deleted empty branch]. *)
Definition deleted_mark : jsstring := [226; 339; 8230].

Definition checkAndDeleteEmptyBranch (octokit : Octokits) (owner repo : jsstring)
    (claudeBranch : option jsstring) (baseBranch : jsstring) : P Cleanup :=
  decision ← inspectBranch octokit owner repo claudeBranch baseBranch;
  (* Delete the branch if it has no commits *)
  (if shouldDeleteBranch decision && is_truthy_opt claudeBranch then
     let branch := default [] claudeBranch in
     ptry
       (prequest (DeleteRef owner repo (js "heads/" ++ branch))
                 (deleteRef octokit owner repo (js "heads/" ++ branch));;
        lift (console_log (deleted_mark ++ js " Deleted empty branch: " ++ branch)))
       (fun deleteError =>
          (* Continue even if deletion fails *)
          console_error [LogStr (js "Failed to delete branch " ++ branch ++ js ":");
                         LogErr deleteError])
   else mret tt);;
  mret decision.

Definition is_delete (e : SysEvent) : bool :=
  match e with DeleteRef _ _ _ => true | _ => false end.

(** The deletions a run requested. *)
Definition deletions {A} (p : P A) : list SysEvent := List.filter is_delete (events p).

End Config.

End Branch.
Import Branch.

(** ** Progress comments *)

Module Progress.

(** [s.split(sep)] for a separator of one code unit. *)
Fixpoint split_on (sep : N) (s : jsstring) : list jsstring :=
  match s with
  | [] => [[]]
  | c :: s' =>
      if c =? sep then [] :: split_on sep s'
      else
        match split_on sep s' with
        | segment :: segments => (c :: segment) :: segments
        | [] => [[c]]
        end
  end.

Fixpoint trimStart (s : jsstring) : jsstring :=
  match s with
  | c :: s' => if isWhiteSpace c then trimStart s' else s
  | [] => []
  end.

(** [String.prototype.trim]. *)
Definition trim (s : jsstring) : jsstring := rev (trimStart (rev (trimStart s))).

Section Client.

(** [updateClaudeComment] on a client made by [createOctokit] for a token;
    neither is among the sources.  The request resolves or rejects; the
    comment id it is given is [parseInt] of the text recorded. *)
Variable updateClaudeComment :
  jsstring -> jsstring -> jsstring -> jsstring -> jsstring -> Result unit.

Definition updateProgressComment (githubToken repository commentId status content
                                    : jsstring) : P unit :=
  let parts := split_on (chr "/") repository in
  let owner := parts !! 0%nat in
  let repo := parts !! 1%nat in
  if negb (is_truthy_opt owner) || negb (is_truthy_opt repo) then
    console_error [LogStr (js "Invalid repository format:"); LogStr repository]
  else
    let owner := default [] owner in
    let repo := default [] repo in
    let body := (if truthy status then status ++ [10; 10] else [])
                ++ (if truthy content then content else []) in
    ptry
      (prequest (UpdateComment owner repo commentId (trim body))
                (updateClaudeComment githubToken owner repo commentId (trim body)))
      (fun error =>
         (* Don't throw here, as this is just progress reporting *)
         console_error [LogStr (js "Failed to update comment:"); LogErr error]).

Definition is_update (e : SysEvent) : bool :=
  match e with UpdateComment _ _ _ _ => true | _ => false end.

Definition updates {A} (p : P A) : list SysEvent := List.filter is_update (events p).

End Client.

End Progress.
Import Progress.

(** ** Sample contexts, from the test suite *)

Module Samples.

Definition no_payload : Payload :=
  {| issue := None; pull_request := None; review := None;
     comment := None; assignee := None |}.

Definition issue_payload (b t : string) : Payload :=
  {| issue := Some {| body := Some (js b); title := Some (js t) |};
     pull_request := None; review := None; comment := None; assignee := None |}.

Definition comment_payload (b : string) : Payload :=
  {| issue := Some {| body := Some (js "Test body"); title := Some (js "Test Issue") |};
     pull_request := None; review := None;
     comment := Some {| comment_body := js b |}; assignee := None |}.

Definition mock_inputs (phrase prompt : string) (bots : list jsstring) : Inputs :=
  {| triggerPhrase := js phrase; assigneeTrigger := []; directPrompt := js prompt;
     allowedBotNames := bots; allowedTools := []; disallowedTools := [];
     customInstructions := [] |}.

Definition mock_context (name action who : string) (p : Payload) (i : Inputs)
  : ParsedGitHubContext :=
  {| runId := js "1234567890"; eventName := js name;
     eventAction := Some (js action);
     repository := {| full_name := js "test-owner/test-repo";
                      owner := js "test-owner"; repo := js "test-repo" |};
     actor := js who; payload := p; entityNumber := 1%Z; isPR := false;
     inputs := i |}.

(** An issue opened with the given trigger phrase, body and title. *)
Definition issue_opened (phrase b t : string) : ParsedGitHubContext :=
  mock_context "issues" "opened" "test-user" (issue_payload b t)
    (mock_inputs phrase "" []).

Definition check_issue (phrase b t : string) : Result TriggerResult :=
  outcome (checkContainsTrigger (issue_opened phrase b t)).

Definition not_triggered : TriggerResult :=
  {| containsTrigger := false; aiProvider := None |}.

(** A direct prompt on an opened issue whose body holds no trigger. *)
Definition direct_prompt_context : ParsedGitHubContext :=
  mock_context "issues" "opened" "test-user"
    (issue_payload "The login page is broken" "Bug")
    (mock_inputs "/claude" "help me with this" []).

(** A comment naming both providers. *)
Definition both_providers_context : ParsedGitHubContext :=
  mock_context "issue_comment" "created" "test-user"
    (comment_payload "@claude and @augment please help")
    (mock_inputs "/claude" "" []).

(** An issue opened with an empty body while the trigger phrase is empty. *)
Definition empty_title_body : Text := {| body := Some []; title := Some (js "Bug") |}.

Definition empty_phrase_context : ParsedGitHubContext :=
  mock_context "issues" "opened" "test-user"
    {| issue := Some empty_title_body; pull_request := None; review := None;
       comment := None; assignee := None |}
    (mock_inputs "" "" []).

(** A user lookup answering with the given account type. *)
Definition mock_octokit (userType permission : string) : Octokit :=
  {| users_getByUsername := fun username =>
       Ok {| user_type := js userType; user_login := username |};
     repos_getCollaboratorPermissionLevel := fun _ _ _ => Ok (js permission) |}.

Definition bot_context (who : string) (bots : list jsstring) : ParsedGitHubContext :=
  mock_context "issue_comment" "created" who (comment_payload "@claude test")
    (mock_inputs "@claude" "" bots).

End Samples.
Import Samples.

(** ** Observations on runs *)

Module Observe.

(** The first block that returns decides; a block that throws ends the
    check. *)
Fixpoint first_outcome (blocks : list (Result (option TriggerResult)))
    (otherwise : Result TriggerResult) : Result TriggerResult :=
  match blocks with
  | [] => otherwise
  | Ok (Some r) :: _ => Ok r
  | Ok None :: blocks' => first_outcome blocks' otherwise
  | Throw e :: _ => Throw e
  end.

(** The five event names [checkContainsTrigger] has a block for. *)
Definition handled_events : list jsstring :=
  [js "issues"; js "pull_request"; js "pull_request_review";
   js "issue_comment"; js "pull_request_review_comment"].

(** The provider of two texts taken together: ["augment"] if either has
    it, else ["claude"] if either has it. *)
Definition merge_providers (a b : option AIProvider) : option AIProvider :=
  match a, b with
  | Some augment, _ | _, Some augment => Some augment
  | Some claude, _ | _, Some claude => Some claude
  | None, None => None
  end.

(** The action outputs a run set, in order. *)
Definition outputs {A} (m : M A) : list (jsstring * jsstring) :=
  omap (fun e => match e with
                 | CoreSetOutput name value => Some (name, value)
                 | _ => None
                 end) (trace m).

(** The action outputs a process-level run set, in order. *)
Definition outputs_of {A} (p : P A) : list (jsstring * jsstring) :=
  omap (fun e => match e with
                 | Base (CoreSetOutput name value) => Some (name, value)
                 | _ => None
                 end) (events p).

(** The files a run wrote, in order. *)
Definition writes {A} (m : M A) : list (jsstring * JsonValue) :=
  omap (fun e => match e with
                 | WriteFileSync path data => Some (path, data)
                 | _ => None
                 end) (trace m).

(** The files a process-level run asked to write, in order. *)
Definition writes_of {A} (p : P A) : list (jsstring * JsonValue) :=
  omap (fun e => match e with
                 | Base (WriteFileSync path data) => Some (path, data)
                 | _ => None
                 end) (events p).

Definition is_console_log (e : Event) : bool :=
  match e with ConsoleLog _ => true | _ => false end.

(** A run that did nothing but write to the console. *)
Definition logs_only {A} (m : M A) : Prop :=
  forallb is_console_log (trace m) = true.

Definition is_set_failed (e : SysEvent) : bool :=
  match e with CoreSetFailed _ => true | _ => false end.

(** The last member of an object with the given key. *)
Fixpoint lookup_last (members : list (jsstring * JsonValue)) (key : jsstring)
  : option JsonValue :=
  match members with
  | [] => None
  | (k, v) :: members' =>
      match lookup_last members' key with
      | Some v' => Some v'
      | None => if str_eqb k key then Some v else None
      end
  end.

(** A member of a JSON object read as a string. *)
Definition field (v : JsonValue) (key : jsstring) : option JsonValue :=
  match v with
  | JArray [JObject members] => lookup_last members key
  | _ => None
  end.

End Observe.
Import Observe.

(** ** Further samples *)

Module MoreSamples.

(** An issue event with the given action, assignee trigger and assignee. *)
Definition assigned_context (action trigger who b : string) : ParsedGitHubContext :=
  mock_context "issues" action "admin"
    {| issue := Some {| body := Some (js b); title := Some (js "Test Issue") |};
       pull_request := None; review := None; comment := None;
       assignee := Some {| login := js who |} |}
    {| triggerPhrase := js "@claude"; assigneeTrigger := js trigger;
       directPrompt := []; allowedBotNames := []; allowedTools := [];
       disallowedTools := []; customInstructions := [] |}.

Definition pr_text (b t : string) : Text :=
  {| body := Some (js b); title := Some (js t) |}.

(** A pull request event with the given action, body and title. *)
Definition pr_context (action phrase b t : string) : ParsedGitHubContext :=
  mock_context "pull_request" action "test-user"
    {| issue := None; pull_request := Some (pr_text b t); review := None;
       comment := None; assignee := None |}
    (mock_inputs phrase "" []).

(** A push event: none of the handled ones, and no payload member. *)
Definition push_context : ParsedGitHubContext :=
  mock_context "push" "created" "test-user" no_payload (mock_inputs "@claude" "" []).

(** A system where every process exits with [status] and every file is
    present or absent as [present] says; every spawn call is accepted and
    every write succeeds. *)
Definition mock_sys (status : option Z) (present : bool) : Sys :=
  {| spawnSync_check := fun _ _ _ _ => Ok tt;
     spawn_status := fun _ _ _ _ => status;
     existsSync := fun _ => present;
     writeFileSync := fun _ _ => Ok tt;
     now_ISOString := js "2025-01-01T00:00:00.000Z";
     process_cwd := js "/work";
     path_join := fun d f => d ++ js "/" ++ f |}.

Definition has_nul (s : jsstring) : bool := existsb (N.eqb 0) s.

(** A system whose spawn call refuses an environment with a NUL in a key
    or in a string value, where only the prompt file exists, and where a
    file can be written only if [writable]. *)
Definition strict_sys (status : option Z) (writable : bool) : Sys :=
  {| spawnSync_check := fun _ _ env _ =>
       if existsb (fun kv => has_nul kv.1
                             || match kv.2 with
                                | JString v => has_nul v
                                | _ => false
                                end) (map_to_list env)
       then Throw (TypeError (js "must be a string without null bytes"))
       else Ok tt;
     spawn_status := fun _ _ _ _ => status;
     existsSync := fun path => str_eqb path (js "/tmp/prompt.txt");
     writeFileSync := fun _ _ =>
       if writable then Ok tt
       else Throw (Error (js "ENOENT: no such file or directory"));
     now_ISOString := js "2025-01-01T00:00:00.000Z";
     process_cwd := js "/work";
     path_join := fun d f => d ++ js "/" ++ f |}.

Definition prompt_env : gmap jsstring jsstring :=
  {[ js "PROMPT_FILE" := js "/tmp/prompt.txt" ]}.

(** [AI_ENV] holding the object with the one member [A], a string that is
    the escape of a NUL. *)
Definition nul_env : gmap jsstring jsstring :=
  {[ js "PROMPT_FILE" := js "/tmp/prompt.txt";
     js "AI_ENV" := js "{" ++ [quote] ++ js "A" ++ [quote] ++ js ":"
                    ++ [quote] ++ js "\u0000" ++ [quote] ++ js "}" ]}.

(** [RUNNER_TEMP] naming a directory that is not there. *)
Definition missing_tmp_env : gmap jsstring jsstring :=
  {[ js "PROMPT_FILE" := js "/tmp/prompt.txt"; js "RUNNER_TEMP" := js "/missing" ]}.

(** [AI_ENV] holding the object with the one member
    [ANTHROPIC_API_KEY : other]. *)
Definition override_members : list (jsstring * JsonValue) :=
  [(js "ANTHROPIC_API_KEY", JString (js "other"))].

Definition override_env : gmap jsstring jsstring :=
  {[ js "API_KEY" := js "secret";
     js "AI_ENV" := js "{" ++ [quote] ++ js "ANTHROPIC_API_KEY" ++ [quote] ++ js ":"
                    ++ [quote] ++ js "other" ++ [quote] ++ js "}" ]}.

Definition empty_config : CliToolConfig :=
  {| command := []; installCommand := None; args := []; envSetup := None |}.

(** The configuration an identifier resolves to. *)
Definition resolved (process_env : gmap jsstring jsstring) (cliTool : string)
  : CliToolConfig :=
  match getCliToolConfig process_env (js cliTool) with
  | Ok config => config
  | Throw _ => empty_config
  end.

(** Endpoints answering the comparison with [commits] and accepting the
    deletion. *)
Definition mock_octokits (commits : Z) : Octokits :=
  {| compareCommitsWithBasehead := fun _ _ _ => Ok commits;
     deleteRef := fun _ _ _ => Ok tt |}.

End MoreSamples.
Import MoreSamples.

(** * Properties *)

(** ** The matcher *)

Lemma str_eqb_eq (a b : jsstring) : str_eqb a b = true <-> a = b.
Proof.
  revert b; induction a as [|x a IH]; intros [|y b]; simpl; try easy.
  rewrite andb_true_iff, N.eqb_eq, IH. split.
  - intros [-> ->]; reflexivity.
  - intros [= -> ->]; auto.
Qed.

Lemma includes_In (l : list jsstring) (x : jsstring) :
  includes l x = true <-> In x l.
Proof.
  induction l as [|y l IH]; simpl; [easy|].
  rewrite orb_true_iff, str_eqb_eq, IH. tauto.
Qed.

Lemma starts_with_app (s t : jsstring) :
  starts_with s t = true <-> exists rest, t = s ++ rest.
Proof.
  revert t; induction s as [|x s IH]; intros t; simpl.
  - split; [eexists; reflexivity | reflexivity].
  - destruct t as [|y t].
    + split; [easy | intros [rest H]; discriminate].
    + rewrite andb_true_iff, N.eqb_eq, IH. split.
      * intros [-> [rest ->]]. exists rest; reflexivity.
      * intros [rest [= -> ->]]. split; [reflexivity | eexists; reflexivity].
Qed.

Lemma positions_spec (x : pos) (b a : jsstring) :
  In x (positions b a) <->
  exists mid rest, a = mid ++ rest /\ x = Pos (rev mid ++ b) rest.
Proof.
  revert b; induction a as [|c a IH]; intros b; simpl.
  - split.
    + intros [<- | []]. exists [], []; auto.
    + intros (mid & rest & H & ->). left.
      symmetry in H. apply app_eq_nil in H as [-> ->]. reflexivity.
  - rewrite IH. split.
    + intros [<- | (mid & rest & -> & ->)].
      * exists [], (c :: a); auto.
      * exists (c :: mid), rest. simpl. rewrite <- app_assoc. auto.
    + intros (mid & rest & H & ->). destruct mid as [|d mid]; simpl in *.
      * left. subst rest. reflexivity.
      * right. injection H as -> ->. exists mid, rest.
        rewrite <- app_assoc. auto.
Qed.

Lemma matches_at_spec (r : regex) (x : pos) :
  matches_at r x = true <-> exists y, In y (ends r x).
Proof.
  unfold matches_at. destruct (ends r x) as [|y l].
  - split; [easy | intros [y []]].
  - split; [exists y; left; reflexivity | reflexivity].
Qed.

(** [test] succeeds exactly when the regex matches from some split of the
    subject. *)
Lemma test_spec (r : regex) (t : jsstring) :
  test r t = true <->
  exists pre post y, t = pre ++ post /\ In y (ends r (Pos (rev pre) post)).
Proof.
  unfold test. rewrite existsb_exists. split.
  - intros (x & Hx & Hm). apply positions_spec in Hx as (mid & rest & -> & ->).
    apply matches_at_spec in Hm as [y Hy]. rewrite app_nil_r in Hy. eauto.
  - intros (pre & post & y & -> & Hy). exists (Pos (rev pre) post). split.
    + apply positions_spec. exists pre, post. rewrite app_nil_r. auto.
    + apply matches_at_spec. eauto.
Qed.

Lemma flat_map_flat_map {A B C} (f : A -> list B) (g : B -> list C) (l : list A) :
  flat_map g (flat_map f l) = flat_map (fun a => flat_map g (f a)) l.
Proof.
  induction l as [|a l IH]; simpl; [reflexivity|].
  rewrite flat_map_app, IH. reflexivity.
Qed.

Lemma ends_mk_seq_app (l1 l2 : list regex) (x : pos) :
  ends (mk_seq (l1 ++ l2)) x = flat_map (ends (mk_seq l2)) (ends (mk_seq l1) x).
Proof.
  revert x; induction l1 as [|r l1 IH]; intros x; simpl.
  - rewrite app_nil_r. reflexivity.
  - rewrite flat_map_flat_map. apply flat_map_ext. intros y. apply IH.
Qed.

(** A run of literal characters matches exactly itself. *)
Lemma ends_literal (L : jsstring) (x : pos) :
  ends (mk_seq (List.map RChar L)) x =
  if starts_with L (after x)
  then [Pos (rev L ++ before x) (drop (length L) (after x))] else [].
Proof.
  revert x; induction L as [|c L IH]; intros [b a]; simpl.
  - reflexivity.
  - unfold eat; simpl. destruct a as [|d a]; simpl; [reflexivity|].
    destruct (N.eqb_spec c d) as [->|Hne]; simpl.
    + rewrite app_nil_r, IH. simpl. rewrite <- app_assoc. reflexivity.
    + reflexivity.
Qed.

(** ** The boundary patterns *)

Lemma augmentRegex_shape : augmentRegex = boundary_regex (js "@augment").
Proof. reflexivity. Qed.

Lemma claudeRegex_shape : claudeRegex = boundary_regex (js "@claude").
Proof. reflexivity. Qed.

Lemma in_wordStart (z : pos) (b a : jsstring) :
  In z (ends wordStart (Pos b a)) <->
  (b = [] /\ z = Pos [] a)
  \/ (exists c rest, a = c :: rest /\ isWhiteSpace c = true /\ z = Pos (c :: b) rest).
Proof.
  simpl. unfold eat; simpl. rewrite in_app_iff. split.
  - intros [H | H].
    + destruct b; simpl in H; [|easy]. destruct H as [<- | []]. left; auto.
    + destruct a as [|c rest]; simpl in H; [easy|].
      unfold class_matches in H; simpl in H. rewrite orb_false_r in H.
      destruct (isWhiteSpace c) eqn:E; simpl in H; [|easy].
      destruct H as [<- | []]. right. eauto.
  - intros [[-> ->] | (c & rest & -> & Hc & ->)].
    + left. simpl. auto.
    + right. simpl. unfold class_matches; simpl. rewrite orb_false_r, Hc.
      simpl. auto.
Qed.

Lemma wordEnd_class (c : N) :
  class_matches false [CSpace; CChar 46; CChar 44; CChar 33;
                       CChar 63; CChar 59; CChar 58] c = isFollow c.
Proof.
  unfold class_matches, isFollow, is_chr; simpl.
  rewrite orb_false_r, !orb_assoc. reflexivity.
Qed.

Lemma ends_wordEnd (b a : jsstring) :
  ends (mk_seq [wordEnd]) (Pos b a) =
  match a with
  | [] => [Pos b a]
  | c :: rest => if isFollow c then [Pos (c :: b) rest] else []
  end.
Proof.
  unfold wordEnd. cbn [mk_seq fold_right ends]. unfold eat. cbn [after before].
  destruct a as [|c rest].
  - reflexivity.
  - rewrite wordEnd_class. destruct (isFollow c); reflexivity.
Qed.

Lemma in_wordEnd (b a : jsstring) :
  (exists y, In y (ends (mk_seq [wordEnd]) (Pos b a))) <-> boundary_after isFollow a.
Proof.
  rewrite ends_wordEnd. unfold boundary_after. destruct a as [|c rest].
  - split; [auto | intros _; eexists; left; reflexivity].
  - split.
    + intros [y Hy]. right. destruct (isFollow c) eqn:E; [eauto | destruct Hy].
    + intros [H | (c' & post' & [= <- <-] & Hc)]; [discriminate|].
      rewrite Hc. eexists; left; reflexivity.
Qed.

(** A boundary pattern finds its literal exactly where it stands alone. *)
Lemma test_boundary_regex (L t : jsstring) :
  test (boundary_regex L) t = true <-> standalone L t.
Proof.
  rewrite test_spec. unfold standalone, standalone_with, boundary_regex.
  split.
  - intros (pre & post & y & -> & Hy).
    change (mk_seq (wordStart :: List.map RChar L ++ [wordEnd]))
      with (RSeq wordStart (mk_seq (List.map RChar L ++ [wordEnd]))) in Hy.
    cbn [ends] in Hy. apply in_flat_map in Hy as (z & Hz & Hy).
    rewrite ends_mk_seq_app, ends_literal in Hy.
    assert (Hlit : forall b a, z = Pos b a ->
              exists rest, a = L ++ rest /\ boundary_after isFollow rest).
    { intros b a ->. cbn [after before] in Hy.
      destruct (starts_with L a) eqn:E; [|destruct Hy].
      apply starts_with_app in E as [rest ->]. exists rest. split; [reflexivity|].
      cbn [flat_map] in Hy. rewrite app_nil_r, drop_app_length in Hy.
      apply (in_wordEnd (rev L ++ b) rest). exists y. exact Hy. }
    apply in_wordStart in Hz as [[Hb Hz] | (c & rest & Hpost & Hc & Hz)].
    + destruct (Hlit _ _ Hz) as (rest & Hpost & Hafter).
      assert (pre = []) as -> by (apply (f_equal (@rev _)) in Hb;
        rewrite rev_involutive in Hb; exact Hb).
      exists [], rest. rewrite Hpost.
      repeat split; [left; reflexivity | exact Hafter].
    + destruct (Hlit _ _ Hz) as (rest' & Hrest & Hafter).
      exists (pre ++ [c]), rest'. rewrite Hpost, Hrest, <- app_assoc. repeat split.
      * right. eauto.
      * exact Hafter.
  - intros (pre & post & -> & Hbefore & Hafter).
    assert (Hrun : forall b, exists y,
              In y (ends (mk_seq (List.map RChar L ++ [wordEnd])) (Pos b (L ++ post)))).
    { intros b. destruct (proj2 (in_wordEnd (rev L ++ b) post) Hafter) as [y Hy].
      exists y. rewrite ends_mk_seq_app, ends_literal. cbn [after before].
      replace (starts_with L (L ++ post)) with true
        by (symmetry; apply starts_with_app; eauto).
      rewrite drop_app_length. cbn [flat_map]. rewrite app_nil_r. exact Hy. }
    destruct Hbefore as [-> | (pre' & c & -> & Hc)].
    + destruct (Hrun []) as [y Hy]. exists [], (L ++ post), y. split; [reflexivity|].
      change (mk_seq (wordStart :: List.map RChar L ++ [wordEnd]))
        with (RSeq wordStart (mk_seq (List.map RChar L ++ [wordEnd]))).
      cbn [ends]. apply in_flat_map. exists (Pos [] (L ++ post)). split; [|exact Hy].
      apply in_wordStart. left. auto.
    + destruct (Hrun (c :: rev pre')) as [y Hy].
      exists pre', (c :: L ++ post), y. split; [rewrite <- app_assoc; reflexivity|].
      change (mk_seq (wordStart :: List.map RChar L ++ [wordEnd]))
        with (RSeq wordStart (mk_seq (List.map RChar L ++ [wordEnd]))).
      cbn [ends]. apply in_flat_map. exists (Pos (c :: rev pre') (L ++ post)).
      split; [|exact Hy]. apply in_wordStart. right. eauto.
Qed.

(** ** Compiling an escaped pattern *)

Lemma escapeClass_matches (c : N) :
  matches_at escapeClass (Pos [] [c]) = isSyntaxCharacter c.
Proof.
  change escapeClass with
    (RSeq (RClass false [CChar 46; CChar 42; CChar 43; CChar 63; CChar 94;
                         CChar 36; CChar 123; CChar 125; CChar 40; CChar 41;
                         CChar 124; CChar 91; CChar 93; CChar 92]) REmpty).
  unfold matches_at. cbn [ends]. unfold eat. cbn [after before].
  replace (class_matches false _ c) with (isSyntaxCharacter c).
  - destruct (isSyntaxCharacter c); reflexivity.
  - unfold class_matches, isSyntaxCharacter, is_chr; simpl.
    rewrite orb_false_r, !orb_assoc. reflexivity.
Qed.

Lemma isSyntaxCharacter_cases (c : N) :
  isSyntaxCharacter c = true ->
  In c [46; 42; 43; 63; 94; 36; 123; 125; 40; 41; 124; 91; 93; 92].
Proof.
  unfold isSyntaxCharacter, is_chr. rewrite !orb_true_iff, !N.eqb_eq. simpl.
  intuition auto.
Qed.

(** A syntax character behind a backslash is read as itself. *)
Lemma step_escaped (st : pstate) (c : N) :
  p_mode st = PNormal -> isSyntaxCharacter c = true ->
  step_opt (step st 92) c = Some (push_atom (RChar c) LAtom st).
Proof.
  intros Hm Hc. destruct st as [m stack top last]. simpl in Hm. subst m.
  apply isSyntaxCharacter_cases in Hc. simpl in Hc.
  repeat (destruct Hc as [<- | Hc]; [reflexivity|]). destruct Hc.
Qed.

(** Any other character is read as itself. *)
Lemma step_plain (st : pstate) (c : N) :
  p_mode st = PNormal -> isSyntaxCharacter c = false ->
  step st c = Some (push_atom (RChar c) LAtom st).
Proof.
  intros Hm Hc. unfold step. rewrite Hm. unfold step_normal.
  unfold isSyntaxCharacter in Hc. rewrite !orb_false_iff in Hc.
  destruct Hc as (((((((((((((H1 & H2) & H3) & H4) & H5) & H6) & H7) & H8)
                         & H9) & H10) & H11) & H12) & H13) & H14).
  rewrite H1, H2, H3, H4, H5, H6, H7, H8, H9, H10, H11, H12, H13, H14.
  reflexivity.
Qed.

Lemma read_escapeRegExp (s rest : jsstring) (st : pstate) :
  p_mode st = PNormal ->
  fold_left step_opt (escapeRegExp s ++ rest) (Some st) =
  fold_left step_opt rest (Some (push_literal s st)).
Proof.
  revert st; induction s as [|c s IH]; intros st Hm.
  - destruct st as [m stack [alts cur] last]. simpl in Hm. subst m. reflexivity.
  - unfold escapeRegExp. cbn [flat_map]. fold (escapeRegExp s).
    rewrite escapeClass_matches.
    assert (Hnext : forall st', st' = push_atom (RChar c) LAtom st ->
              fold_left step_opt (escapeRegExp s ++ rest) (Some st') =
              fold_left step_opt rest (Some (push_literal (c :: s) st))).
    { intros st' ->. rewrite IH by reflexivity. f_equal. f_equal.
      unfold push_literal, push_atom. cbn [p_stack p_top f_alts f_cur p_last].
      f_equal.
      - f_equal. cbn [List.map rev]. rewrite <- app_assoc. reflexivity.
      - destruct s; reflexivity. }
    destruct (isSyntaxCharacter c) eqn:E.
    + rewrite <- app_assoc. cbn [js List.map list_ascii_of_string app fold_left].
      change (N_of_ascii "\"%char) with 92.
      cbn [step_opt]. rewrite (step_escaped st c Hm E). apply Hnext. reflexivity.
    + cbn [app fold_left step_opt]. rewrite (step_plain st c Hm E).
      apply Hnext. reflexivity.
Qed.

Lemma RegExp_escapeRegExp (s : jsstring) :
  RegExp (escapeRegExp s) = Some (mk_seq (List.map RChar s)).
Proof.
  unfold RegExp. rewrite <- (app_nil_r (escapeRegExp s)).
  rewrite read_escapeRegExp by reflexivity. cbn [fold_left].
  unfold push_literal, start, finish, close_frame.
  cbn [p_stack p_top f_alts f_cur]. rewrite app_nil_r, rev_involutive.
  reflexivity.
Qed.

Lemma read_wordEnd (stack : list frame) (alts cur : list regex) (last : last_kind) :
  fold_left step_opt (js "([\s.,!?;:]|$)")
            (Some (PState PNormal stack (Frame alts cur) last)) =
  Some (PState PNormal stack (Frame alts (wordEnd :: cur)) LAtom).
Proof. reflexivity. Qed.

Lemma RegExp_triggerPattern (phrase : jsstring) :
  RegExp (triggerPattern phrase) = Some (boundary_regex phrase).
Proof.
  unfold RegExp, triggerPattern. rewrite fold_left_app.
  change (fold_left step_opt (js "(^|\s)") (Some start))
    with (Some (PState PNormal [] (Frame [] [wordStart]) LAtom)).
  rewrite read_escapeRegExp by reflexivity.
  unfold push_literal. cbn [p_stack p_top f_alts f_cur p_last].
  rewrite read_wordEnd. unfold finish, boundary_regex, close_frame.
  cbn [f_cur f_alts rev app mk_alt].
  rewrite rev_app_distr, rev_involutive. reflexivity.
Qed.

(** ** Provider detection *)

Lemma test_literal (s t : jsstring) :
  test (mk_seq (List.map RChar s)) t = true <-> substring_of s t.
Proof.
  rewrite test_spec. unfold substring_of. split.
  - intros (pre & post & y & -> & Hy). rewrite ends_literal in Hy.
    cbn [after] in Hy. destruct (starts_with s post) eqn:E; [|destruct Hy].
    apply starts_with_app in E as [rest ->]. eauto.
  - intros (pre & post & ->). exists pre, (s ++ post). eexists. split; [reflexivity|].
    rewrite ends_literal. cbn [after].
    replace (starts_with s (s ++ post)) with true
      by (symmetry; apply starts_with_app; eauto).
    left. reflexivity.
Qed.

Lemma isFollowSpace_isFollow (c : N) : isFollowSpace c = true -> isFollow c = true.
Proof.
  unfold isFollowSpace, isFollow. rewrite !orb_true_iff.
  intros [[[[[[H|H]|H]|H]|H]|H]|H]; auto 10.
  unfold is_chr in H. apply N.eqb_eq in H. subst c. auto 10.
Qed.

(** A token in the narrower reading of the rule is one in the wider. *)
Lemma standalone_space_standalone (tok t : jsstring) :
  standalone_with isFollowSpace tok t -> standalone tok t.
Proof.
  intros (pre & post & -> & Hb & Ha). exists pre, post. repeat split; [exact Hb|].
  destruct Ha as [-> | (c & post' & -> & Hc)]; [left; reflexivity|].
  right. exists c, post'. split; [reflexivity|]. apply isFollowSpace_isFollow, Hc.
Qed.

Lemma boundary_before_dec (pre : jsstring) :
  boundary_before pre \/ exists pre' c, pre = pre' ++ [c] /\ isWhiteSpace c = false.
Proof.
  destruct pre as [|a l] using rev_ind; [left; left; reflexivity|].
  destruct (isWhiteSpace a) eqn:E.
  - left. right. eauto.
  - right. eauto.
Qed.

Lemma boundary_after_dec (post : jsstring) :
  boundary_after isFollow post
  \/ exists c post', post = c :: post' /\ isFollow c = false.
Proof.
  destruct post as [|c post']; [left; left; reflexivity|].
  destruct (isFollow c) eqn:E.
  - left. right. eauto.
  - right. eauto.
Qed.

(** Being embedded wherever it occurs is the same as never standing alone. *)
Lemma embedded_only_spec (tok t : jsstring) :
  embedded_only tok t <-> ~ standalone tok t.
Proof.
  split.
  - intros Hemb (pre & post & Ht & Hb & Ha).
    destruct (Hemb pre post Ht) as [(pre' & c & -> & Hc) | (c & post' & -> & Hc)].
    + destruct Hb as [Hb | (pre'' & c' & Hb & Hc')].
      * destruct pre'; discriminate.
      * apply app_inj_tail in Hb as [_ ->]. congruence.
    + destruct Ha as [Ha | (c' & post'' & [= <- <-] & Hc')]; congruence.
  - intros Hns pre post Ht.
    destruct (boundary_before_dec pre) as [Hb | Hb]; [|left; exact Hb].
    destruct (boundary_after_dec post) as [Ha | Ha]; [|right; exact Ha].
    exfalso. apply Hns. exists pre, post. auto.
Qed.

Lemma test_augmentRegex (t : jsstring) :
  test augmentRegex t = true <-> standalone (js "@augment") t.
Proof. rewrite augmentRegex_shape. apply test_boundary_regex. Qed.

Lemma test_claudeRegex (t : jsstring) :
  test claudeRegex t = true <-> standalone (js "@claude") t.
Proof. rewrite claudeRegex_shape. apply test_boundary_regex. Qed.

(** C1, as the claim states it, fails: a text holding [@claude] as a token
    of its own, followed by a space, for which [detectAIProvider] does not
    answer ["claude"], because [@augment] stands in it too. *)
Lemma detectAIProvider_claude_token_counterexample :
  standalone_with isFollowSpace (js "@claude") (js "@claude and @augment help")
  /\ detectAIProvider (js "@claude and @augment help") = Some augment
  /\ detectAIProvider (js "@claude and @augment help") <> Some claude.
Proof.
  split; [|split; [vm_compute; reflexivity | vm_compute; discriminate]].
  exists [], (js " and @augment help"). split; [reflexivity|].
  split; [left; reflexivity|]. right. eexists _, _. split; reflexivity.
Qed.

(** C1, amended: [detectAIProvider] answers ["augment"] exactly when
    [@augment] stands in the text as a token of its own (preceded by the
    start of the text or white space, followed by its end, white space or
    one of [. , ! ? ; :]); it answers ["claude"] exactly when [@claude]
    stands so and [@augment] does not; and it answers [null] exactly when
    each of the two tokens is embedded in a larger word wherever it occurs. *)
Theorem detectAIProvider_tokens (t : jsstring) :
  (detectAIProvider t = Some augment <-> standalone (js "@augment") t)
  /\ (detectAIProvider t = Some claude <->
      standalone (js "@claude") t /\ ~ standalone (js "@augment") t)
  /\ (detectAIProvider t = None <->
      embedded_only (js "@claude") t /\ embedded_only (js "@augment") t).
Proof.
  rewrite !embedded_only_spec. unfold detectAIProvider.
  rewrite <- test_augmentRegex, <- test_claudeRegex.
  destruct (test augmentRegex t), (test claudeRegex t);
    repeat split; try congruence; try tauto.
  all: intros [? ?]; congruence.
Qed.

(** C2, as the claim states it, fails: both [@claude] and [@augment] occur
    in the text, but [@augment] only inside a larger word, and
    [detectAIProvider] answers ["claude"]. *)
Lemma detectAIProvider_embedded_augment_counterexample :
  substring_of (js "@claude") (js "@claude and email@augment.com")
  /\ substring_of (js "@augment") (js "@claude and email@augment.com")
  /\ detectAIProvider (js "@claude and email@augment.com") = Some claude
  /\ detectAIProvider (js "@claude and email@augment.com") <> Some augment.
Proof.
  split; [|split; [|split; [vm_compute; reflexivity | vm_compute; discriminate]]].
  - exists [], (js " and email@augment.com"). reflexivity.
  - exists (js "@claude and email"), (js ".com"). reflexivity.
Qed.

(** C2, amended: whenever [@claude] occurs anywhere in a text and
    [@augment] stands in it as a token of its own, [detectAIProvider]
    answers ["augment"], whichever comes first and wherever each is. *)
Theorem detectAIProvider_augment_wins (t : jsstring) :
  substring_of (js "@claude") t -> standalone (js "@augment") t ->
  detectAIProvider t = Some augment.
Proof.
  intros _ Ha. apply test_augmentRegex in Ha.
  unfold detectAIProvider. rewrite Ha. reflexivity.
Qed.

Lemma detectAIProvider_augment_wins_witness :
  detectAIProvider (js "@claude and @augment please help") = Some augment
  /\ detectAIProvider (js "@augment or @claude help") = Some augment.
Proof.
  split.
  - apply detectAIProvider_augment_wins.
    + exists [], (js " and @augment please help"). reflexivity.
    + exists (js "@claude and "), (js " please help").
      split; [reflexivity|]. split.
      * right. exists (js "@claude and"), 32. split; reflexivity.
      * right. eexists _, _. split; reflexivity.
  - apply detectAIProvider_augment_wins.
    + exists (js "@augment or "), (js " help"). reflexivity.
    + exists [], (js " or @claude help").
      split; [reflexivity|]. split; [left; reflexivity|].
      right. eexists _, _. split; reflexivity.
Defined.

(** C6: the regex built from [escapeRegExp(s)] compiles, and it matches a
    text exactly when the text contains [s] itself as a substring. *)
Theorem escapeRegExp_matches_literally (s : jsstring) :
  exists r, RegExp (escapeRegExp s) = Some r
            /\ forall t, test r t = true <-> substring_of s t.
Proof.
  exists (mk_seq (List.map RChar s)). split.
  - apply RegExp_escapeRegExp.
  - apply test_literal.
Qed.

(** ** Computations *)

Lemma outcome_bind {A B} (m : M A) (f : A -> M B) :
  outcome (m ≫= f) =
  match outcome m with
  | Ok a => outcome (f a)
  | Throw e => Throw e
  end.
Proof.
  unfold mbind, M_bind, bind. destruct (outcome m); reflexivity.
Qed.

Lemma new_RegExp_triggerPattern (phrase : jsstring) :
  new_RegExp (triggerPattern phrase) = mret (boundary_regex phrase).
Proof. unfold new_RegExp. rewrite RegExp_triggerPattern. reflexivity. Qed.

Lemma scanBodyTitle_outcome (What phrase : jsstring) (t : Text) :
  outcome (scanBodyTitle What phrase t) =
  Ok (match first_provider (detectAIProvider (opt_or (body t) []))
                           (detectAIProvider (opt_or (title t) [])) with
      | Some p => Some (triggered p)
      | None =>
          if test (boundary_regex phrase) (opt_or (body t) [])
             || test (boundary_regex phrase) (opt_or (title t) [])
          then Some (triggered claude) else None
      end).
Proof.
  unfold scanBodyTitle. rewrite new_RegExp_triggerPattern.
  destruct (first_provider _ _); [reflexivity|].
  rewrite outcome_bind. cbn [outcome mret M_ret ret].
  destruct (test _ (opt_or (body t) [])); [reflexivity|].
  destruct (test _ (opt_or (title t) [])); reflexivity.
Qed.

Lemma scanText_outcome (What phrase text : jsstring) :
  outcome (scanText What phrase text) =
  Ok (match detectAIProvider text with
      | Some p => Some (triggered p)
      | None =>
          if test (boundary_regex phrase) text
          then Some (triggered claude) else None
      end).
Proof.
  unfold scanText. rewrite new_RegExp_triggerPattern.
  destruct (detectAIProvider text); [reflexivity|].
  rewrite outcome_bind. cbn [outcome mret M_ret ret].
  destruct (test _ text); reflexivity.
Qed.

Lemma member_outcome {A} (o : option A) :
  outcome (member o) = match o with Some a => Ok a | None => Throw (TypeError []) end.
Proof. destruct o; reflexivity. Qed.

Ltac block_cases :=
  repeat match goal with
         | |- context [match ?x with _ => _ end] => destruct x eqn:?
         | H : context [match ?x with _ => _ end] |- _ => destruct x eqn:?
         end.

Lemma assigneeBlock_returns (c : ParsedGitHubContext) :
  returns_triggered (assigneeBlock c) /\ does_not_throw (assigneeBlock c).
Proof.
  unfold returns_triggered, does_not_throw, assigneeBlock. split.
  - intros r. block_cases; cbn; intros [= <-]; eauto.
  - block_cases; cbn; eauto.
Qed.

Lemma issueBlock_returns (c : ParsedGitHubContext) :
  returns_triggered (issueBlock c)
  /\ (payload_fits c = true -> does_not_throw (issueBlock c)).
Proof.
  unfold returns_triggered, does_not_throw, issueBlock, payload_fits. split.
  - intros r. destruct (_ && _); [|discriminate].
    rewrite outcome_bind, member_outcome. destruct (issue (payload c)); [|discriminate].
    rewrite scanBodyTitle_outcome. block_cases; intros [= <-]; eauto.
  - destruct (isIssuesEvent c && _); [|cbn; eauto].
    rewrite outcome_bind, member_outcome.
    destruct (issue (payload c)) as [i|].
    + rewrite scanBodyTitle_outcome. eauto.
    + cbn. discriminate.
Qed.

Lemma pullRequestBlock_returns (c : ParsedGitHubContext) :
  returns_triggered (pullRequestBlock c)
  /\ (payload_fits c = true -> does_not_throw (pullRequestBlock c)).
Proof.
  unfold returns_triggered, does_not_throw, pullRequestBlock, payload_fits. split.
  - intros r. destruct (isPullRequestEvent c); [|discriminate].
    rewrite outcome_bind, member_outcome.
    destruct (pull_request (payload c)); [|discriminate].
    rewrite scanBodyTitle_outcome. block_cases; intros [= <-]; eauto.
  - destruct (isPullRequestEvent c); [|cbn; eauto].
    rewrite outcome_bind, member_outcome.
    destruct (pull_request (payload c)) as [i|].
    + rewrite scanBodyTitle_outcome. eauto.
    + cbn. rewrite andb_false_r. discriminate.
Qed.

Lemma reviewBlock_returns (c : ParsedGitHubContext) :
  returns_triggered (reviewBlock c)
  /\ (payload_fits c = true -> does_not_throw (reviewBlock c)).
Proof.
  unfold returns_triggered, does_not_throw, reviewBlock, payload_fits. split.
  - intros r. destruct (_ && _); [|discriminate].
    rewrite outcome_bind, member_outcome. destruct (review (payload c)); [|discriminate].
    rewrite scanText_outcome. block_cases; intros [= <-]; eauto.
  - destruct (isPullRequestReviewEvent c && _); [|cbn; eauto].
    rewrite outcome_bind, member_outcome.
    destruct (review (payload c)) as [i|].
    + rewrite scanText_outcome. eauto.
    + cbn. rewrite andb_false_r. discriminate.
Qed.

Lemma commentBlock_returns (c : ParsedGitHubContext) :
  returns_triggered (commentBlock c)
  /\ (payload_fits c = true -> does_not_throw (commentBlock c)).
Proof.
  unfold returns_triggered, does_not_throw, commentBlock, payload_fits. split.
  - intros r. destruct (_ || _); [|discriminate].
    rewrite outcome_bind, member_outcome. destruct (comment (payload c)); [|discriminate].
    rewrite scanText_outcome. block_cases; intros [= <-]; eauto.
  - destruct (isIssueCommentEvent c || _); [|cbn; eauto].
    rewrite outcome_bind, member_outcome.
    destruct (comment (payload c)) as [i|].
    + rewrite scanText_outcome. eauto.
    + cbn. rewrite andb_false_r. discriminate.
Qed.

Lemma triggered_invariant (p : AIProvider) : provider_iff_trigger (triggered p).
Proof. split; [eauto | reflexivity]. Qed.

Lemma first_return_invariant (blocks : list (M (option TriggerResult)))
    (otherwise : M TriggerResult) :
  Forall returns_triggered blocks ->
  (forall r, outcome otherwise = Ok r -> provider_iff_trigger r) ->
  forall r, outcome (first_return blocks otherwise) = Ok r -> provider_iff_trigger r.
Proof.
  intros Hb Ho. induction Hb as [|b blocks Hb _ IH]; cbn [first_return]; [exact Ho|].
  intros r. rewrite outcome_bind. destruct (outcome b) as [[res|]|e] eqn:E.
  - cbn. intros [= <-]. destruct (Hb res E) as [p ->]. apply triggered_invariant.
  - apply IH.
  - discriminate.
Qed.

Lemma first_return_total (blocks : list (M (option TriggerResult)))
    (otherwise : M TriggerResult) :
  Forall does_not_throw blocks -> does_not_throw otherwise ->
  does_not_throw (first_return blocks otherwise).
Proof.
  intros Hb Ho. induction Hb as [|b blocks [a Ha] _ IH]; cbn [first_return]; [exact Ho|].
  unfold does_not_throw. rewrite outcome_bind, Ha. destruct a as [res|].
  - cbn. eauto.
  - exact IH.
Qed.

(** C5: with a non-empty direct prompt the check returns
    [{containsTrigger: true, aiProvider: "claude"}], whatever the event,
    the assignee, the trigger phrase and the texts are. *)
Theorem checkContainsTrigger_direct_prompt (context : ParsedGitHubContext) :
  directPrompt (inputs context) <> [] ->
  outcome (checkContainsTrigger context) =
  Ok {| containsTrigger := true; aiProvider := Some claude |}.
Proof.
  intros H. unfold checkContainsTrigger.
  destruct (directPrompt (inputs context)); [congruence | reflexivity].
Qed.

(** C9: every result [checkContainsTrigger] returns has a provider exactly
    when it has the trigger; and the check does return a result for every
    context whose payload carries the members its event promises. *)
Theorem checkContainsTrigger_provider_iff_trigger (context : ParsedGitHubContext) :
  (forall r, outcome (checkContainsTrigger context) = Ok r ->
             (containsTrigger r = true <-> exists p, aiProvider r = Some p))
  /\ (payload_fits context = true ->
      exists r, outcome (checkContainsTrigger context) = Ok r).
Proof.
  unfold checkContainsTrigger. split.
  - destruct (truthy _).
    + intros r [= <-]. apply (triggered_invariant claude).
    + apply first_return_invariant.
      * constructor; [apply assigneeBlock_returns|].
        constructor; [apply issueBlock_returns|].
        constructor; [apply pullRequestBlock_returns|].
        constructor; [apply reviewBlock_returns|].
        constructor; [apply commentBlock_returns|].
        constructor.
      * intros r [= <-]. split; [discriminate | intros [p Hp]; discriminate].
  - intros Hfit. destruct (truthy _); [eexists; reflexivity|].
    apply first_return_total.
    + constructor; [apply assigneeBlock_returns|].
      constructor; [apply issueBlock_returns, Hfit|].
      constructor; [apply pullRequestBlock_returns, Hfit|].
      constructor; [apply reviewBlock_returns, Hfit|].
      constructor; [apply commentBlock_returns, Hfit|].
      constructor.
    + eexists; reflexivity.
Qed.

(** C10: with an empty trigger phrase the fallback regex compiles and
    matches the empty text; so an issue opened with an empty body, no
    direct prompt and no provider mention still triggers, with provider
    ["claude"]. *)
Theorem checkContainsTrigger_empty_phrase (context : ParsedGitHubContext) (i : Text) :
  RegExp_test (triggerPattern []) [] = Some true
  /\ (directPrompt (inputs context) = [] ->
      triggerPhrase (inputs context) = [] ->
      eventName context = js "issues" ->
      eventAction context = Some (js "opened") ->
      issue (payload context) = Some i ->
      opt_or (body i) [] = [] ->
      detectAIProvider (opt_or (title i) []) = None ->
      outcome (checkContainsTrigger context) =
      Ok {| containsTrigger := true; aiProvider := Some claude |}).
Proof.
  split; [reflexivity|].
  intros Hd Hp Hn Ha Hi Hb Ht. unfold checkContainsTrigger. rewrite Hd.
  cbn [truthy first_return]. rewrite outcome_bind.
  destruct (assigneeBlock_returns context) as [_ [a Hasg]].
  assert (a = None) as ->.
  { revert Hasg. unfold assigneeBlock, isIssuesAssignedEvent, isIssuesEvent.
    rewrite Hn, Ha.
    change (str_eqb (js "issues") (js "issues")
            && opt_is (Some (js "opened")) (js "assigned")) with false.
    cbn [outcome mret M_ret ret]. congruence. }
  rewrite Hasg, outcome_bind.
  unfold issueBlock, isIssuesEvent. rewrite Hn, Ha, Hi, Hp.
  change (str_eqb (js "issues") (js "issues") && opt_is (Some (js "opened")) (js "opened"))
    with true. cbn iota.
  rewrite outcome_bind, member_outcome, scanBodyTitle_outcome, Hb, Ht.
  reflexivity.
Qed.

(** ** Actor authorisation *)

Lemma outcome_request {A} (e : Event) (r : Result A) : outcome (request e r) = r.
Proof. reflexivity. Qed.

Lemma includes_false (l : list jsstring) (x : jsstring) :
  includes l x = false <-> ~ In x l.
Proof.
  rewrite <- includes_In. destruct (includes l x); split; congruence.
Qed.

Lemma str_eqb_neq (a b : jsstring) : str_eqb a b = false <-> a <> b.
Proof.
  rewrite <- str_eqb_eq. destruct (str_eqb a b); split; congruence.
Qed.

(** C3: once the account type is known, [checkAllowedActor] succeeds for
    type ["User"], succeeds for type ["Bot"] when the login is in
    [allowedBotNames], and in every other case, type ["Organization"]
    with a listed login included, throws an error whose message names the
    actor, its type and, when the list is not empty, the allowed bots. *)
Theorem checkAllowedActor_decision (octokit : Octokit)
    (context : ParsedGitHubContext) (userData : UserData) :
  users_getByUsername octokit (actor context) = Ok userData ->
  (user_type userData = js "User" ->
   outcome (checkAllowedActor octokit context) = Ok tt)
  /\ (user_type userData = js "Bot" ->
      In (actor context) (allowedBotNames (inputs context)) ->
      outcome (checkAllowedActor octokit context) = Ok tt)
  /\ (user_type userData <> js "User" ->
      ~ (user_type userData = js "Bot"
         /\ In (actor context) (allowedBotNames (inputs context))) ->
      outcome (checkAllowedActor octokit context) =
      Throw (Error
        (js "Workflow initiated by unauthorized actor: " ++ actor context
         ++ js " (type: " ++ user_type userData ++ js "). "
         ++ js "Only human users and whitelisted bots are allowed."
         ++ match allowedBotNames (inputs context) with
            | [] => []
            | _ :: _ => js " Allowed bots: "
                        ++ join (js ", ") (allowedBotNames (inputs context))
            end))).
Proof.
  intros Hapi. unfold checkAllowedActor.
  rewrite outcome_bind, outcome_request, Hapi, outcome_bind.
  cbn [outcome console_log emit]. repeat split.
  - intros Hty. rewrite Hty. reflexivity.
  - intros Hty Hin. rewrite Hty.
    change (str_eqb (js "Bot") (js "User")) with false.
    change (str_eqb (js "Bot") (js "Bot")) with true.
    apply includes_In in Hin. rewrite Hin.
    destruct (allowedBotNames (inputs context)); [discriminate | reflexivity].
  - intros Hu Hb. apply str_eqb_neq in Hu. rewrite Hu.
    replace (str_eqb (user_type userData) (js "Bot")
             && ((0 <? length (allowedBotNames (inputs context)))%nat
                 && includes (allowedBotNames (inputs context)) (actor context)))
      with false.
    + unfold unauthorized_message.
      destruct (allowedBotNames (inputs context)); reflexivity.
    + symmetry. apply not_true_is_false. intros H. apply Hb.
      apply andb_true_iff in H as [H1 H2]. apply andb_true_iff in H2 as [_ H2].
      split; [apply str_eqb_eq, H1 | apply includes_In, H2].
Qed.

(** C4: for an actor in [allowedBotNames], [checkWritePermissions] returns
    [true] and calls no API; otherwise it asks the permission endpoint once,
    returns [true] for ["admin"] and ["write"], [false] for any other
    permission, and throws when the request fails. *)
Theorem checkWritePermissions_decision (octokit : Octokit)
    (context : ParsedGitHubContext) :
  let call := repos_getCollaboratorPermissionLevel octokit
                (owner (repository context)) (repo (repository context))
                (actor context) in
  let check := checkWritePermissions octokit context in
  (In (actor context) (allowedBotNames (inputs context)) ->
   outcome check = Ok true /\ api_calls check = [])
  /\ (~ In (actor context) (allowedBotNames (inputs context)) ->
      (forall permission, call = Ok permission ->
         api_calls check =
           [GetCollaboratorPermissionLevel (owner (repository context))
              (repo (repository context)) (actor context)]
         /\ (permission = js "admin" \/ permission = js "write" ->
             outcome check = Ok true)
         /\ (permission <> js "admin" -> permission <> js "write" ->
             outcome check = Ok false))
      /\ (forall error, call = Throw error ->
            outcome check =
            Throw (Error (js "Failed to check permissions for " ++ actor context
                          ++ js ": " ++ error_toString error)))).
Proof.
  intros call check. subst call check. unfold checkWritePermissions. split.
  - intros Hin. apply includes_In in Hin. rewrite Hin. split; reflexivity.
  - intros Hnot. apply includes_false in Hnot. rewrite Hnot. split.
    + intros permission Hcall. rewrite Hcall.
      unfold try_catch, api_calls. cbn -[js str_eqb].
      split; [|split].
      * destruct (_ || _); reflexivity.
      * intros [-> | ->]; reflexivity.
      * intros H1 H2. apply str_eqb_neq in H1, H2. rewrite H1, H2. reflexivity.
    + intros error Hcall. rewrite Hcall. reflexivity.
Qed.

(** ** The CLI dispatcher *)

(** X24: an identifier outside the four supported ones is rejected,
    whatever the environment holds, with an error that names the identifier
    and lists the supported ones. *)
Lemma getCliToolConfig_unsupported (process_env : gmap jsstring jsstring)
    (cliTool : jsstring) :
  ~ In cliTool supported_tools ->
  getCliToolConfig process_env cliTool =
  Throw (Error (js "Unsupported CLI tool: " ++ cliTool
                ++ js ". Supported tools: claude-cli, gemini-cli, codex-cli, augment-cli")).
Proof.
  intros Hnot. unfold getCliToolConfig.
  assert (H : forall name, In name supported_tools -> str_eqb cliTool name = false).
  { intros name Hin. apply str_eqb_neq. intros ->. exact (Hnot Hin). }
  rewrite !H by (simpl; auto). reflexivity.
Qed.

(** X25: with [AI_ENV] unset, empty or holding JSON text, every supported
    identifier resolves to a configuration. *)
Lemma getCliToolConfig_supported (process_env : gmap jsstring jsstring)
    (cliTool : jsstring) :
  In cliTool supported_tools ->
  (env_or process_env "AI_ENV" [] = []
   \/ exists v, JSON_parse (env_or process_env "AI_ENV" []) = Ok v) ->
  exists config, getCliToolConfig process_env cliTool = Ok config.
Proof.
  intros Hin Henv.
  assert (Hoverlay : forall k m a b, exists o,
            env_overlay k m a b (env_or process_env "AI_ENV" []) = Ok o).
  { intros k m a b. unfold env_overlay. destruct Henv as [-> | [v Hv]].
    - eexists; reflexivity.
    - rewrite Hv. destruct (truthy _); eexists; reflexivity. }
  unfold getCliToolConfig, with_env. simpl in Hin.
  destruct Hin as [<- | [<- | [<- | [<- | []]]]].
  - change (str_eqb (js "claude-cli") (js "claude-cli")) with true. cbv iota.
    match goal with |- context [env_overlay ?k ?m ?a ?b _] =>
      destruct (Hoverlay k m a b) as [o ->] end.
    eexists; reflexivity.
  - change (str_eqb (js "gemini-cli") (js "claude-cli")) with false.
    change (str_eqb (js "gemini-cli") (js "gemini-cli")) with true. cbv iota.
    match goal with |- context [env_overlay ?k ?m ?a ?b _] =>
      destruct (Hoverlay k m a b) as [o ->] end.
    eexists; reflexivity.
  - change (str_eqb (js "codex-cli") (js "claude-cli")) with false.
    change (str_eqb (js "codex-cli") (js "gemini-cli")) with false.
    change (str_eqb (js "codex-cli") (js "codex-cli")) with true. cbv iota.
    match goal with |- context [env_overlay ?k ?m ?a ?b _] =>
      destruct (Hoverlay k m a b) as [o ->] end.
    eexists; reflexivity.
  - change (str_eqb (js "augment-cli") (js "claude-cli")) with false.
    change (str_eqb (js "augment-cli") (js "gemini-cli")) with false.
    change (str_eqb (js "augment-cli") (js "codex-cli")) with false.
    change (str_eqb (js "augment-cli") (js "augment-cli")) with true. cbv iota.
    match goal with |- context [env_overlay ?k ?m ?a ?b _] =>
      destruct (Hoverlay k m a b) as [o ->] end.
    eexists; reflexivity.
Qed.

(** C7, at the failing input: with [AI_ENV] set the way the README writes
    it, one [KEY: value] pair per line, the supported identifier
    ["claude-cli"] does not resolve: [JSON.parse] throws a SyntaxError. *)
Theorem getCliToolConfig_throws_on_documented_env :
  In (js "claude-cli") supported_tools
  /\ getCliToolConfig {[ js "AI_ENV" := js "NODE_ENV: test" ]} (js "claude-cli")
     = Throw (SyntaxError []).
Proof. split; [left; reflexivity | vm_compute; reflexivity]. Qed.

(** The three ways [executeCliTool] ends: the spawn call is refused; the
    output file is there after the run; or it is not, and is written. *)
Lemma executeCliTool_cases (process_env : gmap jsstring jsstring)
    (sys : Sys) (config : CliToolConfig) :
  let env := spawn_env process_env config in
  let commandLine := command config ++ js " " ++ join (js " ") (args config) in
  let out := path_join sys (env_or process_env "RUNNER_TEMP" (js "/tmp"))
                       (js "ai-execution-output.json") in
  let status := spawn_status sys (command config) (args config) env (process_cwd sys) in
  let conclusion := match status with
                    | Some 0%Z => js "success"
                    | _ => js "failure"
                    end in
  let data := result_record sys conclusion commandLine status in
  let log := ConsoleLog (js "Executing: " ++ commandLine) in
  let spawn := SpawnSync (command config) (args config) env (process_cwd sys) in
  executeCliTool process_env sys config =
  match spawnSync_check sys (command config) (args config) env (process_cwd sys) with
  | Throw e => mkM [log] (Throw e)
  | Ok _ =>
      if existsSync sys out
      then mkM [log; spawn] (Ok {| outputFile := out; conclusion := conclusion |})
      else match writeFileSync sys out data with
           | Ok _ => mkM [log; spawn; WriteFileSync out data]
                         (Ok {| outputFile := out; conclusion := conclusion |})
           | Throw e => mkM [log; spawn; WriteFileSync out data] (Throw e)
           end
  end.
Proof.
  cbv zeta. unfold executeCliTool, spawnSync.
  destruct (spawnSync_check sys _ _ _ _) as [[]|e]; [|reflexivity].
  destruct (existsSync sys _); [reflexivity|].
  cbn [negb mbind M_bind bind request console_log emit outcome trace app].
  destruct (writeFileSync sys _ _) as [[]|e]; reflexivity.
Qed.

(** [executeCliTool] returns exactly when the spawn call is accepted and
    the output file is there after the run or is written without error. *)
Lemma executeCliTool_returns (process_env : gmap jsstring jsstring)
    (sys : Sys) (config : CliToolConfig) :
  let env := spawn_env process_env config in
  let out := path_join sys (env_or process_env "RUNNER_TEMP" (js "/tmp"))
                       (js "ai-execution-output.json") in
  let execution := executeCliTool process_env sys config in
  (exists r, outcome execution = Ok r) <->
  spawnSync_check sys (command config) (args config) env (process_cwd sys) = Ok tt
  /\ (existsSync sys out = true
      \/ exists data, writes execution = [(out, data)]
                      /\ writeFileSync sys out data = Ok tt).
Proof.
  intros env out execution. subst execution.
  rewrite executeCliTool_cases. cbv zeta. fold env. fold out.
  destruct (spawnSync_check sys (command config) (args config) env (process_cwd sys))
    as [[]|e].
  - destruct (existsSync sys out).
    + split; [intros _; split; [reflexivity | left; reflexivity] | eauto].
    + destruct (writeFileSync sys out _) as [[]|e] eqn:Hw.
      * split; [intros _; split; [reflexivity|]; right | eauto].
        eexists. split; [reflexivity | exact Hw].
      * split; [intros [r Hr]; discriminate|].
        intros [_ [H | (data & Hd & Hw')]]; [discriminate|].
        cbv [writes omap list_omap trace] in Hd. injection Hd as Hd. subst data.
        pose proof (eq_trans (eq_sym Hw) Hw') as H. discriminate H.
  - split; [intros [r Hr]; discriminate|]. intros [H _]. discriminate.
Qed.

(** C8: whenever the dispatcher returns, its conclusion is ["success"]
    exactly when the exit status of the process is 0; any other status,
    [null] included, gives ["failure"].  It returns exactly when the spawn
    call is accepted and the output file is there after the run or is
    written without error; otherwise it throws and returns no conclusion. *)
Theorem executeCliTool_conclusion (process_env : gmap jsstring jsstring)
    (sys : Sys) (config : CliToolConfig) :
  let env := spawn_env process_env config in
  let status := spawn_status sys (command config) (args config) env (process_cwd sys) in
  let out := path_join sys (env_or process_env "RUNNER_TEMP" (js "/tmp"))
                       (js "ai-execution-output.json") in
  let execution := executeCliTool process_env sys config in
  (forall r, outcome execution = Ok r ->
             (conclusion r = js "success" <-> status = Some 0%Z)
             /\ (status <> Some 0%Z -> conclusion r = js "failure"))
  /\ ((exists r, outcome execution = Ok r) <->
      spawnSync_check sys (command config) (args config) env (process_cwd sys) = Ok tt
      /\ (existsSync sys out = true
          \/ exists data, writes execution = [(out, data)]
                          /\ writeFileSync sys out data = Ok tt)).
Proof.
  intros env status out execution. subst execution.
  split; [|apply executeCliTool_returns].
  rewrite executeCliTool_cases. cbv zeta. fold env. fold status. fold out.
  assert (Hc : forall c, c = match status with
                             | Some 0%Z => js "success"
                             | _ => js "failure"
                             end ->
                         (c = js "success" <-> status = Some 0%Z)
                         /\ (status <> Some 0%Z -> c = js "failure")).
  { intros c ->.
    destruct status as [[|p|p]|];
      (split; [split; intros H | intros H]);
      try reflexivity; try congruence; vm_compute in H; discriminate. }
  destruct (spawnSync_check sys (command config) (args config) env (process_cwd sys))
    as [[]|e]; [|discriminate].
  destruct (existsSync sys out).
  - intros r [= <-]. apply Hc. reflexivity.
  - destruct (writeFileSync sys out _) as [[]|e]; [|discriminate].
    intros r [= <-]. apply Hc. reflexivity.
Qed.

(** ** The properties at the samples *)

Lemma executeCliTool_conclusion_witness :
  exists r, outcome (executeCliTool prompt_env (mock_sys (Some 0%Z) false)
                       (resolved prompt_env "claude-cli")) = Ok r
            /\ conclusion r = js "success".
Proof.
  destruct (executeCliTool_conclusion prompt_env (mock_sys (Some 0%Z) false)
              (resolved prompt_env "claude-cli")) as [Hconclusion Hreturns].
  destruct (proj2 Hreturns) as [r Hr].
  - split; [reflexivity|]. right. eexists. split; reflexivity.
  - exists r. split; [exact Hr|]. apply (Hconclusion r Hr). reflexivity.
Defined.

Lemma checkContainsTrigger_direct_prompt_witness :
  outcome (checkContainsTrigger direct_prompt_context) =
  Ok {| containsTrigger := true; aiProvider := Some claude |}.
Proof. apply checkContainsTrigger_direct_prompt. discriminate. Defined.

Lemma checkContainsTrigger_provider_iff_trigger_witness :
  (exists r, outcome (checkContainsTrigger both_providers_context) = Ok r)
  /\ (true = true <-> exists p, Some augment = Some p).
Proof.
  split.
  - apply (proj2 (checkContainsTrigger_provider_iff_trigger both_providers_context)).
    reflexivity.
  - apply (proj1 (checkContainsTrigger_provider_iff_trigger both_providers_context)
                 (triggered augment)).
    reflexivity.
Defined.

Lemma checkContainsTrigger_empty_phrase_witness :
  outcome (checkContainsTrigger empty_phrase_context) =
  Ok {| containsTrigger := true; aiProvider := Some claude |}.
Proof.
  apply (proj2 (checkContainsTrigger_empty_phrase empty_phrase_context empty_title_body));
    reflexivity.
Defined.

Lemma checkAllowedActor_decision_witness :
  outcome (checkAllowedActor (mock_octokit "Organization" "read")
             (bot_context "my-org" [js "my-org"])) =
  Throw (Error (js "Workflow initiated by unauthorized actor: my-org (type: Organization). Only human users and whitelisted bots are allowed. Allowed bots: my-org")).
Proof.
  refine (proj2 (proj2 (checkAllowedActor_decision
                          (mock_octokit "Organization" "read")
                          (bot_context "my-org" [js "my-org"])
                          {| user_type := js "Organization"; user_login := js "my-org" |}
                          eq_refl)) _ _).
  - discriminate.
  - intros [H _]. discriminate H.
Defined.

Lemma checkWritePermissions_decision_witness :
  outcome (checkWritePermissions (mock_octokit "Bot" "read")
             (bot_context "hud-bot[bot]" [js "hud-bot[bot]"])) = Ok true
  /\ api_calls (checkWritePermissions (mock_octokit "Bot" "read")
                  (bot_context "hud-bot[bot]" [js "hud-bot[bot]"])) = [].
Proof.
  apply (proj1 (checkWritePermissions_decision (mock_octokit "Bot" "read")
                  (bot_context "hud-bot[bot]" [js "hud-bot[bot]"]))).
  left. reflexivity.
Defined.

(** ** The test suite, replayed on the embedding *)

Example test_detect_claude :
  detectAIProvider (js "@claude help me") = Some claude
  /\ detectAIProvider (js "Hey @claude, can you help?") = Some claude
  /\ detectAIProvider (js "@claude.") = Some claude.
Proof. repeat split. Qed.

Example test_detect_augment :
  detectAIProvider (js "@augment help me") = Some augment
  /\ detectAIProvider (js "Hey @augment, can you help?") = Some augment
  /\ detectAIProvider (js "@augment.") = Some augment.
Proof. repeat split. Qed.

Example test_detect_prefers_augment :
  detectAIProvider (js "@claude and @augment help") = Some augment
  /\ detectAIProvider (js "@augment or @claude help") = Some augment.
Proof. repeat split. Qed.

Example test_detect_no_match :
  detectAIProvider (js "help me") = None
  /\ detectAIProvider (js "claudette helped") = None
  /\ detectAIProvider (js "augmented reality") = None
  /\ detectAIProvider (js "@claudette helped me") = None
  /\ detectAIProvider (js "email@claude.com") = None.
Proof. repeat split. Qed.

(** A tab or a line feed after the token is a boundary as well. *)
Example detect_after_other_white_space :
  detectAIProvider (js "@claude" ++ [9] ++ js "now") = Some claude
  /\ detectAIProvider (js "@claude" ++ [10] ++ js "now") = Some claude
  /\ detectAIProvider ([8232] ++ js "@augment" ++ [12288]) = Some augment.
Proof. repeat split. Qed.

Example test_escapeRegExp :
  escapeRegExp (js ".*+?^${}()|[]\") = js "\.\*\+\?\^\$\{\}\(\)\|\[\]\\"
  /\ escapeRegExp (js "hello") = js "hello"
  /\ escapeRegExp (js "hello.*world") = js "hello\.\*world".
Proof. repeat split. Qed.

(** Without the escaping the pattern means something else. *)
Example unescaped_pattern_is_not_literal :
  RegExp_test (js "a.c*") (js "xab") = Some true
  /\ RegExp_test (escapeRegExp (js "a.c*")) (js "xab") = Some false
  /\ RegExp_test (escapeRegExp (js "a.c*")) (js "xa.c*") = Some true
  /\ RegExp_test (js "a(b") (js "a(b") = None.
Proof. repeat split. Qed.

Example test_trigger_phrase_punctuation :
  check_issue "@claude" "@claude, can you help?" "Test Issue" = Ok (triggered claude)
  /\ check_issue "@claude" "@claude. Please look at this" "Test Issue" = Ok (triggered claude)
  /\ check_issue "@claude" "@claude! This is urgent" "Test Issue" = Ok (triggered claude)
  /\ check_issue "@claude" "@claude? What do you think?" "Test Issue" = Ok (triggered claude)
  /\ check_issue "@claude" "@claude: here's the issue" "Test Issue" = Ok (triggered claude)
  /\ check_issue "@claude" "@claude; and another thing" "Test Issue" = Ok (triggered claude)
  /\ check_issue "@claude" "Hey @claude, can you help?" "Test Issue" = Ok (triggered claude)
  /\ check_issue "@claude" "@claudette helped me" "Test Issue" = Ok not_triggered
  /\ check_issue "@claude" "email@claude.com" "Test Issue" = Ok not_triggered.
Proof. repeat split. Qed.

Example test_trigger_phrase_in_title :
  check_issue "/claude" "The login page is broken" "/claude Fix the login bug"
  = Ok (triggered claude)
  /\ check_issue "/claude" "The login page is broken" "Fix the login bug"
     = Ok not_triggered
  /\ check_issue "/claude" "Please /claude, fix it" "Bug" = Ok (triggered claude)
  /\ check_issue "/claude" "see docs/claude for details" "Bug" = Ok not_triggered.
Proof. repeat split. Qed.

Example test_comment_prefers_augment :
  outcome (checkContainsTrigger both_providers_context) = Ok (triggered augment).
Proof. reflexivity. Qed.

Example test_non_matching_event :
  outcome (checkContainsTrigger
             (mock_context "push" "created" "test-user" no_payload
                (mock_inputs "@claude" "" [])))
  = Ok not_triggered.
Proof. reflexivity. Qed.

Example test_rejects_unlisted_bot :
  outcome (checkAllowedActor (mock_octokit "Bot" "read")
             (bot_context "malicious-bot" [js "dependabot[bot]"; js "renovate[bot]"]))
  = Throw (Error (js "Workflow initiated by unauthorized actor: malicious-bot (type: Bot). Only human users and whitelisted bots are allowed. Allowed bots: dependabot[bot], renovate[bot]")).
Proof. reflexivity. Qed.

Example test_rejects_bot_with_empty_list :
  outcome (checkAllowedActor (mock_octokit "Bot" "read") (bot_context "some-bot" []))
  = Throw (Error (js "Workflow initiated by unauthorized actor: some-bot (type: Bot). Only human users and whitelisted bots are allowed.")).
Proof. reflexivity. Qed.

Example test_bot_names_are_case_sensitive :
  outcome (checkAllowedActor (mock_octokit "Bot" "read")
             (bot_context "DependaBot[bot]" [js "dependabot[bot]"]))
  = Throw (Error (js "Workflow initiated by unauthorized actor: DependaBot[bot] (type: Bot). Only human users and whitelisted bots are allowed. Allowed bots: dependabot[bot]")).
Proof. reflexivity. Qed.

Example test_allows_human_and_listed_bot :
  checkAllowedActor (mock_octokit "User" "read") (bot_context "test-user" [])
  = mkM [GetByUsername (js "test-user");
         ConsoleLog (js "Actor: test-user, type: User");
         ConsoleLog (js "Verified human actor: test-user")] (Ok tt)
  /\ outcome (checkAllowedActor (mock_octokit "Bot" "read")
                (bot_context "dependabot[bot]" [js "dependabot[bot]"; js "renovate[bot]"]))
     = Ok tt.
Proof. repeat split. Qed.

Example unsupported_tool_message :
  getCliToolConfig ∅ (js "foo-cli")
  = Throw (Error (js "Unsupported CLI tool: foo-cli. Supported tools: claude-cli, gemini-cli, codex-cli, augment-cli")).
Proof. reflexivity. Qed.

Example json_env_is_merged :
  match getCliToolConfig
          {[ js "AI_ENV" := js "{ " ++ [quote] ++ js "NODE_ENV" ++ [quote] ++ js " : "
                            ++ [quote] ++ js "test" ++ [quote] ++ js " }" ]}
          (js "codex-cli") with
  | Ok config =>
      default ∅ (envSetup config) !! js "NODE_ENV" = Some (JString (js "test"))
  | Throw _ => False
  end.
Proof. vm_compute. reflexivity. Qed.

(** * Further properties of the code *)

(** ** The fallback phrase scan *)

(** X1: for every trigger phrase the fallback pattern compiles, and it
    matches a text exactly when the phrase stands in the text as a token of
    its own: preceded by the start of the text or white space, followed by
    its end, white space or one of [. , ! ? ; :]. *)
Theorem fallback_pattern_finds_standalone_phrase (phrase text : jsstring) :
  exists r, RegExp (triggerPattern phrase) = Some r
            /\ (test r text = true <-> standalone phrase text).
Proof.
  exists (boundary_regex phrase). split.
  - apply RegExp_triggerPattern.
  - apply test_boundary_regex.
Qed.

(** ** The blocks of the trigger check *)

Lemma outcome_first_return (blocks : list (M (option TriggerResult)))
    (otherwise : M TriggerResult) :
  outcome (first_return blocks otherwise) =
  first_outcome (List.map outcome blocks) (outcome otherwise).
Proof.
  induction blocks as [|b blocks IH]; [reflexivity|].
  cbn [first_return List.map first_outcome]. rewrite outcome_bind.
  destruct (outcome b) as [[r|]|e]; [reflexivity | exact IH | reflexivity].
Qed.

Lemma checkContainsTrigger_outcome (c : ParsedGitHubContext) :
  directPrompt (inputs c) = [] ->
  outcome (checkContainsTrigger c) =
  first_outcome
    [outcome (assigneeBlock c); outcome (issueBlock c);
     outcome (pullRequestBlock c); outcome (reviewBlock c);
     outcome (commentBlock c)]
    (Ok not_triggered).
Proof.
  intros Hd. unfold checkContainsTrigger. rewrite Hd. cbn [truthy].
  rewrite outcome_first_return. reflexivity.
Qed.

Lemma assigneeBlock_outcome (c : ParsedGitHubContext) :
  outcome (assigneeBlock c) =
  Ok (if isIssuesAssignedEvent c
         && (truthy (strip_at (assigneeTrigger (inputs c)))
             && str_eqb (opt_or (option_map login (assignee (payload c))) [])
                        (strip_at (assigneeTrigger (inputs c))))
      then Some (triggered claude) else None).
Proof.
  unfold assigneeBlock. destruct (isIssuesAssignedEvent c); [|reflexivity].
  cbn [andb]. destruct (_ && _); reflexivity.
Qed.

Lemma issueBlock_outcome (c : ParsedGitHubContext) :
  outcome (issueBlock c) =
  if isIssuesEvent c && opt_is (eventAction c) (js "opened") then
    match issue (payload c) with
    | Some i => outcome (scanBodyTitle (js "Issue") (triggerPhrase (inputs c)) i)
    | None => Throw (TypeError [])
    end
  else Ok None.
Proof.
  unfold issueBlock. destruct (_ && _); [|reflexivity].
  rewrite outcome_bind, member_outcome. destruct (issue (payload c)); reflexivity.
Qed.

Lemma pullRequestBlock_outcome (c : ParsedGitHubContext) :
  outcome (pullRequestBlock c) =
  if isPullRequestEvent c then
    match pull_request (payload c) with
    | Some pr => outcome (scanBodyTitle (js "Pull request") (triggerPhrase (inputs c)) pr)
    | None => Throw (TypeError [])
    end
  else Ok None.
Proof.
  unfold pullRequestBlock. destruct (isPullRequestEvent c); [|reflexivity].
  rewrite outcome_bind, member_outcome.
  destruct (pull_request (payload c)); reflexivity.
Qed.

Lemma reviewBlock_outcome (c : ParsedGitHubContext) :
  outcome (reviewBlock c) =
  if isPullRequestReviewEvent c
     && (opt_is (eventAction c) (js "submitted")
         || opt_is (eventAction c) (js "edited")) then
    match review (payload c) with
    | Some r => outcome (scanText (js "Pull request review")
                           (triggerPhrase (inputs c)) (opt_or (body r) []))
    | None => Throw (TypeError [])
    end
  else Ok None.
Proof.
  unfold reviewBlock. destruct (_ && _); [|reflexivity].
  rewrite outcome_bind, member_outcome. destruct (review (payload c)); reflexivity.
Qed.

Lemma commentBlock_outcome (c : ParsedGitHubContext) :
  outcome (commentBlock c) =
  if isIssueCommentEvent c || isPullRequestReviewCommentEvent c then
    match comment (payload c) with
    | Some cm => outcome (scanText (js "Comment") (triggerPhrase (inputs c))
                            (comment_body cm))
    | None => Throw (TypeError [])
    end
  else Ok None.
Proof.
  unfold commentBlock. destruct (_ || _); [|reflexivity].
  rewrite outcome_bind, member_outcome. destruct (comment (payload c)); reflexivity.
Qed.

Lemma opt_is_false (a : option jsstring) (s : jsstring) :
  a <> Some s -> opt_is a s = false.
Proof.
  destruct a as [x|]; [|reflexivity]. intros H. apply str_eqb_neq. congruence.
Qed.

(** The guards, once the event name is known. *)
Ltac know_event Hn :=
  unfold isIssuesAssignedEvent, isIssuesEvent, isIssueCommentEvent,
    isPullRequestEvent, isPullRequestReviewEvent, isPullRequestReviewCommentEvent;
  rewrite !Hn;
  repeat match goal with
         | |- context [str_eqb (js ?a) (js ?b)] =>
             let v := eval vm_compute in (str_eqb (js a) (js b)) in
             change (str_eqb (js a) (js b)) with v
         end;
  cbn [andb orb].

Lemma detect_decision (text : jsstring) :
  detectAIProvider text =
  if test augmentRegex text then Some augment
  else if test claudeRegex text then Some claude else None.
Proof. reflexivity. Qed.

Lemma not_test_iff (r : regex) (text : jsstring) (P : Prop) :
  (test r text = true <-> P) -> (test r text = false <-> ~ P).
Proof. intros H. destruct (test r text); split; intros; intuition congruence. Qed.

(** The outcome of the single-text scan, in terms of tokens. *)
Lemma scanText_tokens (What phrase text : jsstring) :
  (standalone (js "@augment") text ->
   outcome (scanText What phrase text) = Ok (Some (triggered augment)))
  /\ (~ standalone (js "@augment") text ->
      standalone (js "@claude") text \/ standalone phrase text ->
      outcome (scanText What phrase text) = Ok (Some (triggered claude)))
  /\ (~ standalone (js "@augment") text -> ~ standalone (js "@claude") text ->
      ~ standalone phrase text ->
      outcome (scanText What phrase text) = Ok None).
Proof.
  rewrite scanText_outcome, detect_decision.
  rewrite <- !(not_test_iff _ _ _ (test_augmentRegex text)).
  rewrite <- !(not_test_iff _ _ _ (test_claudeRegex text)).
  rewrite <- !(not_test_iff _ _ _ (test_boundary_regex phrase text)).
  rewrite <- test_augmentRegex, <- test_claudeRegex, <- test_boundary_regex.
  destruct (test augmentRegex text), (test claudeRegex text),
    (test (boundary_regex phrase) text); repeat split; intros;
    try reflexivity; try congruence; intuition congruence.
Qed.

(** ** What the trigger check decides, event by event *)

(** X2: on a comment event (issue comment or review comment) without a
    direct prompt, the check answers ["augment"] when [@augment] stands in
    the comment as a token; else ["claude"] when [@claude] or the trigger
    phrase does; else it is not triggered. *)
Theorem comment_trigger_decision (c : ParsedGitHubContext) (cm : Comment) :
  directPrompt (inputs c) = [] ->
  eventName c = js "issue_comment" \/ eventName c = js "pull_request_review_comment" ->
  comment (payload c) = Some cm ->
  (standalone (js "@augment") (comment_body cm) ->
   outcome (checkContainsTrigger c) = Ok (triggered augment))
  /\ (~ standalone (js "@augment") (comment_body cm) ->
      standalone (js "@claude") (comment_body cm)
      \/ standalone (triggerPhrase (inputs c)) (comment_body cm) ->
      outcome (checkContainsTrigger c) = Ok (triggered claude))
  /\ (~ standalone (js "@augment") (comment_body cm) ->
      ~ standalone (js "@claude") (comment_body cm) ->
      ~ standalone (triggerPhrase (inputs c)) (comment_body cm) ->
      outcome (checkContainsTrigger c) = Ok not_triggered).
Proof.
  intros Hd Hn Hc.
  destruct (scanText_tokens (js "Comment") (triggerPhrase (inputs c)) (comment_body cm))
    as (H1 & H2 & H3).
  assert (Hout : forall o,
            outcome (scanText (js "Comment") (triggerPhrase (inputs c))
                       (comment_body cm)) = Ok o ->
            outcome (checkContainsTrigger c) =
            Ok (match o with Some r => r | None => not_triggered end)).
  { intros o Ho. rewrite checkContainsTrigger_outcome by exact Hd.
    rewrite assigneeBlock_outcome, issueBlock_outcome, pullRequestBlock_outcome,
      reviewBlock_outcome, commentBlock_outcome, Hc, Ho.
    destruct Hn as [Hn | Hn]; know_event Hn; destruct o; reflexivity. }
  repeat split.
  - intros Ha. apply (Hout _ (H1 Ha)).
  - intros Ha Hb. apply (Hout _ (H2 Ha Hb)).
  - intros Ha Hb Hp. apply (Hout _ (H3 Ha Hb Hp)).
Qed.

(** X3: without a direct prompt, an event whose name is none of the five
    the check handles is never a trigger, whatever its payload holds or
    lacks. *)
Theorem unhandled_event_not_triggered (c : ParsedGitHubContext) :
  directPrompt (inputs c) = [] ->
  ~ In (eventName c) handled_events ->
  outcome (checkContainsTrigger c) = Ok not_triggered.
Proof.
  intros Hd Hn. rewrite checkContainsTrigger_outcome by exact Hd.
  rewrite assigneeBlock_outcome, issueBlock_outcome, pullRequestBlock_outcome,
    reviewBlock_outcome, commentBlock_outcome.
  unfold isIssuesAssignedEvent, isIssuesEvent, isIssueCommentEvent,
    isPullRequestEvent, isPullRequestReviewEvent, isPullRequestReviewCommentEvent.
  assert (H : forall name, In name handled_events ->
                           str_eqb (eventName c) name = false).
  { intros name Hin. apply str_eqb_neq. intros Heq. apply Hn. rewrite Heq. exact Hin. }
  rewrite !H by (unfold handled_events; simpl; auto 10). reflexivity.
Qed.

(** X4: without a direct prompt, an issue event whose action is neither
    ["opened"] nor ["assigned"], and a review event whose action is neither
    ["submitted"] nor ["edited"], is never a trigger: its texts are not
    read. *)
Theorem unscanned_actions_not_triggered (c : ParsedGitHubContext) :
  directPrompt (inputs c) = [] ->
  (eventName c = js "issues"
   /\ eventAction c <> Some (js "opened") /\ eventAction c <> Some (js "assigned"))
  \/ (eventName c = js "pull_request_review"
      /\ eventAction c <> Some (js "submitted") /\ eventAction c <> Some (js "edited")) ->
  outcome (checkContainsTrigger c) = Ok not_triggered.
Proof.
  intros Hd H. rewrite checkContainsTrigger_outcome by exact Hd.
  rewrite assigneeBlock_outcome, issueBlock_outcome, pullRequestBlock_outcome,
    reviewBlock_outcome, commentBlock_outcome.
  destruct H as [(Hn & H1 & H2) | (Hn & H1 & H2)]; know_event Hn;
    rewrite (opt_is_false _ _ H1), (opt_is_false _ _ H2); reflexivity.
Qed.

(** X5: on an issue-assigned event without a direct prompt, the check is
    triggered, with provider ["claude"], exactly when the assignee trigger
    without its leading [@] is not empty and is the login of the assignee;
    the body and title of the issue play no part. *)
Theorem assignee_trigger_decision (c : ParsedGitHubContext) :
  directPrompt (inputs c) = [] ->
  eventName c = js "issues" ->
  eventAction c = Some (js "assigned") ->
  let triggerUser := strip_at (assigneeTrigger (inputs c)) in
  let assigneeUsername :=
    match assignee (payload c) with Some u => login u | None => [] end in
  (triggerUser <> [] /\ assigneeUsername = triggerUser ->
   outcome (checkContainsTrigger c) = Ok (triggered claude))
  /\ (triggerUser = [] \/ assigneeUsername <> triggerUser ->
      outcome (checkContainsTrigger c) = Ok not_triggered).
Proof.
  intros Hd Hn Ha triggerUser assigneeUsername.
  rewrite checkContainsTrigger_outcome by exact Hd.
  rewrite assigneeBlock_outcome, issueBlock_outcome, pullRequestBlock_outcome,
    reviewBlock_outcome, commentBlock_outcome.
  know_event Hn. rewrite Ha.
  change (opt_is (Some (js "assigned")) (js "assigned")) with true.
  change (opt_is (Some (js "assigned")) (js "opened")) with false.
  cbn [andb orb].
  assert (Hname : opt_or (option_map login (assignee (payload c))) [] = assigneeUsername).
  { subst assigneeUsername. destruct (assignee (payload c)) as [[l]|]; [|reflexivity].
    cbn. unfold or_else. destruct l; reflexivity. }
  rewrite Hname. fold triggerUser. split.
  - intros [Hne Heq]. rewrite Heq, (proj2 (str_eqb_eq _ _) eq_refl).
    destruct triggerUser; [congruence | reflexivity].
  - intros [Hempty | Hne].
    + rewrite Hempty. reflexivity.
    + apply str_eqb_neq in Hne. rewrite Hne, andb_false_r. reflexivity.
Qed.

(** The outcome of the body-then-title scan, in terms of the two texts. *)
Lemma scanBodyTitle_tokens (What phrase : jsstring) (t : Text) :
  let b := opt_or (body t) [] in
  let ti := opt_or (title t) [] in
  let scan := outcome (scanBodyTitle What phrase t) in
  (standalone (js "@augment") b -> scan = Ok (Some (triggered augment)))
  /\ (standalone (js "@claude") b -> ~ standalone (js "@augment") b ->
      scan = Ok (Some (triggered claude)))
  /\ (~ standalone (js "@augment") b -> ~ standalone (js "@claude") b ->
      (standalone (js "@augment") ti -> scan = Ok (Some (triggered augment)))
      /\ (~ standalone (js "@augment") ti ->
          standalone (js "@claude") ti \/ standalone phrase b \/ standalone phrase ti ->
          scan = Ok (Some (triggered claude)))
      /\ (~ standalone (js "@augment") ti -> ~ standalone (js "@claude") ti ->
          ~ standalone phrase b -> ~ standalone phrase ti ->
          scan = Ok None)).
Proof.
  intros b ti scan. subst scan. rewrite scanBodyTitle_outcome. fold b ti.
  rewrite !detect_decision.
  rewrite <- !(not_test_iff _ _ _ (test_augmentRegex b)).
  rewrite <- !(not_test_iff _ _ _ (test_claudeRegex b)).
  rewrite <- !(not_test_iff _ _ _ (test_augmentRegex ti)).
  rewrite <- !(not_test_iff _ _ _ (test_claudeRegex ti)).
  rewrite <- !(not_test_iff _ _ _ (test_boundary_regex phrase b)).
  rewrite <- !(not_test_iff _ _ _ (test_boundary_regex phrase ti)).
  rewrite <- !test_augmentRegex, <- !test_claudeRegex, <- !test_boundary_regex.
  destruct (test augmentRegex b), (test claudeRegex b),
    (test augmentRegex ti), (test claudeRegex ti),
    (test (boundary_regex phrase) b), (test (boundary_regex phrase) ti);
    cbn [first_provider orb]; repeat split; intros;
    try reflexivity; try congruence; intuition congruence.
Qed.

(** On an issue-opened event, or a pull request event of any action, the
    check returns what the body-then-title scan does. *)
Lemma body_title_events_outcome (c : ParsedGitHubContext) (t : Text)
    (o : option TriggerResult) :
  directPrompt (inputs c) = [] ->
  (eventName c = js "issues" /\ eventAction c = Some (js "opened")
   /\ issue (payload c) = Some t)
  \/ (eventName c = js "pull_request" /\ pull_request (payload c) = Some t) ->
  (forall What, outcome (scanBodyTitle What (triggerPhrase (inputs c)) t) = Ok o) ->
  outcome (checkContainsTrigger c) =
  Ok (match o with Some r => r | None => not_triggered end).
Proof.
  intros Hd He Ho. rewrite checkContainsTrigger_outcome by exact Hd.
  rewrite assigneeBlock_outcome, issueBlock_outcome, pullRequestBlock_outcome,
    reviewBlock_outcome, commentBlock_outcome.
  destruct He as [(Hn & Ha & Hi) | (Hn & Hp)]; know_event Hn.
  - rewrite Ha, Hi, Ho.
    change (opt_is (Some (js "opened")) (js "assigned")) with false.
    change (opt_is (Some (js "opened")) (js "opened")) with true.
    cbn [andb]. destruct o; reflexivity.
  - rewrite Hp, Ho. destruct o; reflexivity.
Qed.

(** X6: on an issue-opened event, and on a pull request event of any
    action, a provider mention in the body decides, whatever the title
    holds: [@claude] in the body wins even over [@augment] in the title. *)
Theorem body_mention_precedes_title (c : ParsedGitHubContext) (t : Text) :
  directPrompt (inputs c) = [] ->
  (eventName c = js "issues" /\ eventAction c = Some (js "opened")
   /\ issue (payload c) = Some t)
  \/ (eventName c = js "pull_request" /\ pull_request (payload c) = Some t) ->
  (standalone (js "@augment") (opt_or (body t) []) ->
   outcome (checkContainsTrigger c) = Ok (triggered augment))
  /\ (standalone (js "@claude") (opt_or (body t) []) ->
      ~ standalone (js "@augment") (opt_or (body t) []) ->
      outcome (checkContainsTrigger c) = Ok (triggered claude)).
Proof.
  intros Hd He. split.
  - intros Ha. apply (body_title_events_outcome c t (Some (triggered augment)) Hd He).
    intros What.
    apply (proj1 (scanBodyTitle_tokens What (triggerPhrase (inputs c)) t) Ha).
  - intros Hc Ha. apply (body_title_events_outcome c t (Some (triggered claude)) Hd He).
    intros What.
    apply (proj1 (proj2 (scanBodyTitle_tokens What (triggerPhrase (inputs c)) t)) Hc Ha).
Qed.

(** X7: on the same events, when the body mentions no provider, the title
    decides the provider; failing that, the trigger phrase standing in the
    body or in the title triggers with ["claude"]; failing that too, the
    event is not a trigger.  For a pull request this holds for every
    action. *)
Theorem title_and_phrase_fallback (c : ParsedGitHubContext) (t : Text) :
  directPrompt (inputs c) = [] ->
  (eventName c = js "issues" /\ eventAction c = Some (js "opened")
   /\ issue (payload c) = Some t)
  \/ (eventName c = js "pull_request" /\ pull_request (payload c) = Some t) ->
  ~ standalone (js "@augment") (opt_or (body t) []) ->
  ~ standalone (js "@claude") (opt_or (body t) []) ->
  (standalone (js "@augment") (opt_or (title t) []) ->
   outcome (checkContainsTrigger c) = Ok (triggered augment))
  /\ (~ standalone (js "@augment") (opt_or (title t) []) ->
      standalone (js "@claude") (opt_or (title t) [])
      \/ standalone (triggerPhrase (inputs c)) (opt_or (body t) [])
      \/ standalone (triggerPhrase (inputs c)) (opt_or (title t) []) ->
      outcome (checkContainsTrigger c) = Ok (triggered claude))
  /\ (~ standalone (js "@augment") (opt_or (title t) []) ->
      ~ standalone (js "@claude") (opt_or (title t) []) ->
      ~ standalone (triggerPhrase (inputs c)) (opt_or (body t) []) ->
      ~ standalone (triggerPhrase (inputs c)) (opt_or (title t) []) ->
      outcome (checkContainsTrigger c) = Ok not_triggered).
Proof.
  intros Hd He Hba Hbc.
  assert (Hscan : forall What,
            let scan := outcome (scanBodyTitle What (triggerPhrase (inputs c)) t) in
            (standalone (js "@augment") (opt_or (title t) []) ->
             scan = Ok (Some (triggered augment)))
            /\ (~ standalone (js "@augment") (opt_or (title t) []) ->
                standalone (js "@claude") (opt_or (title t) [])
                \/ standalone (triggerPhrase (inputs c)) (opt_or (body t) [])
                \/ standalone (triggerPhrase (inputs c)) (opt_or (title t) []) ->
                scan = Ok (Some (triggered claude)))
            /\ (~ standalone (js "@augment") (opt_or (title t) []) ->
                ~ standalone (js "@claude") (opt_or (title t) []) ->
                ~ standalone (triggerPhrase (inputs c)) (opt_or (body t) []) ->
                ~ standalone (triggerPhrase (inputs c)) (opt_or (title t) []) ->
                scan = Ok None)).
  { intros What.
    exact (proj2 (proj2 (scanBodyTitle_tokens What (triggerPhrase (inputs c)) t))
             Hba Hbc). }
  repeat split.
  - intros H. apply (body_title_events_outcome c t (Some (triggered augment)) Hd He).
    intros What. apply (Hscan What), H.
  - intros H1 H2. apply (body_title_events_outcome c t (Some (triggered claude)) Hd He).
    intros What. apply (Hscan What); assumption.
  - intros H1 H2 H3 H4. apply (body_title_events_outcome c t None Hd He).
    intros What. apply (Hscan What); assumption.
Qed.

(** ** The outputs of the trigger action *)

Lemma trace_bind {A B} (m : M A) (f : A -> M B) :
  trace (m ≫= f) =
  match outcome m with
  | Ok a => trace m ++ trace (f a)
  | Throw e => trace m
  end.
Proof.
  unfold mbind, M_bind, bind. destruct (outcome m); reflexivity.
Qed.

Lemma logs_only_bind {A B} (m : M A) (f : A -> M B) :
  logs_only m -> (forall a, logs_only (f a)) -> logs_only (m ≫= f).
Proof.
  unfold logs_only. intros Hm Hf. rewrite trace_bind.
  destruct (outcome m); [|exact Hm].
  rewrite forallb_app, Hm, Hf. reflexivity.
Qed.

Lemma logs_only_scanText (What phrase text : jsstring) :
  logs_only (scanText What phrase text).
Proof.
  unfold scanText. rewrite new_RegExp_triggerPattern.
  destruct (detectAIProvider text); [reflexivity|].
  apply logs_only_bind; [reflexivity|]. intros r.
  destruct (test r text); reflexivity.
Qed.

Lemma logs_only_scanBodyTitle (What phrase : jsstring) (t : Text) :
  logs_only (scanBodyTitle What phrase t).
Proof.
  unfold scanBodyTitle. rewrite new_RegExp_triggerPattern.
  destruct (first_provider _ _); [reflexivity|].
  apply logs_only_bind; [reflexivity|]. intros r.
  destruct (test r _); [reflexivity|]. destruct (test r _); reflexivity.
Qed.

Lemma logs_only_member {A} (o : option A) : logs_only (member o).
Proof. destruct o; reflexivity. Qed.

Lemma logs_only_first_return (blocks : list (M (option TriggerResult)))
    (otherwise : M TriggerResult) :
  Forall logs_only blocks -> logs_only otherwise ->
  logs_only (first_return blocks otherwise).
Proof.
  intros Hb Ho. induction Hb as [|b blocks Hb _ IH]; [exact Ho|].
  cbn [first_return]. apply logs_only_bind; [exact Hb|].
  intros [r|]; [reflexivity | exact IH].
Qed.

Lemma logs_only_checkContainsTrigger (c : ParsedGitHubContext) :
  logs_only (checkContainsTrigger c).
Proof.
  unfold checkContainsTrigger. destruct (truthy _); [reflexivity|].
  apply logs_only_first_return; [|reflexivity].
  constructor.
  { unfold assigneeBlock. destruct (isIssuesAssignedEvent c); [|reflexivity].
    destruct (_ && _); reflexivity. }
  constructor.
  { unfold issueBlock. destruct (_ && _); [|reflexivity].
    apply logs_only_bind; [apply logs_only_member|].
    intros i. apply logs_only_scanBodyTitle. }
  constructor.
  { unfold pullRequestBlock. destruct (isPullRequestEvent c); [|reflexivity].
    apply logs_only_bind; [apply logs_only_member|].
    intros i. apply logs_only_scanBodyTitle. }
  constructor.
  { unfold reviewBlock. destruct (_ && _); [|reflexivity].
    apply logs_only_bind; [apply logs_only_member|].
    intros i. apply logs_only_scanText. }
  constructor; [|constructor].
  unfold commentBlock. destruct (_ || _); [|reflexivity].
  apply logs_only_bind; [apply logs_only_member|].
  intros i. apply logs_only_scanText.
Qed.

Lemma logs_only_outputs {A} (m : M A) : logs_only m -> outputs m = [].
Proof.
  unfold logs_only, outputs. induction (trace m) as [|e l IH]; [reflexivity|].
  cbn [forallb]. intros H. apply andb_true_iff in H as [He Hl].
  destruct e; try discriminate. cbn. apply IH, Hl.
Qed.

(** A returned result is a triggered one or the untriggered one. *)
Lemma checkContainsTrigger_result_shape (c : ParsedGitHubContext) (r : TriggerResult) :
  outcome (checkContainsTrigger c) = Ok r ->
  (exists p, r = triggered p) \/ r = not_triggered.
Proof.
  unfold checkContainsTrigger. destruct (truthy _).
  - intros [= <-]. left. eauto.
  - rewrite outcome_first_return. cbn [List.map first_outcome].
    pose proof (proj1 (assigneeBlock_returns c)) as H1.
    pose proof (proj1 (issueBlock_returns c)) as H2.
    pose proof (proj1 (pullRequestBlock_returns c)) as H3.
    pose proof (proj1 (reviewBlock_returns c)) as H4.
    pose proof (proj1 (commentBlock_returns c)) as H5.
    unfold returns_triggered in *.
    destruct (outcome (assigneeBlock c)) as [[r1|]|e1];
      [intros [= <-]; left; eauto | | discriminate].
    destruct (outcome (issueBlock c)) as [[r2|]|e2];
      [intros [= <-]; left; eauto | | discriminate].
    destruct (outcome (pullRequestBlock c)) as [[r3|]|e3];
      [intros [= <-]; left; eauto | | discriminate].
    destruct (outcome (reviewBlock c)) as [[r4|]|e4];
      [intros [= <-]; left; eauto | | discriminate].
    destruct (outcome (commentBlock c)) as [[r5|]|e5];
      [intros [= <-]; left; eauto | | discriminate].
    intros [= <-]. right. reflexivity.
Qed.

(** X8: [checkTriggerAction] returns the trigger flag and sets the output
    [contains_trigger] to it; it sets the output [ai_provider] exactly when
    the flag is true; and when the check throws it sets no output. *)
Theorem checkTriggerAction_outputs (c : ParsedGitHubContext) :
  match outcome (checkTriggerAction c) with
  | Ok true =>
      exists p, outputs (checkTriggerAction c) =
                [(js "contains_trigger", js "true"); (js "ai_provider", provider_name p)]
  | Ok false =>
      outputs (checkTriggerAction c) = [(js "contains_trigger", js "false")]
  | Throw _ => outputs (checkTriggerAction c) = []
  end.
Proof.
  pose proof (logs_only_outputs _ (logs_only_checkContainsTrigger c)) as Hlog.
  pose proof (checkContainsTrigger_result_shape c) as Hshape.
  unfold checkTriggerAction, outputs in *. rewrite outcome_bind, trace_bind.
  destruct (outcome (checkContainsTrigger c)) as [r|e]; [|exact Hlog].
  rewrite omap_app, Hlog.
  destruct (Hshape r eq_refl) as [[p ->] | ->].
  - exists p. reflexivity.
  - reflexivity.
Qed.

(** ** Escaping *)

Lemma escapeRegExp_cons (c : N) (s : jsstring) :
  escapeRegExp (c :: s) =
  (if isSyntaxCharacter c then [92; c] else [c]) ++ escapeRegExp s.
Proof.
  unfold escapeRegExp. cbn [flat_map]. rewrite escapeClass_matches.
  destruct (isSyntaxCharacter c); reflexivity.
Qed.

(** X9: [escapeRegExp] loses nothing: two strings with the same escaped
    form are the same string; and it leaves a string as it is exactly when
    the string holds none of the fourteen syntax characters. *)
Theorem escapeRegExp_injective_and_fixed (s1 : jsstring) :
  (forall s2, escapeRegExp s1 = escapeRegExp s2 -> s1 = s2)
  /\ (escapeRegExp s1 = s1 <-> forallb (fun c => negb (isSyntaxCharacter c)) s1 = true).
Proof.
  split.
  - induction s1 as [|c1 s1 IH]; intros [|c2 s2].
    + reflexivity.
    + rewrite escapeRegExp_cons. destruct (isSyntaxCharacter c2); discriminate.
    + rewrite escapeRegExp_cons. destruct (isSyntaxCharacter c1); discriminate.
    + rewrite !escapeRegExp_cons.
      destruct (isSyntaxCharacter c1) eqn:E1, (isSyntaxCharacter c2) eqn:E2;
        cbn [app].
      * intros [= -> H]. f_equal. apply IH, H.
      * intros [= <- H]. discriminate E2.
      * intros [= -> H]. discriminate E1.
      * intros [= -> H]. f_equal. apply IH, H.
  - assert (Hlen : forall s, (length s <= length (escapeRegExp s))%nat).
    { induction s as [|c s IH]; [reflexivity|]. rewrite escapeRegExp_cons.
      destruct (isSyntaxCharacter c); cbn [app length]; lia. }
    induction s1 as [|c s1 IH]; [split; reflexivity|].
    rewrite escapeRegExp_cons. cbn [forallb].
    destruct (isSyntaxCharacter c) eqn:E; cbn [app negb andb].
    + split; [|discriminate]. intros [= Hc H].
      specialize (Hlen s1). apply (f_equal (@length _)) in H.
      cbn [length] in H. lia.
    + rewrite <- IH. split; [intros [= H]; exact H | intros ->; reflexivity].
Qed.

(** ** Detection on joined texts *)

Lemma boundary_before_app_ws (a l : jsstring) (w : N) :
  isWhiteSpace w = true -> boundary_before (a ++ w :: l) <-> boundary_before l.
Proof.
  intros Hw. unfold boundary_before. split.
  - intros [H | (pre' & c & H & Hc)].
    + destruct a; discriminate.
    + destruct l as [|x l] using rev_ind; [left; reflexivity|].
      right. exists l, x. split; [reflexivity|].
      change (a ++ w :: l ++ [x]) with (a ++ (w :: l) ++ [x]) in H.
      rewrite app_assoc in H. apply app_inj_tail in H as [_ ->]. exact Hc.
  - intros [-> | (pre' & c & -> & Hc)].
    + right. exists a, w. split; [reflexivity | exact Hw].
    + right. exists (a ++ w :: pre'), c. split; [|exact Hc].
      rewrite <- app_assoc. reflexivity.
Qed.

Lemma isWhiteSpace_isFollow (w : N) : isWhiteSpace w = true -> isFollow w = true.
Proof. intros H. unfold isFollow. rewrite H. reflexivity. Qed.

Lemma boundary_after_app_ws (m b : jsstring) (w : N) :
  isWhiteSpace w = true ->
  boundary_after isFollow (m ++ w :: b) <-> boundary_after isFollow m.
Proof.
  intros Hw. unfold boundary_after. destruct m as [|c m]; cbn [app].
  - split; [left; reflexivity|]. intros _. right. exists w, b.
    split; [reflexivity | apply isWhiteSpace_isFollow, Hw].
  - split.
    + intros [H | (c' & post' & [= <- <-] & Hc)]; [discriminate|]. right. eauto.
    + intros [H | (c' & post' & [= <- <-] & Hc)]; [discriminate|]. right. eauto.
Qed.

(** A token without white space stands in two texts joined by white space
    exactly when it stands in one of them. *)
Lemma standalone_join (tok a b : jsstring) (w : N) :
  tok <> [] -> forallb (fun c => negb (isWhiteSpace c)) tok = true ->
  isWhiteSpace w = true ->
  standalone tok (a ++ w :: b) <-> standalone tok a \/ standalone tok b.
Proof.
  intros Hne Htok Hw.
  assert (Hnotin : forall l m, tok <> l ++ w :: m).
  { intros l m Heq. rewrite Heq, forallb_app in Htok. cbn [forallb] in Htok.
    rewrite Hw in Htok. cbn in Htok. rewrite andb_false_r in Htok. discriminate. }
  unfold standalone, standalone_with. split.
  - intros (pre & post & Ht & Hb & Ha).
    apply app_eq_app in Ht as [l [[Ha1 Ht] | [Hp Ht]]].
    + (* the token starts inside [a] *)
      apply app_eq_app in Ht as [m [[Hk Hm] | [Hl Hpost]]].
      * destruct m as [|x m].
        -- rewrite app_nil_r in Hk. subst l. cbn [app] in Hm. subst post a.
           left. exists pre, []. rewrite app_nil_r.
           repeat split; try assumption. left. reflexivity.
        -- cbn [app] in Hm. injection Hm as <- Hm. exfalso. exact (Hnotin l m Hk).
      * subst l post a. left. exists pre, m. repeat split; try assumption.
        apply (boundary_after_app_ws m b w Hw), Ha.
    + (* the token starts after [a] *)
      destruct l as [|x l].
      * cbn [app] in Ht. destruct tok as [|k tok]; [congruence|].
        cbn [app] in Ht. injection Ht as <- Ht. cbn [forallb] in Htok.
        rewrite Hw in Htok. discriminate.
      * cbn [app] in Ht. injection Ht as <- Ht. subst pre b.
        right. exists l, post. repeat split; try assumption.
        apply (boundary_before_app_ws a l w Hw), Hb.
  - intros [(pre & post & -> & Hb & Ha) | (pre & post & -> & Hb & Ha)].
    + exists pre, (post ++ w :: b). rewrite <- !app_assoc. repeat split; [exact Hb|].
      apply (boundary_after_app_ws post b w Hw), Ha.
    + exists (a ++ w :: pre), post. rewrite <- app_assoc. repeat split; [|exact Ha].
      apply (boundary_before_app_ws a pre w Hw), Hb.
Qed.

(** X10: detection composes over white space: for two texts joined by a
    white space character, [detectAIProvider] answers ["augment"] if it
    does for either text, else ["claude"] if it does for either, else
    [null]. *)
Theorem detectAIProvider_join (a b : jsstring) (w : N) :
  isWhiteSpace w = true ->
  detectAIProvider (a ++ w :: b) =
  merge_providers (detectAIProvider a) (detectAIProvider b).
Proof.
  intros Hw.
  assert (Haug : test augmentRegex (a ++ w :: b)
                 = test augmentRegex a || test augmentRegex b).
  { apply eq_true_iff_eq. rewrite orb_true_iff, !test_augmentRegex.
    apply standalone_join; [discriminate | reflexivity | exact Hw]. }
  assert (Hcl : test claudeRegex (a ++ w :: b)
                = test claudeRegex a || test claudeRegex b).
  { apply eq_true_iff_eq. rewrite orb_true_iff, !test_claudeRegex.
    apply standalone_join; [discriminate | reflexivity | exact Hw]. }
  rewrite !detect_decision, Haug, Hcl.
  destruct (test augmentRegex a), (test augmentRegex b),
    (test claudeRegex a), (test claudeRegex b); reflexivity.
Qed.

(** ** The actor gates *)

(** X11: [checkAllowedActor] asks the user endpoint once, for the actor,
    and calls no other endpoint; when that request fails it throws the
    very error of the request and logs nothing. *)
Theorem checkAllowedActor_single_lookup (octokit : Octokit) (c : ParsedGitHubContext) :
  api_calls (checkAllowedActor octokit c) = [GetByUsername (actor c)]
  /\ (forall e, users_getByUsername octokit (actor c) = Throw e ->
        checkAllowedActor octokit c = mkM [GetByUsername (actor c)] (Throw e)).
Proof.
  unfold checkAllowedActor, api_calls. split.
  - destruct (users_getByUsername octokit (actor c)) as [ud|e].
    + rewrite !trace_bind, outcome_request. cbn [trace request outcome console_log emit].
      rewrite !trace_bind. cbn [trace outcome console_log emit].
      destruct (str_eqb (user_type ud) (js "User")); [reflexivity|].
      destruct (_ && _); reflexivity.
    + rewrite !trace_bind, outcome_request. reflexivity.
  - intros e E. unfold mbind, M_bind, bind. rewrite outcome_request, E. reflexivity.
Qed.

(** X12: the two gates are independent.  An actor listed in
    [allowedBotNames] whose account is neither a user nor a bot passes
    [checkWritePermissions] and is rejected by [checkAllowedActor]; a human
    user without write access passes [checkAllowedActor] and gets [false]
    from [checkWritePermissions]. *)
Theorem gates_are_independent (octokit : Octokit) (c : ParsedGitHubContext)
    (userData : UserData) :
  users_getByUsername octokit (actor c) = Ok userData ->
  (In (actor c) (allowedBotNames (inputs c)) ->
   user_type userData <> js "User" -> user_type userData <> js "Bot" ->
   outcome (checkWritePermissions octokit c) = Ok true
   /\ exists e, outcome (checkAllowedActor octokit c) = Throw e)
  /\ (~ In (actor c) (allowedBotNames (inputs c)) ->
      user_type userData = js "User" ->
      forall permission,
        repos_getCollaboratorPermissionLevel octokit
          (owner (repository c)) (repo (repository c)) (actor c) = Ok permission ->
        permission <> js "admin" -> permission <> js "write" ->
        outcome (checkAllowedActor octokit c) = Ok tt
        /\ outcome (checkWritePermissions octokit c) = Ok false).
Proof.
  intros Hlookup. split.
  - intros Hin Hu Hb. split.
    + unfold checkWritePermissions. apply includes_In in Hin. rewrite Hin. reflexivity.
    + unfold checkAllowedActor.
      rewrite outcome_bind, outcome_request, Hlookup, outcome_bind.
      cbn [outcome console_log emit].
      apply str_eqb_neq in Hu, Hb. rewrite Hu, Hb. cbn [andb]. eexists. reflexivity.
  - intros Hnot Hu permission Hcall Ha Hw. split.
    + unfold checkAllowedActor.
      rewrite outcome_bind, outcome_request, Hlookup, outcome_bind.
      cbn [outcome console_log emit]. rewrite Hu. reflexivity.
    + unfold checkWritePermissions. apply includes_false in Hnot.
      rewrite Hnot, Hcall. unfold try_catch. cbn -[js str_eqb].
      apply str_eqb_neq in Ha, Hw. rewrite Ha, Hw. reflexivity.
Qed.

(** ** Resolving and installing a tool *)

Lemma assign_lookup (m : gmap jsstring JsonValue)
    (entries : list (jsstring * JsonValue)) (key : jsstring) :
  assign m entries !! key =
  match lookup_last entries key with
  | Some v => Some v
  | None => m !! key
  end.
Proof.
  unfold assign. revert m. induction entries as [|[k v] entries IH]; intros m.
  - reflexivity.
  - cbn [fold_left lookup_last fst snd]. rewrite IH.
    destruct (lookup_last entries key); [reflexivity|].
    destruct (str_eqb k key) eqn:E.
    + apply str_eqb_eq in E. subst k. apply lookup_insert_eq.
    + apply str_eqb_neq in E. apply lookup_insert_ne, E.
Qed.

Lemma getCliToolConfig_shape (process_env : gmap jsstring jsstring) (cliTool : jsstring) :
  In cliTool supported_tools ->
  exists program install arguments keyName modelName,
    getCliToolConfig process_env cliTool =
    with_env program install arguments
      (env_overlay keyName modelName (env_or process_env "API_KEY" [])
         (env_or process_env "MODEL" []) (env_or process_env "AI_ENV" [])).
Proof.
  intros Hin. unfold getCliToolConfig. simpl in Hin.
  destruct Hin as [<- | [<- | [<- | [<- | []]]]].
  - change (str_eqb (js "claude-cli") (js "claude-cli")) with true. cbv iota.
    do 5 eexists. reflexivity.
  - change (str_eqb (js "gemini-cli") (js "claude-cli")) with false.
    change (str_eqb (js "gemini-cli") (js "gemini-cli")) with true. cbv iota.
    do 5 eexists. reflexivity.
  - change (str_eqb (js "codex-cli") (js "claude-cli")) with false.
    change (str_eqb (js "codex-cli") (js "gemini-cli")) with false.
    change (str_eqb (js "codex-cli") (js "codex-cli")) with true. cbv iota.
    do 5 eexists. reflexivity.
  - change (str_eqb (js "augment-cli") (js "claude-cli")) with false.
    change (str_eqb (js "augment-cli") (js "gemini-cli")) with false.
    change (str_eqb (js "augment-cli") (js "codex-cli")) with false.
    change (str_eqb (js "augment-cli") (js "augment-cli")) with true. cbv iota.
    do 5 eexists. reflexivity.
Qed.

(** X13: when [AI_ENV] holds a JSON object, every supported identifier
    resolves, and each member of the object is in the environment overlay
    of the configuration, the last one of a repeated key winning: the
    members override the API key and model entries the dispatcher sets. *)
Theorem ai_env_members_override (process_env : gmap jsstring jsstring)
    (cliTool : jsstring) (members : list (jsstring * JsonValue)) :
  In cliTool supported_tools ->
  env_or process_env "AI_ENV" [] <> [] ->
  JSON_parse (env_or process_env "AI_ENV" []) = Ok (JObject members) ->
  exists config overlay,
    getCliToolConfig process_env cliTool = Ok config
    /\ envSetup config = Some overlay
    /\ forall key v, lookup_last members key = Some v -> overlay !! key = Some v.
Proof.
  intros Hin Hne Hparse.
  destruct (getCliToolConfig_shape process_env cliTool Hin)
    as (program & install & arguments & keyName & modelName & ->).
  unfold with_env, env_overlay. rewrite Hparse.
  destruct (env_or process_env "AI_ENV" []) as [|x aiEnv]; [congruence|].
  cbn [truthy spread_entries]. do 2 eexists. split; [reflexivity|].
  split; [reflexivity|]. intros key v Hkey. rewrite assign_lookup, Hkey. reflexivity.
Qed.

(** X14: [installCliTool] spawns nothing when the configuration has no
    install command; with one, it spawns exactly that command, returns when
    its exit status is 0 and throws, naming the command, on any other
    status, [null] included. *)
Theorem installCliTool_outcome (process_env : gmap jsstring jsstring) (sys : Sys)
    (config : CliToolConfig) :
  (installCommand config = None ->
   installCliTool process_env sys config = mkM [] (Ok tt))
  /\ (forall program arguments,
        installCommand config = Some (program :: arguments) ->
        trace (installCliTool process_env sys config)
        = [ConsoleLog (js "Installing "
                         ++ join (js " ") (program :: arguments) ++ js "...");
           SpawnSync program arguments (install_env process_env) (process_cwd sys)]
        /\ (install_status process_env sys program arguments = Some 0%Z ->
            outcome (installCliTool process_env sys config) = Ok tt)
        /\ (install_status process_env sys program arguments <> Some 0%Z ->
            outcome (installCliTool process_env sys config) =
            Throw (Error (js "Failed to install CLI tool: "
                            ++ join (js " ") (program :: arguments))))).
Proof.
  unfold installCliTool. split.
  - intros ->. reflexivity.
  - intros program arguments ->. cbv beta iota.
    rewrite !trace_bind, !outcome_bind. cbn [outcome trace console_log emit request].
    destruct (install_status process_env sys program arguments) as [[|p|p]|];
      repeat split; intros; try reflexivity; try congruence.
Qed.

(** X15: when the spawn call is refused, [executeCliTool] throws that
    very error and has done nothing but log: no process, no file.  When it
    is accepted, a result it returns names the output file under
    [RUNNER_TEMP] (or [/tmp]); the file is not written when it is there
    after the run; otherwise it is written once, with a record that carries
    the conclusion and the exit status of the process, and an error of that
    write is thrown on, whatever the exit status was. *)
Theorem executeCliTool_output_record (process_env : gmap jsstring jsstring)
    (sys : Sys) (config : CliToolConfig) :
  let env := spawn_env process_env config in
  let out := path_join sys (env_or process_env "RUNNER_TEMP" (js "/tmp"))
                       (js "ai-execution-output.json") in
  let status := spawn_status sys (command config) (args config) env (process_cwd sys) in
  let execution := executeCliTool process_env sys config in
  (forall e,
     spawnSync_check sys (command config) (args config) env (process_cwd sys) = Throw e ->
     outcome execution = Throw e
     /\ trace execution =
        [ConsoleLog (js "Executing: " ++ command config ++ js " "
                       ++ join (js " ") (args config))])
  /\ (spawnSync_check sys (command config) (args config) env (process_cwd sys) = Ok tt ->
      exists c,
        (c = js "success" \/ c = js "failure")
        /\ if existsSync sys out
           then writes execution = []
                /\ outcome execution = Ok {| outputFile := out; conclusion := c |}
           else exists data,
               writes execution = [(out, data)]
               /\ field data (js "status") = Some (JString c)
               /\ field data (js "exit_code") = Some (status_json status)
               /\ outcome execution =
                  match writeFileSync sys out data with
                  | Ok _ => Ok {| outputFile := out; conclusion := c |}
                  | Throw e => Throw e
                  end).
Proof.
  intros env out status execution. subst execution.
  rewrite executeCliTool_cases. cbv zeta. fold env. fold status. fold out.
  split.
  - intros e ->. split; reflexivity.
  - intros ->.
    exists (match status with Some 0%Z => js "success" | _ => js "failure" end).
    split.
    + destruct status as [[|p|p]|]; [left | right | right | right]; reflexivity.
    + destruct (existsSync sys out).
      * split; reflexivity.
      * destruct (writeFileSync sys out _) as [[]|e] eqn:Hw;
          (eexists; split; [reflexivity|]; split; [reflexivity|];
           split; [reflexivity|]); rewrite Hw; reflexivity.
Qed.

(** ** The CLI entry point *)

Lemma ending_pbind {A B} (p : P A) (f : A -> P B) :
  ending (p ≫= f) =
  match ending p with
  | Returned a => ending (f a)
  | Threw e => Threw e
  | Exited code => Exited code
  end.
Proof. unfold mbind, P_bind, pbind. destruct (ending p); reflexivity. Qed.

Lemma events_pbind {A B} (p : P A) (f : A -> P B) :
  events (p ≫= f) =
  match ending p with
  | Returned a => events p ++ events (f a)
  | _ => events p
  end.
Proof. unfold mbind, P_bind, pbind. destruct (ending p); reflexivity. Qed.

Lemma pbind_lift_result_ok {A B : Type} (a : A) (f : A -> P B) :
  lift_result (Ok a) ≫= f = f a.
Proof. unfold mbind, P_bind, pbind. cbn. destruct (f a); reflexivity. Qed.

Lemma getCliToolConfig_unknown (process_env : gmap jsstring jsstring) (cliTool : jsstring) :
  ~ In cliTool supported_tools ->
  getCliToolConfig process_env cliTool = Throw (Error (unsupported_message cliTool)).
Proof.
  intros Hnot. unfold getCliToolConfig.
  assert (H : forall name, In name supported_tools -> str_eqb cliTool name = false).
  { intros name Hin. apply str_eqb_neq. intros ->. exact (Hnot Hin). }
  rewrite !H by (simpl; auto). reflexivity.
Qed.

(** The run after the two checks on the prompt file. *)
Lemma run_unfold (process_env : gmap jsstring jsstring) (sys : Sys) :
  env_or process_env "PROMPT_FILE" [] <> [] ->
  existsSync sys (env_or process_env "PROMPT_FILE" []) = true ->
  run process_env sys =
  ptry
    (lift (console_log (js "Using CLI tool: "
                          ++ env_or process_env "CLI_TOOL" (js "claude-cli")));;
     config ← lift_result (getCliToolConfig process_env
                             (env_or process_env "CLI_TOOL" (js "claude-cli")));
     lift (installCliTool process_env sys config);;
     execution ← lift (executeCliTool process_env sys config);
     lift (core_setOutput (js "execution_file") (outputFile execution));;
     lift (core_setOutput (js "conclusion") (conclusion execution));;
     if negb (str_eqb (conclusion execution) (js "success")) then
       core_setFailed (js "CLI tool execution failed with exit code: "
                         ++ conclusion execution)
     else mret tt)
    (fun error =>
       console_error [LogStr (js "Execute CLI failed: " ++ err_message error)];;
       core_setFailed (js "Execute CLI failed: " ++ err_message error);;
       lift (request
               (WriteFileSync
                  (path_join sys (env_or process_env "RUNNER_TEMP" (js "/tmp"))
                     (js "ai-execution-output.json"))
                  (failure_record sys (err_message error)))
               (writeFileSync sys
                  (path_join sys (env_or process_env "RUNNER_TEMP" (js "/tmp"))
                     (js "ai-execution-output.json"))
                  (failure_record sys (err_message error))));;
       lift (core_setOutput (js "execution_file")
               (path_join sys (env_or process_env "RUNNER_TEMP" (js "/tmp"))
                  (js "ai-execution-output.json")));;
       lift (core_setOutput (js "conclusion") (js "failure"));;
       pexit 1%Z).
Proof.
  intros Hp He. unfold run. rewrite He.
  destruct (env_or process_env "PROMPT_FILE" []); [congruence | reflexivity].
Qed.

(** What the handler of [run] adds to a body that threw: the failure
    record is written first; the two outputs and the exit follow only when
    that write returns, and its error leaves the run otherwise. *)
Lemma run_failure_path (process_env : gmap jsstring jsstring) (sys : Sys)
    (r body : P unit) (h : JsError -> P unit) (error : JsError) :
  r = ptry body h ->
  (forall e, h e =
     (console_error [LogStr (js "Execute CLI failed: " ++ err_message e)];;
      core_setFailed (js "Execute CLI failed: " ++ err_message e);;
      lift (request
              (WriteFileSync
                 (path_join sys (env_or process_env "RUNNER_TEMP" (js "/tmp"))
                    (js "ai-execution-output.json"))
                 (failure_record sys (err_message e)))
              (writeFileSync sys
                 (path_join sys (env_or process_env "RUNNER_TEMP" (js "/tmp"))
                    (js "ai-execution-output.json"))
                 (failure_record sys (err_message e))));;
      lift (core_setOutput (js "execution_file")
              (path_join sys (env_or process_env "RUNNER_TEMP" (js "/tmp"))
                 (js "ai-execution-output.json")));;
      lift (core_setOutput (js "conclusion") (js "failure"));;
      pexit 1%Z)) ->
  ending body = Threw error ->
  let out := path_join sys (env_or process_env "RUNNER_TEMP" (js "/tmp"))
                       (js "ai-execution-output.json") in
  let data := failure_record sys (err_message error) in
  spawned r = spawned body
  /\ writes_of r = writes_of body ++ [(out, data)]
  /\ List.filter is_set_failed (events r) =
     List.filter is_set_failed (events body)
     ++ [CoreSetFailed (js "Execute CLI failed: " ++ err_message error)]
  /\ match writeFileSync sys out data with
     | Ok _ =>
         ending r = Exited 1%Z
         /\ outputs_of r =
            outputs_of body ++ [(js "execution_file", out); (js "conclusion", js "failure")]
     | Throw e => ending r = Threw e /\ outputs_of r = outputs_of body
     end.
Proof.
  intros -> Hh Hb out data. unfold ptry, spawned, writes_of, outputs_of.
  rewrite Hb, Hh. fold out. fold data. cbn [events ending].
  rewrite !List.filter_app, !omap_app.
  destruct (writeFileSync sys out data) as [[]|e]; repeat split;
    try reflexivity; cbn; rewrite ?app_nil_r; reflexivity.
Qed.

(** The facts of [run_failure_path] for the [try] of the goal, the error
    being the one its body ends with. *)
Ltac handler_facts process_env sys :=
  match goal with
  | |- context [ptry ?b ?h] =>
      let H := fresh "Hhandler" in
      epose proof (run_failure_path process_env sys (ptry b h) b h _
                     eq_refl (fun _ => eq_refl) eq_refl) as H;
      cbv zeta in H;
      destruct H as (Hspawned & Hwrites & Hfailed & Hending)
  end.

(** X16: when the prompt file is not named, or does not exist, or the
    tool identifier is not supported, [run] spawns no process and asks for
    one write, that of the failure record.  When that write returns, it
    sets the outputs [execution_file] and [conclusion] (to ["failure"]) and
    ends the process with exit code 1; when that write throws, its error
    leaves [run] and no output is set. *)
Theorem run_preflight_failure (process_env : gmap jsstring jsstring) (sys : Sys) :
  env_or process_env "PROMPT_FILE" [] = []
  \/ existsSync sys (env_or process_env "PROMPT_FILE" []) = false
  \/ ~ In (env_or process_env "CLI_TOOL" (js "claude-cli")) supported_tools ->
  let out := path_join sys (env_or process_env "RUNNER_TEMP" (js "/tmp"))
                       (js "ai-execution-output.json") in
  spawned (run process_env sys) = []
  /\ exists data,
      writes_of (run process_env sys) = [(out, data)]
      /\ field data (js "type") = Some (JString (js "error"))
      /\ match writeFileSync sys out data with
         | Ok _ =>
             ending (run process_env sys) = Exited 1%Z
             /\ outputs_of (run process_env sys) =
                [(js "execution_file", out); (js "conclusion", js "failure")]
         | Throw e =>
             ending (run process_env sys) = Threw e
             /\ outputs_of (run process_env sys) = []
         end.
Proof.
  intros H out. subst out.
  destruct (env_or process_env "PROMPT_FILE" []) as [|x promptFile] eqn:Hp.
  { unfold run. rewrite Hp. handler_facts process_env sys.
    split; [etransitivity; [exact Hspawned | reflexivity]|]. eexists.
    split; [etransitivity; [exact Hwrites | reflexivity]|]. split; [reflexivity|].
    exact Hending. }
  destruct (existsSync sys (x :: promptFile)) eqn:He.
  2:{ unfold run. rewrite Hp, He. handler_facts process_env sys.
      split; [etransitivity; [exact Hspawned | reflexivity]|]. eexists.
      split; [etransitivity; [exact Hwrites | reflexivity]|]. split; [reflexivity|].
      exact Hending. }
  destruct H as [H | [H | H]]; [discriminate | discriminate |].
  rewrite run_unfold; [| rewrite Hp; discriminate | rewrite Hp; exact He].
  rewrite (getCliToolConfig_unknown _ _ H). handler_facts process_env sys.
  split; [etransitivity; [exact Hspawned | reflexivity]|]. eexists.
  split; [etransitivity; [exact Hwrites | reflexivity]|]. split; [reflexivity|].
  exact Hending.
Qed.

(** X17: when the install step exits with a status other than 0, [run]
    never spawns the tool itself: the install command is the only process
    spawned, and the failure record, which names the install command, is
    the only write asked for.  When that write returns, the conclusion is
    ["failure"] and the process ends with exit code 1; when it throws, its
    error leaves [run] and no output is set. *)
Theorem run_install_failure (process_env : gmap jsstring jsstring) (sys : Sys)
    (config : CliToolConfig) (program : jsstring) (arguments : list jsstring) :
  env_or process_env "PROMPT_FILE" [] <> [] ->
  existsSync sys (env_or process_env "PROMPT_FILE" []) = true ->
  getCliToolConfig process_env (env_or process_env "CLI_TOOL" (js "claude-cli"))
  = Ok config ->
  installCommand config = Some (program :: arguments) ->
  install_status process_env sys program arguments <> Some 0%Z ->
  let out := path_join sys (env_or process_env "RUNNER_TEMP" (js "/tmp"))
                       (js "ai-execution-output.json") in
  spawned (run process_env sys) =
  [Base (SpawnSync program arguments (install_env process_env) (process_cwd sys))]
  /\ exists data,
      writes_of (run process_env sys) = [(out, data)]
      /\ field data (js "error") =
         Some (JString (js "Failed to install CLI tool: "
                          ++ join (js " ") (program :: arguments)))
      /\ match writeFileSync sys out data with
         | Ok _ =>
             ending (run process_env sys) = Exited 1%Z
             /\ outputs_of (run process_env sys) =
                [(js "execution_file", out); (js "conclusion", js "failure")]
         | Throw e =>
             ending (run process_env sys) = Threw e
             /\ outputs_of (run process_env sys) = []
         end.
Proof.
  intros Hp He Hc Hi Hs out. subst out. rewrite run_unfold by assumption.
  rewrite Hc, pbind_lift_result_ok.
  unfold installCliTool. rewrite Hi.
  destruct (install_status process_env sys program arguments) as [[|p|p]|];
    [congruence | | |];
    (handler_facts process_env sys;
     split; [etransitivity; [exact Hspawned | reflexivity]|]; eexists;
     split; [etransitivity; [exact Hwrites | reflexivity]|]; split; [reflexivity|];
     exact Hending).
Qed.

(** X18: when the checks pass, the identifier resolves, the install step
    succeeds (or there is none), the spawn call of the tool is accepted and
    the output file is there after the run or is written without error,
    [run] returns without ending the process, whatever the exit status of
    the tool.  It sets [conclusion] to ["success"] when the tool exits with
    status 0 and marks nothing as failed; on any other status it sets
    ["failure"] and marks the action as failed with a message that shows
    the conclusion where it announces an exit code. *)
Theorem run_reports_tool_result (process_env : gmap jsstring jsstring) (sys : Sys)
    (config : CliToolConfig) :
  env_or process_env "PROMPT_FILE" [] <> [] ->
  existsSync sys (env_or process_env "PROMPT_FILE" []) = true ->
  getCliToolConfig process_env (env_or process_env "CLI_TOOL" (js "claude-cli"))
  = Ok config ->
  installCommand config = None
  \/ (exists program arguments,
        installCommand config = Some (program :: arguments)
        /\ install_status process_env sys program arguments = Some 0%Z) ->
  let env := spawn_env process_env config in
  let out := path_join sys (env_or process_env "RUNNER_TEMP" (js "/tmp"))
                       (js "ai-execution-output.json") in
  spawnSync_check sys (command config) (args config) env (process_cwd sys) = Ok tt ->
  existsSync sys out = true
  \/ (exists data, writes (executeCliTool process_env sys config) = [(out, data)]
                   /\ writeFileSync sys out data = Ok tt) ->
  ending (run process_env sys) = Returned tt
  /\ match spawn_status sys (command config) (args config) env (process_cwd sys) with
     | Some 0%Z =>
         outputs_of (run process_env sys) =
         [(js "execution_file", out); (js "conclusion", js "success")]
         /\ List.filter is_set_failed (events (run process_env sys)) = []
     | _ =>
         outputs_of (run process_env sys) =
         [(js "execution_file", out); (js "conclusion", js "failure")]
         /\ List.filter is_set_failed (events (run process_env sys)) =
            [CoreSetFailed (js "CLI tool execution failed with exit code: failure")]
     end.
Proof.
  intros Hp He Hc Hi env out Hcheck Hfile.
  assert (Hexec : exists r, outcome (executeCliTool process_env sys config) = Ok r).
  { apply (proj2 (executeCliTool_returns process_env sys config)).
    split; [exact Hcheck | exact Hfile]. }
  clear Hfile. revert Hexec. subst env out. rewrite run_unfold by assumption.
  rewrite Hc, pbind_lift_result_ok, executeCliTool_cases. cbv zeta.
  rewrite Hcheck. unfold installCliTool.
  destruct Hi as [Hi | (program & arguments & Hi & Hs)]; rewrite Hi;
    [| unfold request at 1; rewrite Hs];
    (match goal with
     | |- context [existsSync sys (path_join sys ?d ?f)] =>
         destruct (existsSync sys (path_join sys d f))
     end;
     [| match goal with
        | |- context [writeFileSync sys ?f ?d] =>
            destruct (writeFileSync sys f d) as [[]|e]
        end; [| intros [r Hr]; discriminate Hr]]);
    intros _;
    destruct (spawn_status sys (command config) (args config)
                (spawn_env process_env config) (process_cwd sys)) as [[|p|p]|];
    repeat split.
Qed.

(** X26: when the checks pass, the identifier resolves and the install
    step succeeds, but the tool step throws (its spawn call is refused, or
    the write of its record fails after the process has run, with whatever
    exit status, 0 included), [run] marks the action as failed with the
    message of that error and asks for the write of the failure record.
    When that write returns, [conclusion] is set to ["failure"] and the
    process ends with exit code 1; when it throws, its error leaves [run]
    and no output is set. *)
Theorem run_tool_step_throws (process_env : gmap jsstring jsstring) (sys : Sys)
    (config : CliToolConfig) (error : JsError) :
  env_or process_env "PROMPT_FILE" [] <> [] ->
  existsSync sys (env_or process_env "PROMPT_FILE" []) = true ->
  getCliToolConfig process_env (env_or process_env "CLI_TOOL" (js "claude-cli"))
  = Ok config ->
  installCommand config = None
  \/ (exists program arguments,
        installCommand config = Some (program :: arguments)
        /\ install_status process_env sys program arguments = Some 0%Z) ->
  outcome (executeCliTool process_env sys config) = Throw error ->
  let out := path_join sys (env_or process_env "RUNNER_TEMP" (js "/tmp"))
                       (js "ai-execution-output.json") in
  let data := failure_record sys (err_message error) in
  writes_of (run process_env sys) =
  writes (executeCliTool process_env sys config) ++ [(out, data)]
  /\ List.filter is_set_failed (events (run process_env sys)) =
     [CoreSetFailed (js "Execute CLI failed: " ++ err_message error)]
  /\ match writeFileSync sys out data with
     | Ok _ =>
         ending (run process_env sys) = Exited 1%Z
         /\ outputs_of (run process_env sys) =
            [(js "execution_file", out); (js "conclusion", js "failure")]
     | Throw e =>
         ending (run process_env sys) = Threw e
         /\ outputs_of (run process_env sys) = []
         end.
Proof.
  intros Hp He Hc Hi Hthrow out data. subst out data. revert Hthrow.
  rewrite run_unfold by assumption.
  rewrite Hc, pbind_lift_result_ok, executeCliTool_cases. cbv zeta.
  unfold installCliTool.
  destruct Hi as [Hi | (program & arguments & Hi & Hs)]; rewrite Hi;
    [| unfold request at 1; rewrite Hs];
    (destruct (spawnSync_check sys (command config) (args config)
                 (spawn_env process_env config) (process_cwd sys)) as [[]|e0];
     [ match goal with
       | |- context [existsSync sys (path_join sys ?d ?f)] =>
           destruct (existsSync sys (path_join sys d f))
       end; [discriminate|];
       match goal with
       | |- context [writeFileSync sys ?f (result_record ?a ?b ?c ?d)] =>
           destruct (writeFileSync sys f (result_record a b c d)) as [[]|e0]
       end; [discriminate|]
     | ]);
    intros [= ->]; handler_facts process_env sys;
    (split; [etransitivity; [exact Hwrites | reflexivity]|]);
    (split; [etransitivity; [exact Hfailed | reflexivity] | exact Hending]).
Qed.

(** The end of a run whose body threw: exit, or the error of the write. *)
Ltac finish_handled process_env sys :=
  handler_facts process_env sys;
  match goal with
  | Hend : match writeFileSync sys ?f ?d with _ => _ end |- _ =>
      let e0 := fresh "e" in
      let Hwrite := fresh "Hwrite" in
      revert Hend;
      destruct (writeFileSync sys f d) as [[]|e0] eqn:Hwrite; intros Hend;
      [ right; left; exact Hend
      | right; right; exists e0, d;
        split; [exact (proj1 Hend)|];
        split; [exact (proj2 Hend)|];
        split; [exact Hwrite | reflexivity] ]
  end.

(** X19: whatever the environment and the system do, [run] ends in one of
    three ways.  It returns, having set the outputs [execution_file] and
    [conclusion] once each, the conclusion being ["success"] or
    ["failure"]; or it ends the process with exit code 1, having set them
    once each with the conclusion ["failure"]; or it fails with the error
    of the write of its failure record, and then it has set no output. *)
Theorem run_always_reports (process_env : gmap jsstring jsstring) (sys : Sys) :
  let out := path_join sys (env_or process_env "RUNNER_TEMP" (js "/tmp"))
                       (js "ai-execution-output.json") in
  (exists v,
      ending (run process_env sys) = Returned tt
      /\ outputs_of (run process_env sys) =
         [(js "execution_file", out); (js "conclusion", v)]
      /\ (v = js "success" \/ v = js "failure"))
  \/ (ending (run process_env sys) = Exited 1%Z
      /\ outputs_of (run process_env sys) =
         [(js "execution_file", out); (js "conclusion", js "failure")])
  \/ (exists e data,
        ending (run process_env sys) = Threw e
        /\ outputs_of (run process_env sys) = []
        /\ writeFileSync sys out data = Throw e
        /\ field data (js "type") = Some (JString (js "error"))).
Proof.
  intros out. subst out.
  destruct (env_or process_env "PROMPT_FILE" []) as [|x promptFile] eqn:Hp.
  { unfold run. rewrite Hp. finish_handled process_env sys. }
  destruct (existsSync sys (x :: promptFile)) eqn:He.
  2:{ unfold run. rewrite Hp, He. finish_handled process_env sys. }
  rewrite run_unfold; [| rewrite Hp; discriminate | rewrite Hp; exact He].
  destruct (getCliToolConfig process_env _) as [config|e].
  2:{ finish_handled process_env sys. }
  rewrite pbind_lift_result_ok, executeCliTool_cases. cbv zeta.
  unfold installCliTool.
  destruct (installCommand config) as [[|program arguments]|].
  - finish_handled process_env sys.
  - destruct (install_status process_env sys program arguments) as [[|p|p]|];
      try (finish_handled process_env sys).
    destruct (spawnSync_check sys (command config) (args config)
                (spawn_env process_env config) (process_cwd sys)) as [[]|e0];
      [| finish_handled process_env sys].
    match goal with
    | |- context [existsSync sys (path_join sys ?d ?f)] =>
        destruct (existsSync sys (path_join sys d f))
    end;
      [| match goal with
         | |- context [writeFileSync sys ?f (result_record ?a ?b ?c ?d)] =>
             destruct (writeFileSync sys f (result_record a b c d)) as [[]|e0]
         end; [| finish_handled process_env sys]];
      destruct (spawn_status sys (command config) (args config)
                  (spawn_env process_env config) (process_cwd sys)) as [[|p|p]|];
      left; eexists; (split; [reflexivity|]); (split; [reflexivity|]); auto.
  - destruct (spawnSync_check sys (command config) (args config)
                (spawn_env process_env config) (process_cwd sys)) as [[]|e0];
      [| finish_handled process_env sys].
    match goal with
    | |- context [existsSync sys (path_join sys ?d ?f)] =>
        destruct (existsSync sys (path_join sys d f))
    end;
      [| match goal with
         | |- context [writeFileSync sys ?f (result_record ?a ?b ?c ?d)] =>
             destruct (writeFileSync sys f (result_record a b c d)) as [[]|e0]
         end; [| finish_handled process_env sys]];
      destruct (spawn_status sys (command config) (args config)
                  (spawn_env process_env config) (process_cwd sys)) as [[|p|p]|];
      left; eexists; (split; [reflexivity|]); (split; [reflexivity|]); auto.
Qed.

(** ** Branch cleanup *)(** ** Branch cleanup *)

Lemma pbind_prequest_ok {A B : Type} (e : SysEvent) (a : A) (f : A -> P B) :
  prequest e (Ok a) ≫= f = mkP (e :: events (f a)) (ending (f a)).
Proof. reflexivity. Qed.

(** X20: [checkAndDeleteEmptyBranch] never throws, whatever the two
    endpoints do; it requests the deletion of [heads/<branch>] exactly when
    it reports [shouldDeleteBranch], and it reports it even when that
    request fails. *)
Theorem cleanup_deletes_iff_reported (url : jsstring)
    (process_env : gmap jsstring jsstring) (octokit : Octokits)
    (owner repo : jsstring) (claudeBranch : option jsstring) (baseBranch : jsstring) :
  let cleanup := checkAndDeleteEmptyBranch url process_env octokit owner repo
                   claudeBranch baseBranch in
  exists d, ending cleanup = Returned d
            /\ deletions cleanup =
               if shouldDeleteBranch d
               then [DeleteRef owner repo (js "heads/" ++ default [] claudeBranch)]
               else [].
Proof.
  intros cleanup. subst cleanup. unfold checkAndDeleteEmptyBranch, inspectBranch.
  destruct claudeBranch as [[|x branch]|];
    [eexists; split; reflexivity | | eexists; split; reflexivity].
  cbn [truthy]. unfold deletions.
  destruct (compareCommitsWithBasehead octokit owner repo _) as [n|e];
    [|eexists; split; reflexivity].
  rewrite pbind_prequest_ok.
  destruct (n =? 0)%Z; [|eexists; split; reflexivity].
  destruct (is_truthy_opt (process_env !! js "AUGMENT_API_KEY"));
    [eexists; split; reflexivity|].
  match goal with
  | |- context [deleteRef octokit owner repo ?r] =>
      destruct (deleteRef octokit owner repo r) as [[]|e]
  end; eexists; split; reflexivity.
Qed.

(** X21: a branch is reported for deletion exactly when it is named, the
    comparison with the base branch succeeds with no commit at all, and
    [AUGMENT_API_KEY] is unset or empty.  A failed comparison never leads to
    a deletion. *)
Theorem cleanup_deletes_only_empty_branch (url : jsstring)
    (process_env : gmap jsstring jsstring) (octokit : Octokits)
    (owner repo : jsstring) (claudeBranch : option jsstring) (baseBranch : jsstring) :
  let cleanup := checkAndDeleteEmptyBranch url process_env octokit owner repo
                   claudeBranch baseBranch in
  exists d, ending cleanup = Returned d
            /\ (shouldDeleteBranch d = true <->
                exists branch,
                  claudeBranch = Some branch /\ branch <> []
                  /\ compareCommitsWithBasehead octokit owner repo
                       (baseBranch ++ js "..." ++ branch) = Ok 0%Z
                  /\ is_truthy_opt (process_env !! js "AUGMENT_API_KEY") = false).
Proof.
  intros cleanup. subst cleanup. unfold checkAndDeleteEmptyBranch, inspectBranch.
  destruct claudeBranch as [[|x branch]|].
  - eexists. split; [reflexivity|]. cbn [shouldDeleteBranch]. split; [discriminate|].
    intros (b & [= <-] & Hb & _). congruence.
  - cbn [truthy].
    destruct (compareCommitsWithBasehead octokit owner repo
                (baseBranch ++ js "..." ++ x :: branch)) as [n|e] eqn:Hcmp.
    + rewrite pbind_prequest_ok. destruct (Z.eqb_spec n 0) as [-> | Hn].
      * destruct (is_truthy_opt (process_env !! js "AUGMENT_API_KEY")) eqn:Hk.
        -- eexists. split; [reflexivity|]. cbn [shouldDeleteBranch]. split; [discriminate|].
           intros (b & [= <-] & _ & _ & Hf). discriminate.
        -- match goal with
           | |- context [deleteRef octokit owner repo ?r] =>
               destruct (deleteRef octokit owner repo r) as [[]|e]
           end; (eexists; split; [reflexivity|]); cbn [shouldDeleteBranch];
             (split; [|reflexivity]); intros _; exists (x :: branch);
             repeat split; try assumption; discriminate.
      * eexists. split; [reflexivity|]. cbn [shouldDeleteBranch]. split; [discriminate|].
        intros (b & Hb & _ & Hc & _). congruence.
    + eexists. split; [reflexivity|]. cbn [shouldDeleteBranch]. split; [discriminate|].
      intros (b & Hb & _ & Hc & _). congruence.
  - eexists. split; [reflexivity|]. cbn [shouldDeleteBranch]. split; [discriminate|].
    intros (b & [=] & _).
Qed.

(** X22: for a named branch, exactly one of two things is reported: the
    deletion, with an empty link, or the link [View branch] to
    [<server>/<owner>/<repo>/tree/<branch>], which is also what a failed
    comparison gives; without a branch name nothing is requested and both
    are empty. *)
Theorem cleanup_link_or_deletion (url : jsstring)
    (process_env : gmap jsstring jsstring) (octokit : Octokits)
    (owner repo : jsstring) (claudeBranch : option jsstring) (baseBranch : jsstring) :
  let cleanup := checkAndDeleteEmptyBranch url process_env octokit owner repo
                   claudeBranch baseBranch in
  exists d, ending cleanup = Returned d
            /\ match claudeBranch with
               | Some (x :: branch) =>
                   branchLink d =
                   (if shouldDeleteBranch d then []
                    else [10] ++ js "[View branch](" ++ url ++ js "/" ++ owner
                         ++ js "/" ++ repo ++ js "/tree/" ++ (x :: branch) ++ js ")")
                   /\ (forall e, compareCommitsWithBasehead octokit owner repo
                                   (baseBranch ++ js "..." ++ x :: branch) = Throw e ->
                                 shouldDeleteBranch d = false)
               | _ => d = {| shouldDeleteBranch := false; branchLink := [] |}
                      /\ events cleanup = []
               end.
Proof.
  intros cleanup. subst cleanup.
  unfold checkAndDeleteEmptyBranch, inspectBranch, view_branch_link.
  destruct claudeBranch as [[|x branch]|];
    [eexists; repeat split | | eexists; repeat split].
  cbn [truthy].
  destruct (compareCommitsWithBasehead octokit owner repo
              (baseBranch ++ js "..." ++ x :: branch)) as [n|e].
  - rewrite pbind_prequest_ok. destruct (n =? 0)%Z.
    + destruct (is_truthy_opt (process_env !! js "AUGMENT_API_KEY")).
      * eexists. split; [reflexivity|]. split; [|discriminate].
        cbn [branchLink shouldDeleteBranch]. rewrite <- !app_assoc. reflexivity.
      * match goal with
        | |- context [deleteRef octokit owner repo ?r] =>
            destruct (deleteRef octokit owner repo r) as [[]|e]
        end; eexists; (split; [reflexivity|]); split;
          [reflexivity | discriminate | reflexivity | discriminate].
    + eexists. split; [reflexivity|]. split; [|discriminate].
      cbn [branchLink shouldDeleteBranch]. rewrite <- !app_assoc. reflexivity.
  - eexists. split; [reflexivity|]. split; [|reflexivity].
    cbn [branchLink shouldDeleteBranch]. rewrite <- !app_assoc. reflexivity.
Qed.

(** ** Progress comments *)

Lemma split_on_none (sep : N) (a : jsstring) :
  ~ In sep a -> split_on sep a = [a].
Proof.
  induction a as [|c a IH]; intros Hn; [reflexivity|].
  cbn [split_on]. destruct (N.eqb_spec c sep) as [-> | Hc].
  - exfalso. apply Hn. left. reflexivity.
  - rewrite IH; [reflexivity|]. intros H. apply Hn. right. exact H.
Qed.

Lemma split_on_first (sep : N) (a b : jsstring) :
  ~ In sep a -> split_on sep (a ++ sep :: b) = a :: split_on sep b.
Proof.
  induction a as [|c a IH]; intros Hn.
  - cbn [app split_on]. rewrite N.eqb_refl. reflexivity.
  - cbn [app split_on]. destruct (N.eqb_spec c sep) as [-> | Hc].
    + exfalso. apply Hn. left. reflexivity.
    + rewrite IH; [reflexivity|]. intros H. apply Hn. right. exact H.
Qed.

(** X23: [updateProgressComment] never throws: a failed update is logged
    and dropped.  It sends nothing when the repository text has no [/];
    for [owner/repo] with both parts non-empty it sends one update, whose
    body is the status, a blank line and the content, trimmed. *)
Theorem updateProgressComment_reports
    (updateClaudeComment : jsstring -> jsstring -> jsstring -> jsstring -> jsstring
                           -> Result unit)
    (githubToken repository commentId status content : jsstring) :
  let update := updateProgressComment updateClaudeComment githubToken repository
                  commentId status content in
  ending update = Returned tt
  /\ (~ In (chr "/") repository -> updates update = [])
  /\ (forall owner repo,
        repository = owner ++ chr "/" :: repo ->
        ~ In (chr "/") owner -> ~ In (chr "/") repo ->
        owner <> [] -> repo <> [] ->
        updates update =
        [UpdateComment owner repo commentId
           (trim ((if truthy status then status ++ [10; 10] else [])
                  ++ (if truthy content then content else [])))]).
Proof.
  intros update. subst update. unfold updateProgressComment. repeat split.
  - destruct (_ || _); [reflexivity|].
    match goal with
    | |- context [updateClaudeComment ?a ?b ?c ?d ?e] =>
        destruct (updateClaudeComment a b c d e) as [[]|err]
    end; reflexivity.
  - intros Hn. rewrite (split_on_none _ _ Hn). cbn [lookup list_lookup is_truthy_opt].
    rewrite orb_true_r. reflexivity.
  - intros owner repo -> Ho Hr Hone Hrne.
    rewrite (split_on_first _ _ _ Ho), (split_on_none _ _ Hr).
    cbn [lookup list_lookup is_truthy_opt default].
    destruct owner as [|o owner]; [congruence|].
    destruct repo as [|r repo]; [congruence|].
    cbn [truthy negb orb].
    match goal with
    | |- context [updateClaudeComment ?a ?b ?c ?d ?e] =>
        destruct (updateClaudeComment a b c d e) as [[]|err]
    end; reflexivity.
Qed.

(** ** The further properties at the samples *)

Lemma comment_trigger_decision_witness :
  outcome (checkContainsTrigger both_providers_context) = Ok (triggered augment).
Proof.
  refine (proj1 (comment_trigger_decision both_providers_context
                   {| comment_body := js "@claude and @augment please help" |}
                   eq_refl (or_introl eq_refl) eq_refl) _).
  exists (js "@claude and "), (js " please help").
  split; [reflexivity|]. split.
  - right. exists (js "@claude and"), 32. split; reflexivity.
  - right. eexists _, _. split; reflexivity.
Defined.

Lemma unhandled_event_not_triggered_witness :
  outcome (checkContainsTrigger push_context) = Ok not_triggered.
Proof.
  apply unhandled_event_not_triggered; [reflexivity|].
  intros H. vm_compute in H. intuition discriminate.
Defined.

Lemma unscanned_actions_not_triggered_witness :
  outcome (checkContainsTrigger
             (assigned_context "edited" "" "someone" "@claude please help"))
  = Ok not_triggered.
Proof.
  apply unscanned_actions_not_triggered; [reflexivity|].
  left. split; [reflexivity|]. split; intros H; vm_compute in H; discriminate.
Defined.

Lemma assignee_trigger_decision_witness :
  outcome (checkContainsTrigger
             (assigned_context "assigned" "@claude-bot" "claude-bot" "no mention"))
  = Ok (triggered claude)
  /\ outcome (checkContainsTrigger
                (assigned_context "assigned" "@" "" "@claude please help"))
     = Ok not_triggered.
Proof.
  split.
  - apply (proj1 (assignee_trigger_decision
                    (assigned_context "assigned" "@claude-bot" "claude-bot" "no mention")
                    eq_refl eq_refl eq_refl)).
    split; [intros H; vm_compute in H; discriminate | reflexivity].
  - apply (proj2 (assignee_trigger_decision
                    (assigned_context "assigned" "@" "" "@claude please help")
                    eq_refl eq_refl eq_refl)).
    left. reflexivity.
Defined.

Lemma body_mention_precedes_title_witness :
  outcome (checkContainsTrigger
             (pr_context "opened" "/ai" "@claude fix this" "@augment please"))
  = Ok (triggered claude).
Proof.
  refine (proj2 (body_mention_precedes_title
                   (pr_context "opened" "/ai" "@claude fix this" "@augment please")
                   (pr_text "@claude fix this" "@augment please")
                   eq_refl (or_intror (conj eq_refl eq_refl))) _ _).
  - exists [], (js " fix this"). split; [reflexivity|].
    split; [left; reflexivity|]. right. eexists _, _. split; reflexivity.
  - intros H. apply test_augmentRegex in H. vm_compute in H. discriminate.
Defined.

Lemma title_and_phrase_fallback_witness :
  outcome (checkContainsTrigger
             (pr_context "closed" "/claude" "This PR needs review"
                         "/claude Review this PR"))
  = Ok (triggered claude).
Proof.
  refine (proj1 (proj2 (title_and_phrase_fallback
                   (pr_context "closed" "/claude" "This PR needs review"
                               "/claude Review this PR")
                   (pr_text "This PR needs review" "/claude Review this PR")
                   eq_refl (or_intror (conj eq_refl eq_refl)) _ _)) _ _).
  - intros H. apply test_augmentRegex in H. vm_compute in H. discriminate.
  - intros H. apply test_claudeRegex in H. vm_compute in H. discriminate.
  - intros H. apply test_augmentRegex in H. vm_compute in H. discriminate.
  - right. right. exists [], (js " Review this PR"). split; [reflexivity|].
    split; [left; reflexivity|]. right. eexists _, _. split; reflexivity.
Defined.

Lemma detectAIProvider_join_witness :
  detectAIProvider (js "fix @claude" ++ 10 :: js "@augment too") = Some augment.
Proof.
  rewrite detectAIProvider_join; reflexivity.
Defined.

Lemma gates_are_independent_witness :
  outcome (checkWritePermissions (mock_octokit "Organization" "read")
             (bot_context "my-org" [js "my-org"])) = Ok true
  /\ exists e, outcome (checkAllowedActor (mock_octokit "Organization" "read")
                          (bot_context "my-org" [js "my-org"])) = Throw e.
Proof.
  refine (proj1 (gates_are_independent (mock_octokit "Organization" "read")
                   (bot_context "my-org" [js "my-org"])
                   {| user_type := js "Organization"; user_login := js "my-org" |}
                   eq_refl) _ _ _).
  - left. reflexivity.
  - discriminate.
  - discriminate.
Defined.

Lemma ai_env_members_override_witness :
  exists config overlay,
    getCliToolConfig override_env (js "claude-cli") = Ok config
    /\ envSetup config = Some overlay
    /\ forall key v, lookup_last override_members key = Some v ->
                     overlay !! key = Some v.
Proof.
  apply ai_env_members_override.
  - left. reflexivity.
  - vm_compute. discriminate.
  - vm_compute. reflexivity.
Defined.

Lemma installCliTool_outcome_witness :
  outcome (installCliTool prompt_env (mock_sys (Some 1%Z) true)
             (resolved prompt_env "claude-cli"))
  = Throw (Error (js "Failed to install CLI tool: npm install -g @anthropic-ai/claude-code")).
Proof.
  refine (proj2 (proj2 (proj2 (installCliTool_outcome prompt_env
                                 (mock_sys (Some 1%Z) true)
                                 (resolved prompt_env "claude-cli"))
                          (js "npm")
                          [js "install"; js "-g"; js "@anthropic-ai/claude-code"] _)) _).
  - vm_compute. reflexivity.
  - discriminate.
Defined.

Lemma executeCliTool_output_record_witness :
  exists c,
    (c = js "success" \/ c = js "failure")
    /\ exists data,
        writes (executeCliTool prompt_env (mock_sys (Some 1%Z) false)
                  (resolved prompt_env "claude-cli"))
        = [(js "/tmp/ai-execution-output.json", data)]
        /\ field data (js "status") = Some (JString c)
        /\ field data (js "exit_code") = Some (JNumber (js "1")).
Proof.
  destruct (proj2 (executeCliTool_output_record prompt_env (mock_sys (Some 1%Z) false)
                     (resolved prompt_env "claude-cli")) eq_refl)
    as (c & Hc & H).
  exists c. split; [exact Hc|]. vm_compute in H.
  destruct H as (data & Hw & Hs & He & _). exists data.
  vm_compute. repeat split; assumption.
Defined.

Lemma run_preflight_failure_witness :
  spawned (run ∅ (mock_sys (Some 0%Z) true)) = []
  /\ ending (run ∅ (mock_sys (Some 0%Z) true)) = Exited 1%Z
  /\ outputs_of (run ∅ (mock_sys (Some 0%Z) true)) =
     [(js "execution_file", js "/tmp/ai-execution-output.json");
      (js "conclusion", js "failure")].
Proof.
  destruct (run_preflight_failure ∅ (mock_sys (Some 0%Z) true))
    as (Hs & data & _ & _ & Hm).
  - left. reflexivity.
  - split; [exact Hs|]. vm_compute in Hm. vm_compute. exact Hm.
Defined.

Lemma run_install_failure_witness :
  spawned (run prompt_env (mock_sys (Some 1%Z) true)) =
  [Base (SpawnSync (js "npm")
           [js "install"; js "-g"; js "@anthropic-ai/claude-code"]
           (install_env prompt_env) (js "/work"))]
  /\ ending (run prompt_env (mock_sys (Some 1%Z) true)) = Exited 1%Z
  /\ outputs_of (run prompt_env (mock_sys (Some 1%Z) true)) =
     [(js "execution_file", js "/tmp/ai-execution-output.json");
      (js "conclusion", js "failure")].
Proof.
  destruct (run_install_failure prompt_env (mock_sys (Some 1%Z) true)
              (resolved prompt_env "claude-cli") (js "npm")
              [js "install"; js "-g"; js "@anthropic-ai/claude-code"])
    as (Hs & data & _ & _ & Hm).
  - vm_compute. discriminate.
  - reflexivity.
  - vm_compute. reflexivity.
  - vm_compute. reflexivity.
  - discriminate.
  - split; [exact Hs|]. vm_compute in Hm. vm_compute. exact Hm.
Defined.

Lemma run_reports_tool_result_witness :
  ending (run prompt_env (mock_sys (Some 0%Z) true)) = Returned tt
  /\ outputs_of (run prompt_env (mock_sys (Some 0%Z) true)) =
     [(js "execution_file", js "/tmp/ai-execution-output.json");
      (js "conclusion", js "success")]
  /\ List.filter is_set_failed (events (run prompt_env (mock_sys (Some 0%Z) true))) = [].
Proof.
  pose proof (run_reports_tool_result prompt_env (mock_sys (Some 0%Z) true)
                (resolved prompt_env "claude-cli")) as H.
  vm_compute in H. vm_compute. apply H.
  - discriminate.
  - reflexivity.
  - reflexivity.
  - right. eexists _, _. split; reflexivity.
  - reflexivity.
  - left. reflexivity.
Defined.

(** With a NUL in a member of [AI_ENV] the identifier resolves and the
    install step succeeds, but the spawn call of the tool is refused: the
    run ends with exit code 1 and the conclusion ["failure"], the tool
    never having started. *)
Lemma run_tool_step_throws_witness :
  ending (run nul_env (strict_sys (Some 0%Z) true)) = Exited 1%Z
  /\ outputs_of (run nul_env (strict_sys (Some 0%Z) true)) =
     [(js "execution_file", js "/tmp/ai-execution-output.json");
      (js "conclusion", js "failure")].
Proof.
  destruct (run_tool_step_throws nul_env (strict_sys (Some 0%Z) true)
              (resolved nul_env "claude-cli")
              (TypeError (js "must be a string without null bytes")))
    as (_ & _ & Hm).
  - vm_compute. discriminate.
  - reflexivity.
  - vm_compute. reflexivity.
  - right. eexists _, _. split; vm_compute; reflexivity.
  - vm_compute. reflexivity.
  - vm_compute in Hm. vm_compute. exact Hm.
Defined.

(** With [RUNNER_TEMP] naming a directory that is not there, a tool that
    exits with status 0 is still not reported: the write of its record
    throws, the write of the failure record throws too, and the run fails
    with that error, no output set. *)
Example run_with_missing_directory :
  ending (run missing_tmp_env (strict_sys (Some 0%Z) false))
  = Threw (Error (js "ENOENT: no such file or directory"))
  /\ outputs_of (run missing_tmp_env (strict_sys (Some 0%Z) false)) = []
  /\ List.length (spawned (run missing_tmp_env (strict_sys (Some 0%Z) false))) = 2%nat.
Proof. vm_compute. repeat split. Qed.

Lemma updateProgressComment_reports_witness :
  updates (updateProgressComment (fun _ _ _ _ _ => Throw (Error (js "Not Found")))
             (js "token") (js "test-owner/test-repo") (js "123")
             (js "Working") (js " on it "))
  = [UpdateComment (js "test-owner") (js "test-repo") (js "123")
       (js "Working" ++ [10; 10] ++ js " on it")].
Proof.
  refine (proj2 (proj2 (updateProgressComment_reports
                          (fun _ _ _ _ _ => Throw (Error (js "Not Found")))
                          (js "token") (js "test-owner/test-repo") (js "123")
                          (js "Working") (js " on it ")))
            (js "test-owner") (js "test-repo") eq_refl _ _ _ _).
  - intros H. vm_compute in H. intuition discriminate.
  - intros H. vm_compute in H. intuition discriminate.
  - discriminate.
  - discriminate.
Defined.

Lemma getCliToolConfig_unsupported_witness :
  getCliToolConfig ∅ (js "foo-cli") =
  Throw (Error (js "Unsupported CLI tool: foo-cli. Supported tools: claude-cli, gemini-cli, codex-cli, augment-cli")).
Proof.
  apply getCliToolConfig_unsupported.
  intros H. vm_compute in H. intuition discriminate.
Defined.

Lemma getCliToolConfig_supported_witness :
  exists config, getCliToolConfig prompt_env (js "gemini-cli") = Ok config.
Proof.
  apply getCliToolConfig_supported.
  - right. left. reflexivity.
  - left. reflexivity.
Defined.
